(** * IPDR investigation backend: ingestion, classification and analytics

    A shallow embedding of the record model ([models/ipdr.model.js]), the
    anomaly model ([models/suspicious.model.js]), the ingestion controller
    ([controllers/ipdr.controller.js]) and the analytics controller, with
    the properties the specification states about them.

    Conventions.
    - A JavaScript [Date] is its time value: milliseconds since the epoch,
      an integer ([Z]).
    - A [Number] is an IEEE 754 double, kept as its value: an integer
      ([Z]) for ports, byte volumes and counters, a rational ([Q]) for
      coordinates, confidence and risk scores.  An arithmetic operation
      gives the double nearest to its exact result.  [NaN] and [Infinity]
      are not values of the model: what is stated of the result of an
      operation is stated below [overflowThreshold].
    - A MongoDB collection is the list of its documents in natural order. *)

From Stdlib Require Import ZArith QArith Qround Qabs List String Ascii Bool.
From Stdlib Require Import Lia Lqa.
From Stdlib Require Import Sorting.Sorted Sorting.Permutation DecimalString.
Import ListNotations.

Local Open Scope string_scope.
Local Open Scope Z_scope.

(* ================================================================= *)
(** * The JavaScript runtime *)

(** Built-ins the controllers call but do not define.  [parseInt],
    [parseFloat] and the [Date] constructor on a string return [None]
    where JavaScript produces [NaN] or an Invalid Date; [LocalTZA] is the
    local zone offset in milliseconds at a given instant. *)
Record JSRuntime : Type := {
  parseInt : string -> option Z;
  parseFloat : string -> option Q;
  Date_parse : string -> option Z;
  LocalTZA : Z -> Z
}.

Definition msPerHour : Z := 3600000.
Definition msPerDay : Z := 86400000.

(** [Date.prototype.getHours]: [HourFromTime(LocalTime(t))]. *)
Definition getHours (js : JSRuntime) (t : Z) : Z :=
  ((t + LocalTZA js t) / msPerHour) mod 24.

(** Template-literal conversion of an integer [Number]. *)
Definition string_of_Z (z : Z) : string :=
  NilZero.string_of_int (Z.to_int z).

(** [startDate = new Date(); startDate.setDate(startDate.getDate() - days)]
    for a zone whose offset is the same at both instants. *)
Definition windowStart (now days : Z) : Z := now - days * msPerDay.

(* ================================================================= *)
(** * Numbers *)

(** The integer nearest to [a / b], for [b] positive, the even one on a
    tie. *)
Definition divHalfEven (a b : Z) : Z :=
  let q := a / b in
  match 2 * (a mod b) ?= b with
  | Lt => q
  | Gt => q + 1
  | Eq => if Z.even q then q else q + 1
  end.

(** The largest double is 2^1024 - 2^971.  An exact result of magnitude
    2^1024 - 2^970 or more is nearer to 2^1024 and the operation gives
    [Infinity]. *)
Definition overflowThreshold : Z := 2 ^ 1024 - 2 ^ 970.

(** The double nearest to an integer, ties to the even significand.  Every
    integer up to 2^53 in magnitude is a double; a larger double is a
    multiple of its unit in the last place, 2^(e - 52) for a magnitude in
    [2^e, 2^(e+1)).  This is the [Number] the program has for a magnitude
    below [overflowThreshold]. *)
Definition toDoubleZ (z : Z) : Z :=
  if Z.abs z <=? 2 ^ 53 then z
  else
    let ulp := 2 ^ (Z.log2 (Z.abs z) - 52) in
    Z.sgn z * (divHalfEven (Z.abs z) ulp * ulp).

(** 2^e as a rational. *)
Definition pow2 (e : Z) : Q :=
  match e with
  | Z0 => 1%Q
  | Zpos p => inject_Z (2 ^ e)
  | Zneg p => (1 # 2 ^ p)%Q
  end.

(** The integer part of the binary logarithm of a positive rational. *)
Definition log2Q (q : Q) : Z :=
  let k := Z.log2 (Qnum q) - Z.log2 (Zpos (Qden q)) in
  if Qle_bool (pow2 k) q then k else k - 1.

(** The double nearest to a rational, ties to the even significand: a
    multiple of 2^(e - 52) for a magnitude in [2^e, 2^(e+1)), and of
    2^(-1074) below the normal range.  This is the [Number] the program
    has for a magnitude below [overflowThreshold]. *)
Definition toDouble (q : Q) : Q :=
  match Qnum q with
  | Z0 => 0%Q
  | _ =>
      let m := Qabs q in
      let e := Z.max (log2Q m - 52) (-1074) in
      let x := (m / pow2 e)%Q in
      let n := divHalfEven (Qnum x) (Zpos (Qden x)) in
      Qred (inject_Z (Z.sgn (Qnum q) * n) * pow2 e)
  end.

(** [a + b], [a * b] and [a / b] on [Number]s. *)
Definition numAdd (a b : Q) : Q := toDouble (a + b).
Definition numMul (a b : Q) : Q := toDouble (a * b).
Definition numDiv (a b : Q) : Q := toDouble (a / b).

(* ================================================================= *)
(** * Regular expressions of the schema validators *)

Definition isDigit (c : ascii) : bool :=
  let n := nat_of_ascii c in (48 <=? n)%nat && (n <=? 57)%nat.

Fixpoint allDigits (s : string) : bool :=
  match s with
  | EmptyString => true
  | String c s' => isDigit c && allDigits s'
  end.

(** The longest run of digits at the head of [s], and what follows it. *)
Fixpoint spanDigits (s : string) : nat * string :=
  match s with
  | String c s' =>
      if isDigit c then let '(n, rest) := spanDigits s' in (S n, rest)
      else (O, s)
  | EmptyString => (O, s)
  end.

(** [[0-9]{1,3}] at the head of [s]: the rest of the input on a match. *)
Definition octetGroup (s : string) : option string :=
  let '(n, rest) := spanDigits s in
  if (1 <=? n)%nat && (n <=? 3)%nat then Some rest else None.

(** [(?:[0-9]{1,3}\.)] at the head of [s]. *)
Definition dottedGroup (s : string) : option string :=
  match octetGroup s with
  | Some (String "."%char rest) => Some rest
  | _ => None
  end.

(** [/^(?:[0-9]{1,3}\.){3}[0-9]{1,3}$/.test(v)] *)
Definition ipFormat (v : string) : bool :=
  match dottedGroup v with
  | Some s1 =>
      match dottedGroup s1 with
      | Some s2 =>
          match dottedGroup s2 with
          | Some s3 =>
              match octetGroup s3 with
              | Some EmptyString => true
              | _ => false
              end
          | None => false
          end
      | None => false
      end
  | None => false
  end.

(** [/^[0-9]{10,15}$/.test(v)] *)
Definition phoneFormat (v : string) : bool :=
  allDigits v && (10 <=? String.length v)%nat && (String.length v <=? 15)%nat.

(** [/^[0-9]{15}$/.test(v)] *)
Definition fifteenDigits (v : string) : bool :=
  allDigits v && (String.length v =? 15)%nat.

(* ================================================================= *)
(** * models/ipdr.model.js *)

(** The reason taxonomy: the [enum] of [suspiciousReasons] and of the
    anomaly [type]. *)
Inductive ReasonCode : Type :=
| HIGH_NIGHT_ACTIVITY
| UNUSUAL_DATA_VOLUME
| MULTIPLE_DEVICES
| LOCATION_ANOMALY
| SHORT_DURATION_FREQUENT
| FOREIGN_IP_COMMUNICATION
| BURST_COMMUNICATION
| PATTERN_DEVIATION
| ENCRYPTION_DETECTED.

(** An IPDR document.  The schema paths no modelled function reads or
    writes ([relatedRecords], [investigationStatus], [tags], [notes],
    [lastAnalyzedAt]) are left out. *)
Record IPDR : Type := {
  _id : nat;
  privateIP : string;
  privatePort : Z;
  publicIP : string;
  publicPort : Z;
  destIP : string;
  destPort : Z;
  phoneNumber : string;
  imei : string;
  imsi : string;
  startTime : Z;
  endTime : Z;
  duration : Z;
  originCellID : string;
  originLat : Q;
  originLong : Q;
  coordinates : list Q;
  uplinkVolume : Z;
  downlinkVolume : Z;
  totalVolume : Z;
  accessType : string;
  suspicious : bool;
  suspiciousReasons : list ReasonCode;
  createdAt : Z;
  updatedAt : Z;
  createdBy : string
}.

(** [this.suspicious = ...; this.suspiciousReasons = ...] *)
Definition set_analysis (r : IPDR) (s : bool) (rs : list ReasonCode) : IPDR :=
  {| _id := _id r;
     privateIP := privateIP r; privatePort := privatePort r;
     publicIP := publicIP r; publicPort := publicPort r;
     destIP := destIP r; destPort := destPort r;
     phoneNumber := phoneNumber r; imei := imei r; imsi := imsi r;
     startTime := startTime r; endTime := endTime r;
     duration := duration r;
     originCellID := originCellID r;
     originLat := originLat r; originLong := originLong r;
     coordinates := coordinates r;
     uplinkVolume := uplinkVolume r; downlinkVolume := downlinkVolume r;
     totalVolume := totalVolume r;
     accessType := accessType r;
     suspicious := s; suspiciousReasons := rs;
     createdAt := createdAt r; updatedAt := updatedAt r;
     createdBy := createdBy r |}.

(** The four assignments that open the pre-save middleware. *)
Definition set_derived (r : IPDR) (now : Z) : IPDR :=
  {| _id := _id r;
     privateIP := privateIP r; privatePort := privatePort r;
     publicIP := publicIP r; publicPort := publicPort r;
     destIP := destIP r; destPort := destPort r;
     phoneNumber := phoneNumber r; imei := imei r; imsi := imsi r;
     startTime := startTime r; endTime := endTime r;
     duration := toDoubleZ (endTime r - startTime r);
     originCellID := originCellID r;
     originLat := originLat r; originLong := originLong r;
     coordinates := [originLong r; originLat r];
     uplinkVolume := uplinkVolume r; downlinkVolume := downlinkVolume r;
     totalVolume := toDoubleZ (uplinkVolume r + downlinkVolume r);
     accessType := accessType r;
     suspicious := suspicious r; suspiciousReasons := suspiciousReasons r;
     createdAt := createdAt r; updatedAt := now;
     createdBy := createdBy r |}.

(** [reasons.push(code)] under a condition. *)
Definition pushIf (b : bool) (c : ReasonCode) (reasons : list ReasonCode)
  : list ReasonCode :=
  if b then reasons ++ [c] else reasons.

(** [IPDRSchema.methods.checkSuspicious] *)
Definition checkSuspicious (js : JSRuntime) (r : IPDR) : IPDR :=
  let reasons := [] in
  let hour := getHours js (startTime r) in
  let reasons :=
    pushIf ((hour >=? 22) || (hour <=? 6)) HIGH_NIGHT_ACTIVITY reasons in
  let reasons :=
    pushIf (totalVolume r >? 10485760) UNUSUAL_DATA_VOLUME reasons in
  let reasons :=
    pushIf (duration r <? 30000) SHORT_DURATION_FREQUENT reasons in
  set_analysis r (negb (Nat.eqb (List.length reasons) 0)) reasons.

(** [IPDRSchema.pre('save', ...)] *)
Definition preSave (js : JSRuntime) (now : Z) (r : IPDR) : IPDR :=
  checkSuspicious js (set_derived r now).

Definition inRangeZ (lo hi v : Z) : bool := (lo <=? v) && (v <=? hi).

Definition inRangeQ (lo hi v : Q) : bool := Qle_bool lo v && Qle_bool v hi.

Definition accessTypeEnum (v : string) : bool :=
  ((v =? "2G") || (v =? "3G") || (v =? "4G") || (v =? "5G"))%string.

Definition nonEmpty (v : string) : bool :=
  negb (v =? "")%string.

(** The schema validators, path by path in schema order; the result lists
    the paths that fail. *)
Definition validate (r : IPDR) : list string :=
  let check (ok : bool) (path : string) := if ok then [] else [path] in
  check (nonEmpty (privateIP r) && ipFormat (privateIP r)) "privateIP"
  ++ check (inRangeZ 1 65535 (privatePort r)) "privatePort"
  ++ check (nonEmpty (publicIP r) && ipFormat (publicIP r)) "publicIP"
  ++ check (inRangeZ 1 65535 (publicPort r)) "publicPort"
  ++ check (nonEmpty (destIP r) && ipFormat (destIP r)) "destIP"
  ++ check (inRangeZ 1 65535 (destPort r)) "destPort"
  ++ check (nonEmpty (phoneNumber r) && phoneFormat (phoneNumber r))
       "phoneNumber"
  ++ check (nonEmpty (imei r) && fifteenDigits (imei r)) "imei"
  ++ check (nonEmpty (imsi r) && fifteenDigits (imsi r)) "imsi"
  ++ check (endTime r >? startTime r) "endTime"
  ++ check (nonEmpty (originCellID r)) "originCellID"
  ++ check (inRangeQ (-90 # 1) (90 # 1) (originLat r)) "originLat"
  ++ check (inRangeQ (-180 # 1) (180 # 1) (originLong r)) "originLong"
  ++ check (0 <=? uplinkVolume r) "uplinkVolume"
  ++ check (0 <=? downlinkVolume r) "downlinkVolume"
  ++ check (accessTypeEnum (accessType r)) "accessType".

(** [document.save()]: Mongoose validates first, then runs the pre-save
    middleware, then writes.  [inl] carries the validation error, [inr]
    the document as written. *)
Definition save (js : JSRuntime) (now : Z) (r : IPDR) : list string + IPDR :=
  match validate r with
  | [] => inr (preSave js now r)
  | paths => inl paths
  end.

(** What [new IPDR(recordData)] receives: strings as given, numbers and
    dates possibly [NaN] or invalid ([None]). *)
Record RecordData : Type := {
  d_privateIP : string;
  d_privatePort : option Z;
  d_publicIP : string;
  d_publicPort : option Z;
  d_destIP : string;
  d_destPort : option Z;
  d_phoneNumber : string;
  d_imei : string;
  d_imsi : string;
  d_startTime : option Z;
  d_endTime : option Z;
  d_originCellID : string;
  d_originLat : option Q;
  d_originLong : option Q;
  d_uplinkVolume : option Z;
  d_downlinkVolume : option Z;
  d_accessType : string;
  d_createdBy : string
}.

(** The paths of [d] whose value does not cast to the schema type. *)
Definition castErrors (d : RecordData) : list string :=
  let check {A} (v : option A) (path : string) :=
    match v with Some _ => [] | None => [path] end in
  check (d_privatePort d) "privatePort"
  ++ check (d_publicPort d) "publicPort"
  ++ check (d_destPort d) "destPort"
  ++ check (d_startTime d) "startTime"
  ++ check (d_endTime d) "endTime"
  ++ check (d_originLat d) "originLat"
  ++ check (d_originLong d) "originLong"
  ++ check (d_uplinkVolume d) "uplinkVolume"
  ++ check (d_downlinkVolume d) "downlinkVolume".

(** [new IPDR(recordData)]: casts the given paths and applies the schema
    defaults ([duration], [location.coordinates], [totalVolume],
    [suspicious], [createdAt], [updatedAt]).  A document with a cast error
    ([inl]) is rejected by its [save]. *)
Definition newIPDR (id : nat) (now : Z) (d : RecordData) : list string + IPDR :=
  match d_privatePort d, d_publicPort d, d_destPort d,
        d_startTime d, d_endTime d, d_originLat d, d_originLong d,
        d_uplinkVolume d, d_downlinkVolume d with
  | Some pp, Some up, Some dp, Some st, Some et, Some la, Some lo,
    Some uv, Some dv =>
      inr {| _id := id;
             privateIP := d_privateIP d; privatePort := pp;
             publicIP := d_publicIP d; publicPort := up;
             destIP := d_destIP d; destPort := dp;
             phoneNumber := d_phoneNumber d;
             imei := d_imei d; imsi := d_imsi d;
             startTime := st; endTime := et;
             duration := toDoubleZ (et - st);
             originCellID := d_originCellID d;
             originLat := la; originLong := lo;
             coordinates := [lo; la];
             uplinkVolume := uv; downlinkVolume := dv;
             totalVolume := toDoubleZ (uv + dv);
             accessType := d_accessType d;
             suspicious := false; suspiciousReasons := [];
             createdAt := now; updatedAt := now;
             createdBy := d_createdBy d |}
  | _, _, _, _, _, _, _, _, _ => inl (castErrors d)
  end.

(* ================================================================= *)
(** * models/suspicious.model.js *)

Inductive Severity : Type := LOW | MEDIUM | HIGH | CRITICAL.

Inductive Status : Type :=
| NEW | FLAGGED | UNDER_INVESTIGATION | RESOLVED | FALSE_POSITIVE.

Definition Status_eqb (a b : Status) : bool :=
  match a, b with
  | NEW, NEW | FLAGGED, FLAGGED
  | UNDER_INVESTIGATION, UNDER_INVESTIGATION
  | RESOLVED, RESOLVED | FALSE_POSITIVE, FALSE_POSITIVE => true
  | _, _ => false
  end.

(** A SuspiciousActivity document ([activityId], a timestamp with a
    random suffix, and the paths filled in by the case workflow are left
    out). *)
Record SuspiciousActivity : Type := {
  sa_type : ReasonCode;
  sa_severity : Severity;
  sa_confidence : Q;
  sa_phoneNumber : string;
  sa_imei : string;
  sa_imsi : string;
  sa_description : string;
  sa_ipdrRecords : list nat;
  sa_detectedAt : Z;
  sa_firstOccurrence : Z;
  sa_lastOccurrence : Z;
  sa_status : Status;
  sa_riskScore : Q;
  sa_automaticDetection : bool
}.

(** What [new SuspiciousActivity({...})] receives; a path with a schema
    default may be absent. *)
Record ActivityInit : Type := {
  i_type : ReasonCode;
  i_severity : option Severity;
  i_confidence : option Q;
  i_phoneNumber : string;
  i_imei : string;
  i_imsi : string;
  i_description : string;
  i_ipdrRecords : list nat;
  i_detectedAt : option Z;
  i_firstOccurrence : Z;
  i_lastOccurrence : Z;
  i_status : option Status;
  i_riskScore : option Q
}.

(** [const severityMap = { LOW: 25, MEDIUM: 50, HIGH: 75, CRITICAL: 100 }] *)
Definition severityMap (s : Severity) : Z :=
  match s with
  | LOW => 25
  | MEDIUM => 50
  | HIGH => 75
  | CRITICAL => 100
  end.

(** The [default] function of [riskScore]:
    [severityMap[this.severity] * this.confidence]. *)
Definition riskScoreDefault (severity : Severity) (confidence : Q) : Q :=
  numMul (inject_Z (severityMap severity)) confidence.

Definition orDefault {A : Type} (v : option A) (d : A) : A :=
  match v with Some x => x | None => d end.

(** [new SuspiciousActivity(init)]: given paths first, then defaults. *)
Definition newSuspiciousActivity (now : Z) (i : ActivityInit)
  : SuspiciousActivity :=
  let severity := orDefault (i_severity i) MEDIUM in
  let confidence := orDefault (i_confidence i) (1 # 2)%Q in
  {| sa_type := i_type i;
     sa_severity := severity;
     sa_confidence := confidence;
     sa_phoneNumber := i_phoneNumber i;
     sa_imei := i_imei i;
     sa_imsi := i_imsi i;
     sa_description := i_description i;
     sa_ipdrRecords := i_ipdrRecords i;
     sa_detectedAt := orDefault (i_detectedAt i) now;
     sa_firstOccurrence := i_firstOccurrence i;
     sa_lastOccurrence := i_lastOccurrence i;
     sa_status := orDefault (i_status i) NEW;
     sa_riskScore :=
       orDefault (i_riskScore i) (riskScoreDefault severity confidence);
     sa_automaticDetection := true |}.

(* ================================================================= *)
(** * controllers/ipdr.controller.js: anomaly events *)

(** The methods of the controller as called on the controller object, so
    that [this.getSeverity] and the like are the methods below.  The
    router runs [addRecord] detached from the controller; that is
    [addRecordDetached] further down. *)

(** The literal [0.8] of [createSuspiciousActivity]: the [Number] nearest
    to 8/10. *)
Definition ruleConfidence : Q := toDouble (8 # 10).

(** [getSeverity(reason)]: [severityMap[reason] || 'MEDIUM'] *)
Definition getSeverity (reason : ReasonCode) : Severity :=
  match reason with
  | HIGH_NIGHT_ACTIVITY => MEDIUM
  | UNUSUAL_DATA_VOLUME => HIGH
  | SHORT_DURATION_FREQUENT => HIGH
  | MULTIPLE_DEVICES => CRITICAL
  | _ => MEDIUM
  end.

(** [getSuspiciousDescription(reason, record)] *)
Definition getSuspiciousDescription (js : JSRuntime) (reason : ReasonCode)
    (record : IPDR) : string :=
  match reason with
  | HIGH_NIGHT_ACTIVITY =>
      "High frequency communications during night hours ("
      ++ string_of_Z (getHours js (startTime record)) ++ ":00)"
  | UNUSUAL_DATA_VOLUME =>
      "Unusual data volume: " ++ string_of_Z (totalVolume record) ++ " bytes"
  | SHORT_DURATION_FREQUENT =>
      "Short duration session: " ++ string_of_Z (duration record) ++ "ms"
  | MULTIPLE_DEVICES =>
      "Multiple device usage detected for " ++ phoneNumber record
  | _ => "Suspicious pattern detected"
  end.

(** The two collections the ingestion path writes. *)
Record Store : Type := {
  ipdrs : list IPDR;
  activities : list SuspiciousActivity
}.

(** The identifier of a document built while the collection holds [docs].
    An ObjectId is fresh; the model takes one more than the largest
    identifier of the collection (the bulk upload, which builds documents
    before earlier ones are written, adds the number of rows already
    emitted). *)
Definition freshId (docs : list IPDR) : nat :=
  S (list_max (map _id docs)).

(** The document built in the body of the loop of
    [createSuspiciousActivity]. *)
Definition activityFor (js : JSRuntime) (now : Z) (record : IPDR)
    (reason : ReasonCode) : SuspiciousActivity :=
  newSuspiciousActivity now
    {| i_type := reason;
       i_severity := Some (getSeverity reason);
       i_confidence := Some ruleConfidence;
       i_phoneNumber := phoneNumber record;
       i_imei := imei record;
       i_imsi := imsi record;
       i_description := getSuspiciousDescription js reason record;
       i_ipdrRecords := [_id record];
       i_detectedAt := None;
       i_firstOccurrence := startTime record;
       i_lastOccurrence := endTime record;
       i_status := None;
       i_riskScore := None |}.

(** [createSuspiciousActivity(record)]: one [activity.save()] per element
    of [record.suspiciousReasons], in order.  Every document built here
    passes the schema validators, so the write is an append; store outages
    are outside the model. *)
Definition createSuspiciousActivity (js : JSRuntime) (now : Z) (record : IPDR)
    (acts : list SuspiciousActivity) : list SuspiciousActivity :=
  fold_left
    (fun acts reason => (acts ++ [activityFor js now record reason])%list)
    (suspiciousReasons record) acts.

(** The part of [addRecord] after request validation: build, save, and on
    a suspicious record create the anomaly events.  [inl] is the 500
    answer of the [catch], [inr] the created record of the 201 answer. *)
Definition addRecord (js : JSRuntime) (now : Z) (body : RecordData)
    (st : Store) : Store * (list string + IPDR) :=
  match newIPDR (freshId (ipdrs st)) now body with
  | inl e => (st, inl e)
  | inr record =>
      match save js now record with
      | inl e => (st, inl e)
      | inr record =>
          let acts :=
            if suspicious record
            then createSuspiciousActivity js now record (activities st)
            else activities st in
          ({| ipdrs := ipdrs st ++ [record]; activities := acts |},
           inr record)
      end
  end.

(* ================================================================= *)
(** * controllers/ipdr.controller.js: bulk upload *)

(** A parsed CSV row ([headers: true]): one string per column. *)
Record CsvRow : Type := {
  c_privateIP : string;
  c_privatePort : string;
  c_publicIP : string;
  c_publicPort : string;
  c_destIP : string;
  c_destPort : string;
  c_phoneNumber : string;
  c_imei : string;
  c_imsi : string;
  c_startTime : string;
  c_endTime : string;
  c_originCellID : string;
  c_originLat : string;
  c_originLong : string;
  c_uplinkVolume : string;
  c_downlinkVolume : string;
  c_accessType : string
}.

(** [const recordData = { ... }]: the CSV headers mapped to model fields. *)
Definition mapRow (js : JSRuntime) (userId : string) (row : CsvRow)
  : RecordData :=
  {| d_privateIP := c_privateIP row;
     d_privatePort := parseInt js (c_privatePort row);
     d_publicIP := c_publicIP row;
     d_publicPort := parseInt js (c_publicPort row);
     d_destIP := c_destIP row;
     d_destPort := parseInt js (c_destPort row);
     d_phoneNumber := c_phoneNumber row;
     d_imei := c_imei row;
     d_imsi := c_imsi row;
     d_startTime := Date_parse js (c_startTime row);
     d_endTime := Date_parse js (c_endTime row);
     d_originCellID := c_originCellID row;
     d_originLat := parseFloat js (c_originLat row);
     d_originLong := parseFloat js (c_originLong row);
     d_uplinkVolume := parseInt js (c_uplinkVolume row);
     d_downlinkVolume := parseInt js (c_downlinkVolume row);
     d_accessType := c_accessType row;
     d_createdBy := userId |}.

(** An element of [errors]. *)
Record ErrorEntry : Type := {
  e_row : nat;
  e_error : list string;
  e_data : CsvRow
}.

(** The [summary] of the response. *)
Record Summary : Type := {
  s_processed : nat;
  s_created : nat;
  s_errors : nat;
  s_errorDetails : list ErrorEntry
}.

(** A ['data'] handler suspended at [await record.save()]: the row it was
    called with and the document it built. *)
Record Suspended : Type := {
  h_row : CsvRow;
  h_record : list string + IPDR
}.

(** The state shared by the handlers of one upload: the closure variables
    [processed], [created], [errors]; the handlers waiting for their
    [save]; the rows the stream has yet to emit; the collections; and the
    response once sent.  A handler is named by the position (from 1) of
    its row in the file. *)
Record Upload : Type := {
  processed : nat;
  created : nat;
  errors : list ErrorEntry;
  pending : list (nat * Suspended);
  source : list CsvRow;
  emitted : nat;
  store : Store;
  response : option Summary
}.

(** The jobs of the event loop.  The stream calls the ['data'] listener
    once per row and does not wait for the promise it returns, so the
    part of a handler after its [await] is a job of its own, run when the
    row's [save] settles. *)
Inductive Job : Type :=
| OnData
| Resume (k : nat)
| OnEnd.

Definition startUpload (rows : list CsvRow) (st : Store) : Upload :=
  {| processed := 0; created := 0; errors := []; pending := [];
     source := rows; emitted := 0; store := st; response := None |}.

(** The listener up to [await record.save()]. *)
Definition onData (js : JSRuntime) (userId : string) (now : Z) (u : Upload)
  : option Upload :=
  match source u with
  | [] => None
  | row :: rest =>
      let k := S (emitted u) in
      let recordData := mapRow js userId row in
      let record :=
        newIPDR (freshId (ipdrs (store u)) + emitted u) now recordData in
      Some {| processed := S (processed u);
              created := created u;
              errors := errors u;
              pending :=
                (pending u
                 ++ [(k, {| h_row := row; h_record := record |})])%list;
              source := rest;
              emitted := k;
              store := store u;
              response := response u |}
  end.

Fixpoint takeHandler (k : nat) (l : list (nat * Suspended))
  : option (Suspended * list (nat * Suspended)) :=
  match l with
  | [] => None
  | (k', h) :: l' =>
      if Nat.eqb k k' then Some (h, l')
      else match takeHandler k l' with
           | Some (h', rest) => Some (h', (k', h) :: rest)
           | None => None
           end
  end.

(** How the [record.save()] a handler waits for settles: rejected with a
    cast or validation error, or fulfilled with the document written. *)
Definition settle (js : JSRuntime) (now : Z) (h : Suspended)
  : list string + IPDR :=
  match h_record h with
  | inl e => inl e
  | inr record => save js now record
  end.

(** The listener from the settlement of [record.save()] on: [created++]
    and the anomaly events, or the [catch] with its [errors.push]. *)
Definition resume (js : JSRuntime) (now : Z) (k : nat) (u : Upload)
  : option Upload :=
  match takeHandler k (pending u) with
  | None => None
  | Some (h, rest) =>
      match settle js now h with
      | inr record =>
          let acts :=
            if suspicious record
            then createSuspiciousActivity js now record
                   (activities (store u))
            else activities (store u) in
          Some {| processed := processed u;
                  created := S (created u);
                  errors := errors u;
                  pending := rest;
                  source := source u;
                  emitted := emitted u;
                  store := {| ipdrs := (ipdrs (store u) ++ [record])%list;
                              activities := acts |};
                  response := response u |}
      | inl e =>
          Some {| processed := processed u;
                  created := created u;
                  errors :=
                    (errors u
                     ++ [{| e_row := processed u;
                            e_error := e;
                            e_data := h_row h |}])%list;
                  pending := rest;
                  source := source u;
                  emitted := emitted u;
                  store := store u;
                  response := response u |}
      end
  end.

(** The ['end'] listener: the response with the counters as they are. *)
Definition onEnd (u : Upload) : option Upload :=
  match source u, response u with
  | [], None =>
      Some {| processed := processed u;
              created := created u;
              errors := errors u;
              pending := pending u;
              source := source u;
              emitted := emitted u;
              store := store u;
              response :=
                Some {| s_processed := processed u;
                        s_created := created u;
                        s_errors := List.length (errors u);
                        s_errorDetails := firstn 10 (errors u) |} |}
  | _, _ => None
  end.

Definition step (js : JSRuntime) (userId : string) (now : Z) (j : Job)
    (u : Upload) : option Upload :=
  match j with
  | OnData => onData js userId now u
  | Resume k => resume js now k u
  | OnEnd => onEnd u
  end.

(** A run of the event loop: [None] when a job is not enabled (no row
    left to emit, no such handler waiting, rows still to come at
    ['end']). *)
Fixpoint run (js : JSRuntime) (userId : string) (now : Z) (jobs : list Job)
    (u : Upload) : option Upload :=
  match jobs with
  | [] => Some u
  | j :: jobs' =>
      match step js userId now j u with
      | Some u' => run js userId now jobs' u'
      | None => None
      end
  end.

(** [uploadRecords] on a file whose rows are [rows], under the schedule
    [jobs]: the summary sent at ['end'], the final state of the closure
    and the collections. *)
Definition uploadRecords (js : JSRuntime) (userId : string) (now : Z)
    (rows : list CsvRow) (st : Store) (jobs : list Job) : option Upload :=
  run js userId now jobs (startUpload rows st).

(** Three schedules of the event loop for a file of [n] rows.
    - [oneByOne]: the [save] of a row settles before the stream emits the
      next row.
    - [burst]: the stream emits all the rows before any [save] settles
      (the rows of one chunk of the file are emitted in one synchronous
      job, and the code after an [await] only runs in a later job); the
      saves then settle in order, and ['end'] comes last.
    - [earlyEnd]: as [burst], with ['end'] before the saves settle. *)
Definition oneByOne (n : nat) : list Job :=
  (flat_map (fun k => [OnData; Resume k]) (seq 1 n) ++ [OnEnd])%list.

Definition burst (n : nat) : list Job :=
  (repeat OnData n ++ map Resume (seq 1 n) ++ [OnEnd])%list.

Definition earlyEnd (n : nat) : list Job :=
  (repeat OnData n ++ [OnEnd] ++ map Resume (seq 1 n))%list.

(** What an observer sees of an upload: the summary sent (processed,
    created, errors, and the [row] of each entry of [errorDetails]), then
    the [created] counter, the [row] of each entry of [errors] and the
    number of documents stored once the run is over. *)
Definition uploadReport (u : option Upload)
  : option (option (nat * nat * nat * list nat) * nat * list nat * nat) :=
  option_map
    (fun u =>
       (option_map
          (fun s => (s_processed s, s_created s, s_errors s,
                     map e_row (s_errorDetails s)))
          (response u),
        created u,
        map e_row (errors u),
        List.length (ipdrs (store u))))
    u.

(** What becomes of a row on its own: the error its [save] is rejected
    with, or the document written (here with identifier [id]). *)
Definition rowOutcome (js : JSRuntime) (userId : string) (now : Z) (id : nat)
    (row : CsvRow) : list string + IPDR :=
  settle js now
    {| h_row := row; h_record := newIPDR id now (mapRow js userId row) |}.

Definition rowFails (js : JSRuntime) (userId : string) (now : Z)
    (row : CsvRow) : bool :=
  match rowOutcome js userId now 0 row with
  | inl _ => true
  | inr _ => false
  end.

(** The failure entries of the rows of a file that are rejected, each
    carrying [label k] where [k] is the position of its row, for the rows
    at positions [first], [first + 1], ... *)
Fixpoint failureEntries (js : JSRuntime) (userId : string) (now : Z)
    (label : nat -> nat) (first : nat) (rows : list CsvRow)
  : list ErrorEntry :=
  match rows with
  | [] => []
  | row :: rest =>
      match rowOutcome js userId now 0 row with
      | inl e =>
          {| e_row := label first; e_error := e; e_data := row |}
          :: failureEntries js userId now label (S first) rest
      | inr _ => failureEntries js userId now label (S first) rest
      end
  end.

(** The number of rows of a file that are written. *)
Definition okCount (js : JSRuntime) (userId : string) (now : Z)
    (rows : list CsvRow) : nat :=
  List.length (filter (fun row => negb (rowFails js userId now row)) rows).

(** The handlers waiting after the rows [rows], at positions [e + 1],
    [e + 2], ..., have been emitted. *)
Fixpoint handlersOf (js : JSRuntime) (userId : string) (now : Z)
    (base e : nat) (rows : list CsvRow) : list (nat * Suspended) :=
  match rows with
  | [] => []
  | row :: rest =>
      (S e, {| h_row := row;
               h_record := newIPDR (base + e) now (mapRow js userId row) |})
      :: handlersOf js userId now base (S e) rest
  end.

(** What every state of an upload of [n] rows satisfies: the counter
    [processed] is the number of rows emitted; the rows emitted and the
    rows to come are the [n] rows of the file; every row emitted has been
    written, or rejected, or waits for its save; and a summary that was
    sent counts [n] rows. *)
Definition uploadInvariant (n : nat) (u : Upload) : Prop :=
  processed u = emitted u
  /\ (emitted u + List.length (source u) = n)%nat
  /\ (created u + List.length (errors u) + List.length (pending u)
      = emitted u)%nat
  /\ (forall s, response u = Some s -> s_processed s = n).

(* ================================================================= *)
(** * MongoDB: the query operators the analytics controller uses *)

Section Stages.
Context {A K : Type}.

(** The distinct values of a list, by first occurrence: [$addToSet],
    [distinct] and the keys of a [$group]. *)
Fixpoint distinctBy (eqb : K -> K -> bool) (l : list K) : list K :=
  match l with
  | [] => []
  | x :: l' => x :: filter (fun y => negb (eqb x y)) (distinctBy eqb l')
  end.

(** [$group] with [_id: key]: each distinct key with the documents that
    carry it; the accumulators are computed from that list. *)
Definition groupBy (eqb : K -> K -> bool) (key : A -> K) (docs : list A)
  : list (K * list A) :=
  map (fun k => (k, filter (fun d => eqb (key d) k) docs))
      (distinctBy eqb (map key docs)).

Fixpoint insertBy (leb : A -> A -> bool) (x : A) (l : list A) : list A :=
  match l with
  | [] => [x]
  | y :: l' => if leb x y then x :: l else y :: insertBy leb x l'
  end.

(** [$sort]: [leb a b] says that [a] may stand before [b].  Documents the
    sort keys do not tell apart keep their input order. *)
Fixpoint sortBy (leb : A -> A -> bool) (l : list A) : list A :=
  match l with
  | [] => []
  | x :: l' => insertBy leb x (sortBy leb l')
  end.
End Stages.

(** A value handed to a pipeline stage by the controller. *)
Inductive JSValue : Type :=
| JNumber (n : Z)
| JString (s : string).

(** [$limit]: the server rejects the pipeline unless the argument is a
    positive number. *)
Definition limitStage {A : Type} (v : JSValue) (docs : list A)
  : option (list A) :=
  match v with
  | JNumber n => if 0 <? n then Some (firstn (Z.to_nat n) docs) else None
  | JString _ => None
  end.

Definition sumZ (l : list Z) : Z := fold_left Z.add l 0.

(** [$min] and [$max] over the values of a group (never empty). *)
Definition minZ (l : list Z) : Z :=
  match l with
  | [] => 0
  | x :: l' => fold_left Z.min l' x
  end.

Definition maxZ (l : list Z) : Z :=
  match l with
  | [] => 0
  | x :: l' => fold_left Z.max l' x
  end.

(** [{ $sum: { $cond: ['$suspicious', 1, 0] } }] *)
Definition countSuspicious (docs : list IPDR) : nat :=
  List.length (filter suspicious docs).

(** Days since the epoch to the proleptic Gregorian (year, month, day). *)
Definition civilFromDays (days : Z) : Z * Z * Z :=
  let z := days + 719468 in
  let era := z / 146097 in
  let doe := z - era * 146097 in
  let yoe := (doe - doe / 1460 + doe / 36524 - doe / 146096) / 365 in
  let doy := doe - (365 * yoe + yoe / 4 - yoe / 100) in
  let mp := (5 * doy + 2) / 153 in
  let d := doy - (153 * mp + 2) / 5 + 1 in
  let m := if mp <? 10 then mp + 3 else mp - 9 in
  let y := yoe + era * 400 + (if m <=? 2 then 1 else 0) in
  (y, m, d).

(** The inverse: (year, month, day) to days since the epoch. *)
Definition daysFromCivil (y m d : Z) : Z :=
  let y := if m <=? 2 then y - 1 else y in
  let era := y / 400 in
  let yoe := y - era * 400 in
  let doy := (153 * (if 2 <? m then m - 3 else m + 9) + 2) / 5 + d - 1 in
  let doe := yoe * 365 + yoe / 4 - yoe / 100 + doy in
  era * 146097 + doe - 719468.

(** [$year], [$month], [$dayOfMonth], [$hour] and [$week] of a date, in
    UTC.  [$week] counts from 0, weeks begin on Sunday and week 1 begins
    with the first Sunday of the year. *)
Definition dateYear (t : Z) : Z := fst (fst (civilFromDays (t / msPerDay))).
Definition dateMonth (t : Z) : Z := snd (fst (civilFromDays (t / msPerDay))).
Definition dateDayOfMonth (t : Z) : Z := snd (civilFromDays (t / msPerDay)).
Definition dateHour (t : Z) : Z := (t / msPerHour) mod 24.
Definition dateWeek (t : Z) : Z :=
  let days := t / msPerDay in
  let yday := days - daysFromCivil (dateYear t) 1 1 in
  let wday := (days + 4) mod 7 in
  (yday + 7 - wday) / 7.

(** Order on [_id] documents of one shape: field by field. *)
Fixpoint lexLeb (a b : list Z) : bool :=
  match a, b with
  | [], _ => true
  | _ :: _, [] => false
  | x :: a', y :: b' => (x <? y) || ((x =? y) && lexLeb a' b')
  end.

Fixpoint listZ_eqb (a b : list Z) : bool :=
  match a, b with
  | [], [] => true
  | x :: a', y :: b' => (x =? y) && listZ_eqb a' b'
  | _, _ => false
  end.

(* ================================================================= *)
(** * The analytics controller *)

(** The one path of an Investigation the dashboard reads. *)
Record Investigation : Type := {
  inv_status : string
}.

(** An element of [recentActivity]. *)
Record RecentItem : Type := {
  ra_phoneNumber : string;
  ra_timestamp : Z;
  ra_accessType : string;
  ra_suspicious : bool
}.

(** The [stats] object of [getDashboardStats]. *)
Record DashboardStats : Type := {
  totalRecords : nat;
  uniquePhoneNumbers : nat;
  uniqueIPs : nat;
  totalDataVolume : string;
  suspiciousActivities : nat;
  activeInvestigations : nat;
  accessTypeBreakdown : list (string * nat);
  recentActivity : list RecentItem;
  dateRange : string
}.

(** [Number.prototype.toFixed(2)] of a non-negative [Number]: the nearest
    multiple of 1/100 to the value of the double, the larger one on a
    tie. *)
Definition toFixed2 (q : Q) : string :=
  let n := Qfloor (q * (100 # 1) + (1 # 2))%Q in
  let frac := n mod 100 in
  string_of_Z (n / 100) ++ "."
  ++ (if frac <? 10 then "0" else "") ++ string_of_Z frac.

(** [formatDataVolume]; each quotient is a double. *)
Definition formatDataVolume (bytes : Z) : string :=
  if bytes >? 1000000000
  then toFixed2 (numDiv (inject_Z bytes) (1000000000 # 1)) ++ " GB"
  else if bytes >? 1000000
  then toFixed2 (numDiv (inject_Z bytes) (1000000 # 1)) ++ " MB"
  else if bytes >? 1000
  then toFixed2 (numDiv (inject_Z bytes) (1000 # 1)) ++ " KB"
  else string_of_Z bytes ++ " B".

(** [acc[key] = value] on an object whose keys are kept in insertion
    order. *)
Fixpoint setKey {V : Type} (key : string) (value : V)
    (acc : list (string * V)) : list (string * V) :=
  match acc with
  | [] => [(key, value)]
  | (k, v) :: acc' =>
      if (k =? key)%string then (k, value) :: acc'
      else (k, v) :: setKey key value acc'
  end.

(** The output of the [$group] with [_id: null] that collects the three
    address sets: one document if any record matches, none otherwise. *)
Definition groupAddressSets (docs : list IPDR)
  : list (list string * list string * list string) :=
  match docs with
  | [] => []
  | _ =>
      [(distinctBy String.eqb (map privateIP docs),
        distinctBy String.eqb (map publicIP docs),
        distinctBy String.eqb (map destIP docs))]
  end.

(** The output of the [$group] with [_id: null] that sums [totalVolume]. *)
Definition groupTotalVolume (docs : list IPDR) : list Z :=
  match docs with
  | [] => []
  | _ => [sumZ (map totalVolume docs)]
  end.

(** [getDashboardStats]; [q_dateRange] is [req.query.dateRange], a numeric
    string that the subtraction in [setDate] converts to its number. *)
Definition getDashboardStats (now : Z) (q_dateRange : option Z)
    (db : list IPDR) (acts : list SuspiciousActivity)
    (invs : list Investigation) : DashboardStats :=
  let dateRange := orDefault q_dateRange 30 in
  let startDate := windowStart now dateRange in
  let matched := filter (fun r => startDate <=? createdAt r) db in
  let totalRecords := List.length matched in
  let uniquePhoneNumbers := distinctBy String.eqb (map phoneNumber matched) in
  let uniqueIPs := groupAddressSets matched in
  let totalDataVolume := groupTotalVolume matched in
  let suspiciousActivities :=
    List.length
      (filter (fun a => (startDate <=? sa_detectedAt a)
                        && negb (Status_eqb (sa_status a) RESOLVED)) acts) in
  let activeInvestigations :=
    List.length
      (filter (fun i => ((inv_status i =? "OPEN")
                         || (inv_status i =? "ACTIVE"))%string) invs) in
  let accessTypeBreakdown :=
    map (fun g => (fst g, List.length (snd g)))
        (groupBy String.eqb accessType matched) in
  let recentActivity :=
    firstn 10 (sortBy (fun a b => createdAt b <=? createdAt a) matched) in
  let allIPs :=
    match uniqueIPs with
    | (privateIPs, publicIPs, destIPs) :: _ =>
        distinctBy String.eqb (privateIPs ++ publicIPs ++ destIPs)%list
    | [] => []
    end in
  {| totalRecords := totalRecords;
     uniquePhoneNumbers := List.length uniquePhoneNumbers;
     uniqueIPs := List.length allIPs;
     totalDataVolume :=
       formatDataVolume
         (match totalDataVolume with total :: _ => total | [] => 0 end);
     suspiciousActivities := suspiciousActivities;
     activeInvestigations := activeInvestigations;
     accessTypeBreakdown :=
       fold_left (fun acc item => setKey (fst item) (snd item) acc)
                 accessTypeBreakdown [];
     recentActivity :=
       map (fun record =>
              {| ra_phoneNumber := phoneNumber record;
                 ra_timestamp := startTime record;
                 ra_accessType := accessType record;
                 ra_suspicious := suspicious record |})
           recentActivity;
     dateRange := string_of_Z dateRange ++ " days" |}.

(** A bucket of [getActivityTrends]; [tb_id] holds the values of the
    fields of [_id] in the order of [groupBy]. *)
Record TrendBucket : Type := {
  tb_id : list Z;
  tb_count : nat;
  tb_dataVolume : Z;
  tb_suspiciousCount : nat
}.

(** The [switch (period)] that chooses [groupBy]. *)
Definition trendKey (period : string) (t : Z) : list Z :=
  if (period =? "hourly")%string
  then [dateYear t; dateMonth t; dateDayOfMonth t; dateHour t]
  else if (period =? "daily")%string
  then [dateYear t; dateMonth t; dateDayOfMonth t]
  else if (period =? "weekly")%string
  then [dateYear t; dateWeek t]
  else [dateYear t; dateMonth t].

(** [getActivityTrends]; [q_period] and [q_days] are the query
    parameters, [q_days] through the conversion of the subtraction. *)
Definition getActivityTrends (now : Z) (q_period : option string)
    (q_days : option Z) (db : list IPDR) : list TrendBucket :=
  let period := orDefault q_period "daily" in
  let days := orDefault q_days 30 in
  let startDate := windowStart now days in
  let matched := filter (fun r => startDate <=? startTime r) db in
  let grouped :=
    map (fun g =>
           {| tb_id := fst g;
              tb_count := List.length (snd g);
              tb_dataVolume := sumZ (map totalVolume (snd g));
              tb_suspiciousCount := countSuspicious (snd g) |})
        (groupBy listZ_eqb (fun r => trendKey period (startTime r)) matched) in
  sortBy (fun a b => lexLeb (tb_id a) (tb_id b)) grouped.

(** A row of [getTopCommunicators]. *)
Record Communicator : Type := {
  tc_phoneNumber : string;
  tc_totalSessions : nat;
  tc_totalDataVolume : Z;
  tc_suspiciousCount : nat;
  tc_uniqueDestinations : nat;
  tc_accessTypes : list string;
  tc_firstSeen : Z;
  tc_lastSeen : Z;
  tc_riskScore : Q
}.

(** [parseInt(req.query.x) || dflt] *)
Definition parseIntOr (js : JSRuntime) (q : option string) (dflt : Z) : Z :=
  match q with
  | Some s =>
      match parseInt js s with
      | Some n => if n =? 0 then dflt else n
      | None => dflt
      end
  | None => dflt
  end.

Definition Qnat (n : nat) : Q := inject_Z (Z.of_nat n).

(** [{ $sort: { riskScore: -1, totalSessions: -1 } }] *)
Definition communicatorLeb (a b : Communicator) : bool :=
  match (tc_riskScore a ?= tc_riskScore b)%Q with
  | Gt => true
  | Lt => false
  | Eq => (tc_totalSessions b <=? tc_totalSessions a)%nat
  end.

(** The [$group] and [$project] stages of [getTopCommunicators] on one
    group.  The product of the suspicious count and 10 is an integer; the
    quotient and the sum are doubles. *)
Definition communicatorOf (g : string * list IPDR) : Communicator :=
  let totalSessions := List.length (snd g) in
  let suspiciousCount := countSuspicious (snd g) in
  {| tc_phoneNumber := fst g;
     tc_totalSessions := totalSessions;
     tc_totalDataVolume := sumZ (map totalVolume (snd g));
     tc_suspiciousCount := suspiciousCount;
     tc_uniqueDestinations :=
       List.length (distinctBy String.eqb (map destIP (snd g)));
     tc_accessTypes := distinctBy String.eqb (map accessType (snd g));
     tc_firstSeen := minZ (map startTime (snd g));
     tc_lastSeen := maxZ (map startTime (snd g));
     tc_riskScore :=
       numAdd (Qnat (suspiciousCount * 10))
              (numDiv (Qnat totalSessions) (100 # 1)) |}.

(** [getTopCommunicators]: [None] is the 500 answer of the [catch]. *)
Definition getTopCommunicators (js : JSRuntime) (now : Z)
    (q_limit q_days : option string) (db : list IPDR)
  : option (list Communicator) :=
  let limit := parseIntOr js q_limit 10 in
  let days := parseIntOr js q_days 30 in
  let startDate := windowStart now days in
  let matched := filter (fun r => startDate <=? startTime r) db in
  let projected :=
    map communicatorOf (groupBy String.eqb phoneNumber matched) in
  limitStage (JNumber limit) (sortBy communicatorLeb projected).

Module Strength.
Inductive t : Type := LOW | MEDIUM | HIGH.
End Strength.

(** An element of [relationships]. *)
Record Relationship : Type := {
  aParty : string;
  rel_destIP : string;
  bParties : list string;
  frequency : nat;
  totalDuration : Z;
  dataExchanged : Z;
  firstContact : Z;
  lastContact : Z;
  strength : Strength.t;
  rel_suspicious : bool
}.

(** [conn.frequency > 10 ? 'HIGH' : conn.frequency > 5 ? 'MEDIUM' : 'LOW'] *)
Definition strengthOf (frequency : nat) : Strength.t :=
  if (10 <? frequency)%nat then Strength.HIGH
  else if (5 <? frequency)%nat then Strength.MEDIUM
  else Strength.LOW.

(** A document that leaves the [$group] stage of
    [getNetworkRelationships]. *)
Record Connection : Type := {
  conn_id : string;
  conn_frequency : nat;
  conn_totalDuration : Z;
  conn_totalDataExchange : Z;
  conn_firstContact : Z;
  conn_lastContact : Z;
  conn_suspicious : bool
}.

Definition connectionOf (g : string * list IPDR) : Connection :=
  {| conn_id := fst g;
     conn_frequency := List.length (snd g);
     conn_totalDuration := sumZ (map duration (snd g));
     conn_totalDataExchange := sumZ (map totalVolume (snd g));
     conn_firstContact := minZ (map startTime (snd g));
     conn_lastContact := maxZ (map startTime (snd g));
     conn_suspicious := existsb suspicious (snd g) |}.

(** The direct connections: [$match], [$group], [$sort], [$limit]. *)
Definition connections (phoneNumber' : string) (limit : JSValue)
    (db : list IPDR) : option (list Connection) :=
  let matched := filter (fun r => (phoneNumber r =? phoneNumber')%string) db in
  let grouped := map connectionOf (groupBy String.eqb destIP matched) in
  limitStage limit
    (sortBy (fun a b => (conn_frequency b <=? conn_frequency a)%nat) grouped).

(** The body of the [for (const conn of connections)] loop. *)
Definition relationshipOf (phoneNumber' : string) (db : list IPDR)
    (conn : Connection) : Relationship :=
  let relatedPhones :=
    distinctBy String.eqb
      (map phoneNumber
         (filter (fun r => ((destIP r =? conn_id conn)
                            && negb (phoneNumber r =? phoneNumber'))%string)
                 db)) in
  {| aParty := phoneNumber';
     rel_destIP := conn_id conn;
     bParties := firstn 5 relatedPhones;
     frequency := conn_frequency conn;
     totalDuration := conn_totalDuration conn;
     dataExchanged := conn_totalDataExchange conn;
     firstContact := conn_firstContact conn;
     lastContact := conn_lastContact conn;
     strength := strengthOf (conn_frequency conn);
     rel_suspicious := conn_suspicious conn |}.

Inductive Reply (A : Type) : Type :=
| Ok (data : A)
| BadRequest
| ServerError.

Arguments Ok {A} data.
Arguments BadRequest {A}.
Arguments ServerError {A}.

(** [getNetworkRelationships]; [q_phoneNumber] and [q_limit] are the query
    parameters, strings when present. *)
Definition getNetworkRelationships (q_phoneNumber q_limit : option string)
    (db : list IPDR) : Reply (list Relationship) :=
  let limit :=
    match q_limit with
    | Some s => JString s
    | None => JNumber 50
    end in
  match q_phoneNumber with
  | None => BadRequest
  | Some phoneNumber' =>
      if (phoneNumber' =? "")%string then BadRequest
      else
        match connections phoneNumber' limit db with
        | Some conns => Ok (map (relationshipOf phoneNumber' db) conns)
        | None => ServerError
        end
  end.

(* ================================================================= *)
(** * models/ipdr.model.js: the virtual *)



(* ================================================================= *)
(** * models/suspicious.model.js: age, resolution, risk level *)

Definition set_status (a : SuspiciousActivity) (s : Status)
  : SuspiciousActivity :=
  {| sa_type := sa_type a;
     sa_severity := sa_severity a;
     sa_confidence := sa_confidence a;
     sa_phoneNumber := sa_phoneNumber a;
     sa_imei := sa_imei a;
     sa_imsi := sa_imsi a;
     sa_description := sa_description a;
     sa_ipdrRecords := sa_ipdrRecords a;
     sa_detectedAt := sa_detectedAt a;
     sa_firstOccurrence := sa_firstOccurrence a;
     sa_lastOccurrence := sa_lastOccurrence a;
     sa_status := s;
     sa_riskScore := sa_riskScore a;
     sa_automaticDetection := sa_automaticDetection a |}.

(** An anomaly document together with the paths its resolution fills
    in. *)
Record CaseFile : Type := {
  cf_activity : SuspiciousActivity;
  cf_resolvedAt : option Z;
  cf_resolvedBy : option string;
  cf_resolution : option string
}.

(** The virtual [ageInHours]:
    [Math.floor((Date.now() - this.detectedAt) / (1000 * 60 * 60))]. *)
Definition ageInHours (now : Z) (a : SuspiciousActivity) : Z :=
  (now - sa_detectedAt a) / msPerHour.

(** [SuspiciousActivitySchema.methods.resolve] *)
Definition resolve (now : Z) (resolution userId : string) (c : CaseFile)
  : CaseFile :=
  {| cf_activity := set_status (cf_activity c) RESOLVED;
     cf_resolvedAt := Some now;
     cf_resolvedBy := Some userId;
     cf_resolution := Some resolution |}.

(** [{ riskScore: -1, detectedAt: -1 }] *)
Definition riskLevelLeb (a b : SuspiciousActivity) : bool :=
  match (sa_riskScore a ?= sa_riskScore b)%Q with
  | Gt => true
  | Lt => false
  | Eq => sa_detectedAt b <=? sa_detectedAt a
  end.

(** [SuspiciousActivitySchema.statics.findByRiskLevel]; [minRisk] is the
    argument, 50 when absent. *)
Definition findByRiskLevel (minRisk : option Q)
    (acts : list SuspiciousActivity) : list SuspiciousActivity :=
  let minRisk := orDefault minRisk (50 # 1)%Q in
  sortBy riskLevelLeb
    (filter (fun a => Qle_bool minRisk (sa_riskScore a)
                      && negb (Status_eqb (sa_status a) RESOLVED))
            acts).

(* ================================================================= *)
(** * controllers/ipdr.controller.js: listing and search *)

(** [Math.ceil(a / b)] for integers [a] and [b], [b] not zero. *)
Definition ceilDiv (a b : Z) : Z := - ((- a) / b).

(** The query string of [getAllRecords]. *)
Record RecordsQuery : Type := {
  rq_page : option string;
  rq_limit : option string;
  rq_phoneNumber : option string;
  rq_accessType : option string;
  rq_suspicious : option string;
  rq_startDate : option string;
  rq_endDate : option string
}.

(** A string of the query that is present and not empty. *)
Definition truthy (q : option string) : bool :=
  match q with
  | Some s => nonEmpty s
  | None => false
  end.

(** The [filter] object of [getAllRecords] as a predicate on documents;
    [None] when building it throws or the query rejects it: a pattern that
    is not a regular expression, a date that is invalid.  [regExp p]
    stands for [new RegExp(p, 'i')]: [None] when the constructor throws,
    and otherwise the [test] of the expression. *)
Definition recordsFilter (js : JSRuntime)
    (regExp : string -> option (string -> bool)) (q : RecordsQuery)
  : option (IPDR -> bool) :=
  let byPhone : option (IPDR -> bool) :=
    if truthy (rq_phoneNumber q)
    then
      match regExp (orDefault (rq_phoneNumber q) "") with
      | Some test => Some (fun r => test (phoneNumber r))
      | None => None
      end
    else Some (fun _ => true) in
  let byAccess (r : IPDR) :=
    if truthy (rq_accessType q)
    then (accessType r =? orDefault (rq_accessType q) "")%string
    else true in
  let bySuspicious (r : IPDR) :=
    match rq_suspicious q with
    | Some s => Bool.eqb (suspicious r) (s =? "true")%string
    | None => true
    end in
  match byPhone with
  | None => None
  | Some byPhone =>
      if truthy (rq_startDate q) && truthy (rq_endDate q)
      then
        match Date_parse js (orDefault (rq_startDate q) ""),
              Date_parse js (orDefault (rq_endDate q) "") with
        | Some from, Some to =>
            Some (fun r => byPhone r && byAccess r && bySuspicious r
                           && (from <=? startTime r) && (startTime r <=? to))
        | _, _ => None
        end
      else Some (fun r => byPhone r && byAccess r && bySuspicious r)
  end.

(** The [pagination] object. *)
Record Pagination : Type := {
  pg_current : Z;
  pg_pages : Z;
  pg_total : nat;
  pg_limit : Z
}.

(** [{ startTime: -1 }] *)
Definition latestFirst (a b : IPDR) : bool := startTime b <=? startTime a.

(** [getAllRecords].  [cursor skip limit docs] stands for
    [.skip(skip).limit(limit)] on the sorted documents, [None] when the
    store rejects the arguments; [createdBy] is left unpopulated. *)
Definition getAllRecords (js : JSRuntime)
    (regExp : string -> option (string -> bool))
    (cursor : Z -> Z -> list IPDR -> option (list IPDR))
    (q : RecordsQuery) (db : list IPDR)
  : Reply (list IPDR * Pagination) :=
  let page := parseIntOr js (rq_page q) 1 in
  let limit := parseIntOr js (rq_limit q) 50 in
  let skip := (page - 1) * limit in
  match recordsFilter js regExp q with
  | None => ServerError
  | Some filter' =>
      match cursor skip limit (sortBy latestFirst (filter filter' db)) with
      | None => ServerError
      | Some records =>
          let total := List.length (filter filter' db) in
          Ok (records,
              {| pg_current := page;
                 pg_pages := ceilDiv (Z.of_nat total) limit;
                 pg_total := total;
                 pg_limit := limit |})
      end
  end.

(** The body of [advancedSearch]: the nine criteria it takes from the
    body, the bounds of a range as JSON numbers and [suspiciousOnly] as a
    JSON boolean. *)
Record SearchCriteria : Type := {
  sc_phoneNumbers : option (list string);
  sc_ipAddresses : option (list string);
  sc_imeiNumbers : option (list string);
  sc_dateRange : option (option string * option string);
  sc_accessTypes : option (list string);
  sc_locations : option (list string);
  sc_dataVolumeRange : option (option Z * option Z);
  sc_durationRange : option (option Z * option Z);
  sc_suspiciousOnly : bool
}.

(** [list && list.length > 0] *)
Definition given (l : option (list string)) : bool :=
  match l with
  | Some (_ :: _) => true
  | _ => false
  end.

Definition memString (s : string) (l : option (list string)) : bool :=
  existsb (String.eqb s) (orDefault l []).

(** A bound of [dataVolumeRange] that is present and not zero. *)
Definition bound (b : option Z) : option Z :=
  match b with
  | Some 0 => None
  | other => other
  end.

(** The [filter] object of [advancedSearch] as a predicate; [None] when
    the query is rejected: a date that is invalid, or a
    [dataVolumeRange] with no bound, which leaves [filter.totalVolume] an
    empty object that does not cast to a number. [locations] and
    [durationRange] are taken from the body and put no condition in the
    filter. *)
Definition searchFilter (js : JSRuntime) (c : SearchCriteria)
  : option (IPDR -> bool) :=
  let byPhone (r : IPDR) :=
    if given (sc_phoneNumbers c)
    then memString (phoneNumber r) (sc_phoneNumbers c) else true in
  let byIP (r : IPDR) :=
    if given (sc_ipAddresses c)
    then memString (privateIP r) (sc_ipAddresses c)
         || memString (publicIP r) (sc_ipAddresses c)
         || memString (destIP r) (sc_ipAddresses c)
    else true in
  let byImei (r : IPDR) :=
    if given (sc_imeiNumbers c)
    then memString (imei r) (sc_imeiNumbers c) else true in
  let byAccess (r : IPDR) :=
    if given (sc_accessTypes c)
    then memString (accessType r) (sc_accessTypes c) else true in
  let bySuspicious (r : IPDR) :=
    if sc_suspiciousOnly c then suspicious r else true in
  let byDate : option (IPDR -> bool) :=
    match sc_dateRange c with
    | Some (start, stop) =>
        if truthy start && truthy stop
        then
          match Date_parse js (orDefault start ""),
                Date_parse js (orDefault stop "") with
          | Some from, Some to =>
              Some (fun r => (from <=? startTime r) && (startTime r <=? to))
          | _, _ => None
          end
        else Some (fun _ => true)
    | None => Some (fun _ => true)
    end in
  let byVolume : option (IPDR -> bool) :=
    match sc_dataVolumeRange c with
    | Some (lo, hi) =>
        match bound lo, bound hi with
        | None, None => None
        | lo', hi' =>
            Some (fun r =>
                    match lo' with
                    | Some m => m <=? totalVolume r
                    | None => true
                    end
                    && match hi' with
                       | Some m => totalVolume r <=? m
                       | None => true
                       end)
        end
    | None => Some (fun _ => true)
    end in
  match byDate, byVolume with
  | Some inDates, Some inVolume =>
      Some (fun r => byPhone r && byIP r && byImei r && inDates r
                     && byAccess r && inVolume r && bySuspicious r)
  | _, _ => None
  end.

(** [advancedSearch]: the records and their count. *)
Definition advancedSearch (js : JSRuntime) (c : SearchCriteria)
    (db : list IPDR) : Reply (list IPDR * nat) :=
  match searchFilter js c with
  | None => ServerError
  | Some filter' =>
      let records := firstn 1000 (sortBy latestFirst (filter filter' db)) in
      Ok (records, List.length records)
  end.

(** An object used as a map, its own keys in insertion order: the value
    under a key. *)
Fixpoint lookupKey {V : Type} (key : string) (acc : list (string * V))
  : option V :=
  match acc with
  | [] => None
  | (k, v) :: acc' => if (k =? key)%string then Some v else lookupKey key acc'
  end.

(** The names every object inherits from [Object.prototype]. *)
Definition objectPrototypeKeys : list string :=
  ["constructor"; "__defineGetter__"; "__defineSetter__"; "hasOwnProperty";
   "__lookupGetter__"; "__lookupSetter__"; "isPrototypeOf";
   "propertyIsEnumerable"; "toString"; "valueOf"; "__proto__";
   "toLocaleString"].

Definition inherited (key : string) : bool :=
  existsb (String.eqb key) objectPrototypeKeys.

(** The array index a key denotes, if it is one: a decimal numeral with
    no leading zero, below 2^32 - 1. *)
Definition arrayIndex (key : string) : option N :=
  match key with
  | EmptyString => None
  | String c rest =>
      if allDigits key
         && (negb (Ascii.eqb c "0"%char) || (rest =? "")%string)
      then
        match NilEmpty.uint_of_string key with
        | Some u =>
            if (N.of_uint u <? 4294967295)%N then Some (N.of_uint u)
            else None
        | None => None
        end
      else None
  end.

Definition isIndexKey (key : string) : bool :=
  match arrayIndex key with Some _ => true | None => false end.

Definition indexLeb {V : Type} (a b : string * V) : bool :=
  (match arrayIndex (fst a) with Some n => n | None => 0 end
   <=? match arrayIndex (fst b) with Some n => n | None => 0 end)%N.

(** [Object.values]: the values under the array-index keys in ascending
    order, then the others in insertion order. *)
Definition objectValues {V : Type} (acc : list (string * V)) : list V :=
  (map snd (sortBy indexLeb (filter (fun kv => isIndexKey (fst kv)) acc))
   ++ map snd (filter (fun kv => negb (isIndexKey (fst kv))) acc))%list.

(** An element of [points]; a count of [accessTypes] is [None] when the
    value under the key is not a number. *)
Record CellGroup : Type := {
  cellID : string;
  cg_lat : Q;
  cg_lng : Q;
  cg_count : nat;
  cg_suspicious : nat;
  cg_accessTypes : list (string * option nat)
}.

(** [accessTypes[key] = (accessTypes[key] || 0) + 1].  Under an inherited
    name the sum is a string; an assignment to [__proto__] is dropped. *)
Definition bumpAccessType (key : string) (acc : list (string * option nat))
  : list (string * option nat) :=
  if (key =? "__proto__")%string then acc
  else
    match lookupKey key acc with
    | Some (Some n) => setKey key (Some (S n)) acc
    | Some None => setKey key None acc
    | None =>
        if inherited key then setKey key None acc
        else setKey key (Some 1%nat) acc
    end.

(** The callback of [records.forEach]; [None] when it throws, which it
    does when the cell identifier is an inherited name: the lookup then
    finds a value that has no [accessTypes]. *)
Definition addToCell (cellGroups : list (string * CellGroup)) (record : IPDR)
  : option (list (string * CellGroup)) :=
  let id := originCellID record in
  if inherited id then None
  else
    let g :=
      match lookupKey id cellGroups with
      | Some g => g
      | None =>
          {| cellID := id;
             cg_lat := originLat record;
             cg_lng := originLong record;
             cg_count := 0;
             cg_suspicious := 0;
             cg_accessTypes := [] |}
      end in
    Some (setKey id
            {| cellID := cellID g;
               cg_lat := cg_lat g;
               cg_lng := cg_lng g;
               cg_count := S (cg_count g);
               cg_suspicious :=
                 if suspicious record then S (cg_suspicious g)
                 else cg_suspicious g;
               cg_accessTypes :=
                 bumpAccessType (accessType record) (cg_accessTypes g) |}
            cellGroups).

Definition groupCells (records : list IPDR)
  : option (list (string * CellGroup)) :=
  fold_left (fun acc record =>
               match acc with
               | Some cellGroups => addToCell cellGroups record
               | None => None
               end)
            records (Some []).

(** The [filter] object of [getGeographicData] as a predicate; [None]
    when a date of the range is invalid, which the query rejects.  [bounds]
    is ((southwest.lng, southwest.lat), (northeast.lng, northeast.lat));
    [geoWithinBox] stands for the store's [$geoWithin] with a [$box].  A
    [bounds] object that lacks one of its corners is not represented. *)
Definition geographicFilter (js : JSRuntime)
    (geoWithinBox : Q * Q -> Q * Q -> IPDR -> bool)
    (bounds : option ((Q * Q) * (Q * Q)))
    (dateRange : option (option string * option string))
  : option (IPDR -> bool) :=
  let byDate : option (IPDR -> bool) :=
    match dateRange with
    | Some (start, stop) =>
        if truthy start && truthy stop
        then
          match Date_parse js (orDefault start ""),
                Date_parse js (orDefault stop "") with
          | Some from, Some to =>
              Some (fun r => (from <=? startTime r) && (startTime r <=? to))
          | _, _ => None
          end
        else Some (fun _ => true)
    | None => Some (fun _ => true)
    end in
  let byBounds (r : IPDR) :=
    match bounds with
    | Some (southwest, northeast) => geoWithinBox southwest northeast r
    | None => true
    end in
  match byDate with
  | Some inDates => Some (fun r => inDates r && byBounds r)
  | None => None
  end.

(** [getGeographicData]: the points and [totalRecords]. *)
Definition getGeographicData (js : JSRuntime)
    (geoWithinBox : Q * Q -> Q * Q -> IPDR -> bool)
    (bounds : option ((Q * Q) * (Q * Q)))
    (dateRange : option (option string * option string))
    (db : list IPDR) : Reply (list CellGroup * nat) :=
  match geographicFilter js geoWithinBox bounds dateRange with
  | None => ServerError
  | Some filter' =>
      let records := firstn 5000 (filter filter' db) in
      match groupCells records with
      | Some cellGroups => Ok (objectValues cellGroups, List.length records)
      | None => ServerError
      end
  end.

(* ================================================================= *)
(** * The analytics controller: anomaly analytics *)

Definition ReasonCode_eqb (a b : ReasonCode) : bool :=
  match a, b with
  | HIGH_NIGHT_ACTIVITY, HIGH_NIGHT_ACTIVITY
  | UNUSUAL_DATA_VOLUME, UNUSUAL_DATA_VOLUME
  | MULTIPLE_DEVICES, MULTIPLE_DEVICES
  | LOCATION_ANOMALY, LOCATION_ANOMALY
  | SHORT_DURATION_FREQUENT, SHORT_DURATION_FREQUENT
  | FOREIGN_IP_COMMUNICATION, FOREIGN_IP_COMMUNICATION
  | BURST_COMMUNICATION, BURST_COMMUNICATION
  | PATTERN_DEVIATION, PATTERN_DEVIATION
  | ENCRYPTION_DETECTED, ENCRYPTION_DETECTED => true
  | _, _ => false
  end.

Definition Severity_eqb (a b : Severity) : bool :=
  match a, b with
  | LOW, LOW | MEDIUM, MEDIUM | HIGH, HIGH | CRITICAL, CRITICAL => true
  | _, _ => false
  end.

(** The string a severity is stored as. *)
Definition severityName (s : Severity) : string :=
  match s with
  | LOW => "LOW"
  | MEDIUM => "MEDIUM"
  | HIGH => "HIGH"
  | CRITICAL => "CRITICAL"
  end.

(** [{ $max: '$severity' }]: the greatest of the stored strings. *)
Definition maxSeverity (l : list Severity) : Severity :=
  match l with
  | [] => LOW
  | s :: l' =>
      fold_left
        (fun m s => if String.ltb (severityName m) (severityName s)
                    then s else m)
        l' s
  end.

Definition sumQ (l : list Q) : Q := fold_left Qplus l (0 # 1)%Q.

(** [{ $avg: '$riskScore' }] over a group (never empty). *)
Definition avgQ (l : list Q) : Q := (sumQ l / Qnat (List.length l))%Q.

(** A row of [typeBreakdown]. *)
Record TypeCount : Type := {
  ty_id : ReasonCode;
  ty_count : nat;
  ty_avgRiskScore : Q
}.

(** A row of [topTargets]. *)
Record Target : Type := {
  tg_id : string;
  tg_count : nat;
  tg_avgRiskScore : Q;
  tg_types : list ReasonCode;
  tg_maxSeverity : Severity
}.

(** The [data] of [getSuspiciousAnalytics]. *)
Record SuspiciousAnalytics : Type := {
  typeBreakdown : list TypeCount;
  severityBreakdown : list (Severity * nat);
  statusBreakdown : list (Status * nat);
  trendData : list (list Z * nat);
  topTargets : list Target
}.

(** [{ $sort: { count: -1, avgRiskScore: -1 } }] *)
Definition targetLeb (a b : Target) : bool :=
  if (tg_count b <? tg_count a)%nat then true
  else if (tg_count a <? tg_count b)%nat then false
  else match (tg_avgRiskScore a ?= tg_avgRiskScore b)%Q with
       | Lt => false
       | _ => true
       end.

(** [getSuspiciousAnalytics]; [q_days] is [req.query.days]. *)
Definition getSuspiciousAnalytics (js : JSRuntime) (now : Z)
    (q_days : option string) (acts : list SuspiciousActivity)
  : SuspiciousAnalytics :=
  let days := parseIntOr js q_days 30 in
  let startDate := windowStart now days in
  let matched := filter (fun a => startDate <=? sa_detectedAt a) acts in
  {| typeBreakdown :=
       sortBy (fun a b => (ty_count b <=? ty_count a)%nat)
         (map (fun g =>
                 {| ty_id := fst g;
                    ty_count := List.length (snd g);
                    ty_avgRiskScore := avgQ (map sa_riskScore (snd g)) |})
              (groupBy ReasonCode_eqb sa_type matched));
     severityBreakdown :=
       map (fun g => (fst g, List.length (snd g)))
           (groupBy Severity_eqb sa_severity matched);
     statusBreakdown :=
       map (fun g => (fst g, List.length (snd g)))
           (groupBy Status_eqb sa_status matched);
     trendData :=
       sortBy (fun a b => lexLeb (fst a) (fst b))
         (map (fun g => (fst g, List.length (snd g)))
              (groupBy listZ_eqb
                 (fun a => [dateYear (sa_detectedAt a);
                            dateMonth (sa_detectedAt a);
                            dateDayOfMonth (sa_detectedAt a)])
                 matched));
     topTargets :=
       firstn 10
         (sortBy targetLeb
            (map (fun g =>
                    {| tg_id := fst g;
                       tg_count := List.length (snd g);
                       tg_avgRiskScore := avgQ (map sa_riskScore (snd g));
                       tg_types :=
                         distinctBy ReasonCode_eqb (map sa_type (snd g));
                       tg_maxSeverity :=
                         maxSeverity (map sa_severity (snd g)) |})
                 (groupBy String.eqb sa_phoneNumber matched))) |}.

(* ================================================================= *)
(** * The router: [addRecord] handed over as a callback *)

(** Why a request to add a record fails: the record is rejected with the
    paths that do not cast or validate, or [this] is [undefined]. *)
Inductive AddFailure : Type :=
| Rejected (paths : list string)
| ThisUndefined.

(** [addRecord] as the router runs it.  The route is declared with
    [ipdrController.addRecord] as its handler, so the method runs detached
    from the controller and [this] is [undefined] in its body: for a
    suspicious record [this.createSuspiciousActivity(record)] throws a
    TypeError after [record.save()] has written the record, and the
    [catch] answers 500. *)
Definition addRecordDetached (js : JSRuntime) (now : Z) (body : RecordData)
    (st : Store) : Store * (AddFailure + IPDR) :=
  match newIPDR (freshId (ipdrs st)) now body with
  | inl e => (st, inl (Rejected e))
  | inr record =>
      match save js now record with
      | inl e => (st, inl (Rejected e))
      | inr record =>
          let st' :=
            {| ipdrs := ipdrs st ++ [record];
               activities := activities st |} in
          if suspicious record then (st', inl ThisUndefined)
          else (st', inr record)
      end
  end.

(* ================================================================= *)
(** * A runtime and data for the examples *)

(** [parseInt] on a string of decimal digits. *)
Definition decimalInt (s : string) : option Z :=
  if nonEmpty s && allDigits s
  then option_map Z.of_uint (NilEmpty.uint_of_string s)
  else None.

Fixpoint splitAtDot (s : string) : string * option string :=
  match s with
  | EmptyString => (EmptyString, None)
  | String c s' =>
      if Ascii.eqb c "."%char then (EmptyString, Some s')
      else let '(a, b) := splitAtDot s' in (String c a, b)
  end.

(** [parseFloat] on [digits] or [digits.digits]. *)
Definition decimalFloat (s : string) : option Q :=
  match splitAtDot s with
  | (a, None) => option_map inject_Z (decimalInt a)
  | (a, Some b) =>
      match decimalInt a, decimalInt b with
      | Some x, Some y =>
          Some (inject_Z x
                + Qmake y (Pos.pow 10 (Pos.of_nat (String.length b))))%Q
      | _, _ => None
      end
  end.

(** The [Date] constructor on the form [YYYY-MM-DDTHH:mm:ssZ], days 1 to
    28; any other string is taken as invalid. *)
Definition isoDate (s : string) : option Z :=
  let field (i n : nat) := decimalInt (substring i n s) in
  let sep (i : nat) (c : string) := (substring i 1 s =? c)%string in
  if (String.length s =? 20)%nat
     && sep 4%nat "-" && sep 7%nat "-" && sep 10%nat "T"
     && sep 13%nat ":" && sep 16%nat ":" && sep 19%nat "Z"
  then
    match field 0%nat 4%nat, field 5%nat 2%nat, field 8%nat 2%nat,
          field 11%nat 2%nat, field 14%nat 2%nat, field 17%nat 2%nat with
    | Some y, Some m, Some d, Some hh, Some mm, Some ss =>
        if inRangeZ 1 12 m && inRangeZ 1 28 d && inRangeZ 0 23 hh
           && inRangeZ 0 59 mm && inRangeZ 0 59 ss
        then Some (daysFromCivil y m d * msPerDay
                   + hh * msPerHour + mm * 60000 + ss * 1000)
        else None
    | _, _, _, _, _, _ => None
    end
  else None.

(** A runtime in the UTC zone. *)
Definition utc : JSRuntime :=
  {| parseInt := decimalInt;
     parseFloat := decimalFloat;
     Date_parse := isoDate;
     LocalTZA := fun _ => 0 |}.

(** The default document of [createTestIPDR] in [tests/setup.js], as a CSV
    row with the given IMEI and session times. *)
Definition testRow (imei' start stop : string) : CsvRow :=
  {| c_privateIP := "192.168.1.100";
     c_privatePort := "12345";
     c_publicIP := "203.0.113.1";
     c_publicPort := "80";
     c_destIP := "198.51.100.1";
     c_destPort := "443";
     c_phoneNumber := "9876543210";
     c_imei := imei';
     c_imsi := "123456789012345";
     c_startTime := start;
     c_endTime := stop;
     c_originCellID := "TEST-CELL-001";
     c_originLat := "28.6139";
     c_originLong := "77.2090";
     c_uplinkVolume := "1024";
     c_downlinkVolume := "2048";
     c_accessType := "4G" |}.

(** A document with the defaults of [createTestIPDR] and the given
    subject, destination, session times, volumes and flag. *)
Definition testIPDR (id : nat) (phone dest : string) (start stop up down : Z)
    (flag : bool) (created : Z) : IPDR :=
  {| _id := id;
     privateIP := "192.168.1.100"; privatePort := 12345;
     publicIP := "203.0.113.1"; publicPort := 80;
     destIP := dest; destPort := 443;
     phoneNumber := phone;
     imei := "123456789012345"; imsi := "123456789012345";
     startTime := start; endTime := stop;
     duration := toDoubleZ (stop - start);
     originCellID := "TEST-CELL-001";
     originLat := (286139 # 10000)%Q; originLong := (772090 # 10000)%Q;
     coordinates := [(772090 # 10000)%Q; (286139 # 10000)%Q];
     uplinkVolume := up; downlinkVolume := down;
     totalVolume := toDoubleZ (up + down);
     accessType := "4G";
     suspicious := flag; suspiciousReasons := [];
     createdAt := created; updatedAt := created;
     createdBy := "analyst" |}.

(** 2024-01-15T10:00:00Z, 2024-01-15T23:00:00Z and 2024-01-16T12:00:00Z. *)
Definition jan15_10h : Z := 1705312800000.
Definition jan15_23h : Z := 1705359600000.
Definition jan16_12h : Z := 1705406400000.

Definition emptyStore : Store := {| ipdrs := []; activities := [] |}.

(** Two sessions of one subject, to two destinations, the later contact
    stored last. *)
Definition twoContacts : list IPDR :=
  [testIPDR 0 "9876543210" "198.51.100.1" jan15_10h (jan15_10h + 3600000)
     1024 2048 false jan16_12h;
   testIPDR 1 "9876543210" "198.51.100.2" jan15_23h (jan15_23h + 3600000)
     1024 2048 false jan16_12h].

(** Subject A with five sessions, none suspicious, and subject B with
    three sessions, one of them suspicious. *)
Definition fiveAndThree : list IPDR :=
  let a (id : nat) :=
    testIPDR id "9000000001" "198.51.100.1" jan15_10h (jan15_10h + 3600000)
      1024 2048 false jan16_12h in
  let b (id : nat) (start : Z) (flag : bool) :=
    testIPDR id "9000000002" "198.51.100.2" start (start + 3600000)
      1024 2048 flag jan16_12h in
  [a 0%nat; a 1%nat; a 2%nat; a 3%nat; a 4%nat;
   b 5%nat jan15_10h false; b 6%nat jan15_10h false; b 7%nat jan15_23h true].

(** Subject A with 1112 sessions, none suspicious, and subject B with 112
    sessions, the first of them suspicious: 0 * 10 + 1112 / 100 and
    1 * 10 + 112 / 100 are the same number. *)
Definition tiedScores : list IPDR :=
  (map (fun id =>
          testIPDR id "9000000001" "198.51.100.1" jan15_10h
            (jan15_10h + 3600000) 1024 2048 false jan16_12h)
       (seq 0 1112)
   ++ testIPDR 1112 "9000000002" "198.51.100.2" jan15_10h
        (jan15_10h + 3600000) 1024 2048 true jan16_12h
   :: map (fun id =>
             testIPDR id "9000000002" "198.51.100.2" jan15_10h
               (jan15_10h + 3600000) 1024 2048 false jan16_12h)
          (seq 1113 111))%list.

(** A file of three rows: the first with an IMEI of five digits, the
    other two well-formed. *)
Definition batch3 : list CsvRow :=
  [testRow "12345" "2024-01-15T10:00:00Z" "2024-01-15T11:00:00Z";
   testRow "123456789012345" "2024-01-15T10:00:00Z" "2024-01-15T11:00:00Z";
   testRow "123456789012345" "2024-01-15T12:00:00Z" "2024-01-15T13:00:00Z"].

(** A session with an uplink of 2^53 bytes and a downlink of one byte. *)
Definition largeTransfer : IPDR :=
  testIPDR 0 "9876543210" "198.51.100.1" jan15_10h (jan15_10h + 3600000)
    9007199254740992 1 false jan16_12h.

(** A session of 1 December 2023 that was ingested on 16 January 2024. *)
Definition oldSession : IPDR :=
  testIPDR 0 "9876543210" "198.51.100.1"
    (jan15_10h - 45 * msPerDay) (jan15_10h - 45 * msPerDay + 3600000)
    1024 2048 false jan16_12h.

(** A session of 15 January 2024 whose record carries an ingestion time
    of 1 December 2023. *)
Definition predatedRecord : IPDR :=
  testIPDR 0 "9876543210" "198.51.100.1"
    jan15_10h (jan15_10h + 3600000)
    1024 2048 false (jan15_10h - 45 * msPerDay).

(** A cursor that serves a skip that is not negative and a limit that is
    positive. *)
Definition storeCursor (skip limit : Z) (docs : list IPDR)
  : option (list IPDR) :=
  if (skip <? 0) || (limit <=? 0) then None
  else Some (firstn (Z.to_nat limit) (skipn (Z.to_nat skip) docs)).

(** Every pattern is a regular expression that matches every string. *)
Definition anyPattern (pattern : string) : option (string -> bool) :=
  Some (fun _ => true).

(** The listing with one record per page and no filter. *)
Definition onePerPage : RecordsQuery :=
  {| rq_page := None;
     rq_limit := Some "1";
     rq_phoneNumber := None;
     rq_accessType := None;
     rq_suspicious := None;
     rq_startDate := None;
     rq_endDate := None |}.

(** A search for the sessions of one subject on 15 January 2024 with a
    volume of at most 4096 bytes, at the cell CELL999 and of at most one
    second. *)
Definition oneSubjectOneDay : SearchCriteria :=
  {| sc_phoneNumbers := Some ["9876543210"];
     sc_ipAddresses := None;
     sc_imeiNumbers := Some [];
     sc_dateRange :=
       Some (Some "2024-01-15T00:00:00Z", Some "2024-01-16T00:00:00Z");
     sc_accessTypes := None;
     sc_locations := Some ["CELL999"];
     sc_dataVolumeRange := Some (Some 0, Some 4096);
     sc_durationRange := Some (Some 0, Some 1000);
     sc_suspiciousOnly := false |}.

(** The criteria [c] with other [locations] and [durationRange]. *)
Definition withLocationsAndDurations (c : SearchCriteria)
    (locations : option (list string))
    (durationRange : option (option Z * option Z)) : SearchCriteria :=
  {| sc_phoneNumbers := sc_phoneNumbers c;
     sc_ipAddresses := sc_ipAddresses c;
     sc_imeiNumbers := sc_imeiNumbers c;
     sc_dateRange := sc_dateRange c;
     sc_accessTypes := sc_accessTypes c;
     sc_locations := locations;
     sc_dataVolumeRange := sc_dataVolumeRange c;
     sc_durationRange := durationRange;
     sc_suspiciousOnly := sc_suspiciousOnly c |}.


(** A box that holds every place. *)
Definition anyBox (southwest northeast : Q * Q) (r : IPDR) : bool := true.

(** The record [r] as seen from the cell [cell]. *)
Definition atCell (cell : string) (r : IPDR) : IPDR :=
  {| _id := _id r;
     privateIP := privateIP r; privatePort := privatePort r;
     publicIP := publicIP r; publicPort := publicPort r;
     destIP := destIP r; destPort := destPort r;
     phoneNumber := phoneNumber r;
     imei := imei r; imsi := imsi r;
     startTime := startTime r; endTime := endTime r;
     duration := duration r;
     originCellID := cell;
     originLat := originLat r; originLong := originLong r;
     coordinates := coordinates r;
     uplinkVolume := uplinkVolume r; downlinkVolume := downlinkVolume r;
     totalVolume := totalVolume r;
     accessType := accessType r;
     suspicious := suspicious r; suspiciousReasons := suspiciousReasons r;
     createdAt := createdAt r; updatedAt := updatedAt r;
     createdBy := createdBy r |}.

(** Three sessions, the first and the last from the cell TOWER-7, the
    last one flagged. *)
Definition threeSessionsTwoCells : list IPDR :=
  [atCell "TOWER-7"
     (testIPDR 1 "9876543210" "8.8.8.8" jan15_10h (jan15_10h + 60000)
        1024 2048 false jan15_10h);
   testIPDR 2 "9876543210" "8.8.8.8" jan15_23h (jan15_23h + 60000)
     1024 2048 false jan15_23h;
   atCell "TOWER-7"
     (testIPDR 3 "9123456780" "8.8.8.8" jan16_12h (jan16_12h + 60000)
        1024 2048 true jan16_12h)].

(** A session from a cell whose identifier is "constructor". *)
Definition constructorCell : list IPDR :=
  [atCell "constructor"
     (testIPDR 1 "9876543210" "8.8.8.8" jan15_10h (jan15_10h + 60000)
        1024 2048 false jan15_10h)].

(** A row for a session of ten seconds that starts at 23:00. *)
Definition nightShortRow : CsvRow :=
  testRow "123456789012345" "2024-01-15T23:00:00Z" "2024-01-15T23:00:10Z".

(** An event on a subject, with a severity and a detection time. *)
Definition testEvent (phone : string) (severity : Severity) (detected : Z)
  : SuspiciousActivity :=
  newSuspiciousActivity detected
    {| i_type := MULTIPLE_DEVICES;
       i_severity := Some severity;
       i_confidence := None;
       i_phoneNumber := phone;
       i_imei := "123456789012345";
       i_imsi := "123456789012345";
       i_description := "Multiple device usage detected for " ++ phone;
       i_ipdrRecords := [];
       i_detectedAt := None;
       i_firstOccurrence := detected;
       i_lastOccurrence := detected;
       i_status := None;
       i_riskScore := None |}.

(** Two events on one subject, one CRITICAL and one LOW. *)
Definition criticalAndLow : list SuspiciousActivity :=
  [testEvent "9876543210" CRITICAL jan15_10h;
   testEvent "9876543210" LOW jan15_23h].

(** What [createSuspiciousActivity] passes to the constructor for a short
    session. *)
Definition shortSessionInit : ActivityInit :=
  {| i_type := SHORT_DURATION_FREQUENT;
     i_severity := Some HIGH;
     i_confidence := Some ruleConfidence;
     i_phoneNumber := "9876543210";
     i_imei := "123456789012345";
     i_imsi := "123456789012345";
     i_description := "Short duration session: 10000ms";
     i_ipdrRecords := [0%nat];
     i_detectedAt := None;
     i_firstOccurrence := jan15_10h;
     i_lastOccurrence := jan15_10h + 10000;
     i_status := None;
     i_riskScore := None |}.

(** An event of the highest severity at confidence 0.29. *)
Definition uncertainInit : ActivityInit :=
  {| i_type := PATTERN_DEVIATION;
     i_severity := Some CRITICAL;
     i_confidence := Some (toDouble (29 # 100));
     i_phoneNumber := "9876543210";
     i_imei := "123456789012345";
     i_imsi := "123456789012345";
     i_description := "Suspicious pattern detected";
     i_ipdrRecords := [0%nat];
     i_detectedAt := None;
     i_firstOccurrence := jan15_10h;
     i_lastOccurrence := jan15_10h + 10000;
     i_status := None;
     i_riskScore := None |}.

(* ================================================================= *)
(** * What the specification states *)

(** The condition under which the specification attaches a reason code to
    a record. *)
Definition reasonHolds (js : JSRuntime) (r : IPDR) (c : ReasonCode) : Prop :=
  match c with
  | HIGH_NIGHT_ACTIVITY =>
      let hour := getHours js (startTime r) in
      (22 <= hour < 24) \/ (0 <= hour <= 6)
  | UNUSUAL_DATA_VOLUME => totalVolume r > 10485760
  | SHORT_DURATION_FREQUENT => duration r < 30000
  | _ => False
  end.

(** The events [after] holds beyond [before] are one per reason code of
    [record], in order, each linked to the record, with confidence 0.8 and
    the severity of its code. *)
Definition eventsFor (record : IPDR) (before after : list SuspiciousActivity)
  : Prop :=
  exists evs,
    after = (before ++ evs)%list
    /\ map sa_type evs = suspiciousReasons record
    /\ Forall (fun a => sa_ipdrRecords a = [_id record]
                        /\ sa_confidence a = ruleConfidence
                        /\ sa_severity a = getSeverity (sa_type a)
                        /\ sa_phoneNumber a = phoneNumber record) evs.



(** The order of the rows by the risk score they carry: risk score
    descending, ties by session count descending. *)
Definition byRiskThenSessions (a b : Communicator) : Prop :=
  (tc_riskScore b < tc_riskScore a)%Q
  \/ ((tc_riskScore a == tc_riskScore b)%Q
      /\ (tc_totalSessions b <= tc_totalSessions a)%nat).

(** The risk score the specification gives a row, in exact arithmetic:
    suspicious count times 10 plus session count over 100. *)
Definition exactRiskScore (c : Communicator) : Q :=
  (Qnat (tc_suspiciousCount c) * (10 # 1)
   + Qnat (tc_totalSessions c) / (100 # 1))%Q.

(** The order the specification gives the rows: exact risk score
    descending, ties by session count descending. *)
Definition byExactRiskThenSessions (a b : Communicator) : Prop :=
  (exactRiskScore b < exactRiskScore a)%Q
  \/ ((exactRiskScore a == exactRiskScore b)%Q
      /\ (tc_totalSessions b <= tc_totalSessions a)%nat).

(* ================================================================= *)
(** * What the code maintains *)

(** One to three decimal digits. *)
Definition octet (s : string) : Prop :=
  allDigits s = true /\ (1 <= String.length s <= 3)%nat.

(** A document as [save] leaves it: it passes the validators, its derived
    fields follow from its inputs as [Number]s (the doubles nearest to the
    sum of the volumes and to the difference of the times), and its codes
    and flag are those of the classifier. *)
Definition wellFormed (js : JSRuntime) (r : IPDR) : Prop :=
  validate r = []
  /\ (uplinkVolume r + downlinkVolume r < overflowThreshold ->
      totalVolume r = toDoubleZ (uplinkVolume r + downlinkVolume r))
  /\ (endTime r - startTime r < overflowThreshold ->
      duration r = toDoubleZ (endTime r - startTime r))
  /\ coordinates r = [originLong r; originLat r]
  /\ (forall c, In c (suspiciousReasons r) <-> reasonHolds js r c)
  /\ (suspicious r = true <-> suspiciousReasons r <> []).

(** Every record of the store is well formed, no two records share an
    identifier, and every anomaly event refers to a record of the store
    that carries the code of the event. *)
Definition storeConsistent (js : JSRuntime) (st : Store) : Prop :=
  Forall (wellFormed js) (ipdrs st)
  /\ NoDup (map _id (ipdrs st))
  /\ Forall (fun a => exists r,
                 In r (ipdrs st)
                 /\ sa_ipdrRecords a = [_id r]
                 /\ sa_phoneNumber a = phoneNumber r
                 /\ In (sa_type a) (suspiciousReasons r))
            (activities st).

(** What the summary and the counters of an upload of [n] rows, started
    on a store of [n0] records, satisfy at every moment. *)
Definition uploadAccounts (n n0 : nat) (u : Upload) : Prop :=
  uploadInvariant n u
  /\ List.length (ipdrs (store u)) = (n0 + created u)%nat
  /\ (forall s,
         response u = Some s ->
         List.length (s_errorDetails s) = Nat.min 10 (s_errors s)
         /\ (s_created s + s_errors s <= s_processed s)%nat
         /\ (s_created s <= created u)%nat
         /\ (s_errors s <= List.length (errors u))%nat).

(** The behaviour of [.skip(skip).limit(limit)] the listing relies on. *)
Definition cursorSpec (cursor : Z -> Z -> list IPDR -> option (list IPDR))
  : Prop :=
  forall skip limit docs,
    0 <= skip -> 0 < limit ->
    cursor skip limit docs
    = Some (firstn (Z.to_nat limit) (skipn (Z.to_nat skip) docs)).

(** The query [q] with [page] as its page. *)
Definition withPage (q : RecordsQuery) (page : string) : RecordsQuery :=
  {| rq_page := Some page;
     rq_limit := rq_limit q;
     rq_phoneNumber := rq_phoneNumber q;
     rq_accessType := rq_accessType q;
     rq_suspicious := rq_suspicious q;
     rq_startDate := rq_startDate q;
     rq_endDate := rq_endDate q |}.

(** The [data] of an answer, empty for an error. *)
Definition dataOf {A B : Type} (r : Reply (list A * B)) : list A :=
  match r with
  | Ok (data, _) => data
  | _ => []
  end.

(** What the criteria of a search ask of a record. *)
Definition meets (js : JSRuntime) (c : SearchCriteria) (r : IPDR) : Prop :=
  (given (sc_phoneNumbers c) = true ->
   In (phoneNumber r) (orDefault (sc_phoneNumbers c) []))
  /\ (given (sc_ipAddresses c) = true ->
      In (privateIP r) (orDefault (sc_ipAddresses c) [])
      \/ In (publicIP r) (orDefault (sc_ipAddresses c) [])
      \/ In (destIP r) (orDefault (sc_ipAddresses c) []))
  /\ (given (sc_imeiNumbers c) = true ->
      In (imei r) (orDefault (sc_imeiNumbers c) []))
  /\ (given (sc_accessTypes c) = true ->
      In (accessType r) (orDefault (sc_accessTypes c) []))
  /\ (sc_suspiciousOnly c = true -> suspicious r = true)
  /\ (forall start stop from to,
         sc_dateRange c = Some (Some start, Some stop) ->
         start <> "" -> stop <> "" ->
         Date_parse js start = Some from -> Date_parse js stop = Some to ->
         from <= startTime r <= to)
  /\ (forall m hi,
         sc_dataVolumeRange c = Some (Some m, hi) -> m <> 0 ->
         m <= totalVolume r)
  /\ (forall lo m,
         sc_dataVolumeRange c = Some (lo, Some m) -> m <> 0 ->
         totalVolume r <= m).

(** The identifiers of the documents that wait for their [save]. *)
Definition pendingIds (l : list (nat * Suspended)) : list nat :=
  flat_map (fun kh =>
              match h_record (snd kh) with
              | inr r => [_id r]
              | inl _ => []
              end)
           l.

(** The documents written and those that wait for their [save] have
    identifiers of their own, below the next one an upload gives. *)
Definition idsDistinct (u : Upload) : Prop :=
  NoDup (map _id (ipdrs (store u)) ++ pendingIds (pending u))%list
  /\ Forall (fun id => (id < freshId (ipdrs (store u)) + emitted u)%nat)
            (pendingIds (pending u)).

(** The records of a cell, in the order of the list. *)
Definition sessionsAt (id : string) (records : list IPDR) : list IPDR :=
  filter (fun r => (originCellID r =? id)%string) records.

(** The group of a cell once [records] have been visited: its place is
    that of the first record of the cell. *)
Definition cellOf (id : string) (records : list IPDR) : option CellGroup :=
  match sessionsAt id records with
  | [] => None
  | first :: _ =>
      Some {| cellID := id;
              cg_lat := originLat first;
              cg_lng := originLong first;
              cg_count := List.length (sessionsAt id records);
              cg_suspicious :=
                List.length (filter suspicious (sessionsAt id records));
              cg_accessTypes :=
                fold_left (fun acc r => bumpAccessType (accessType r) acc)
                          (sessionsAt id records) [] |}
  end.

(** The number of the records with access type [k], as [accessTypes]
    holds it: no entry for none. *)
Definition tally (k : string) (records : list IPDR) : option (option nat) :=
  match List.length (filter (fun r => (accessType r =? k)%string) records)
  with
  | O => None
  | n => Some (Some n)
  end.

(** Higher risk score first, ties by later detection first. *)
Definition byRiskThenDetection (a b : SuspiciousActivity) : Prop :=
  (sa_riskScore b < sa_riskScore a)%Q
  \/ ((sa_riskScore a == sa_riskScore b)%Q
      /\ sa_detectedAt b <= sa_detectedAt a).

(** The place of a severity among the stored strings in alphabetical
    order: CRITICAL, HIGH, LOW, MEDIUM. *)
Definition alphabeticalRank (s : Severity) : nat :=
  match s with
  | CRITICAL => 0
  | HIGH => 1
  | LOW => 2
  | MEDIUM => 3
  end.

(** The events of the window of [getSuspiciousAnalytics]. *)
Definition eventsInWindow (js : JSRuntime) (now : Z) (q_days : option string)
    (acts : list SuspiciousActivity) : list SuspiciousActivity :=
  filter (fun a => windowStart now (parseIntOr js q_days 30)
                   <=? sa_detectedAt a)
         acts.

(** Higher count first, ties by higher average risk score first. *)
Definition byCountThenRisk (a b : Target) : Prop :=
  (tg_count b < tg_count a)%nat
  \/ (tg_count a = tg_count b
      /\ (tg_avgRiskScore b <= tg_avgRiskScore a)%Q).

(** The records of the window of [getDashboardStats]. *)
Definition ingestedInWindow (now : Z) (q_dateRange : option Z)
    (db : list IPDR) : list IPDR :=
  filter (fun r => windowStart now (orDefault q_dateRange 30) <=? createdAt r)
         db.


(* ================================================================= *)
(** * Facts about numbers *)

Lemma toDoubleZ_exact (z : Z) : Z.abs z <= 2 ^ 53 -> toDoubleZ z = z.
Proof.
  intros H. unfold toDoubleZ.
  destruct (Z.leb_spec (Z.abs z) (2 ^ 53)); [reflexivity | lia].
Qed.

Lemma divHalfEven_floor (a b : Z) : a / b <= divHalfEven a b.
Proof.
  unfold divHalfEven. cbv zeta.
  destruct (2 * (a mod b) ?= b); [destruct (Z.even (a / b))| |]; lia.
Qed.

Lemma toDoubleZ_large (z : Z) : 2 ^ 53 < z -> 2 ^ 53 <= toDoubleZ z.
Proof.
  intros H. unfold toDoubleZ. cbv zeta.
  assert (H53 : 2 ^ 53 = 9007199254740992) by reflexivity.
  assert (H52 : 2 ^ 52 = 4503599627370496) by reflexivity.
  rewrite Z.abs_eq by lia.
  destruct (Z.leb_spec z (2 ^ 53)); [lia|].
  rewrite Z.sgn_pos by lia.
  assert (Hlog : 53 <= Z.log2 z).
  { rewrite <- (Z.log2_pow2 53) by lia. apply Z.log2_le_mono. lia. }
  destruct (Z.log2_spec z) as [Hlo _]; [lia|].
  set (L := Z.log2 z) in *.
  assert (Hsplit : 2 ^ L = 2 ^ (L - 52) * 2 ^ 52).
  { rewrite <- Z.pow_add_r by lia. f_equal. lia. }
  assert (Hulp : 2 <= 2 ^ (L - 52)).
  { change 2 with (2 ^ 1) at 1. apply Z.pow_le_mono_r; lia. }
  assert (Hq : 2 ^ 52 <= z / 2 ^ (L - 52)).
  { apply Z.div_le_lower_bound; lia. }
  pose proof (divHalfEven_floor z (2 ^ (L - 52))) as Hfloor.
  nia.
Qed.

Lemma toDoubleZ_opp (z : Z) : toDoubleZ (- z) = - toDoubleZ z.
Proof.
  unfold toDoubleZ. cbv zeta. rewrite Z.abs_opp, Z.sgn_opp.
  destruct (Z.abs z <=? 2 ^ 53); [reflexivity | ring].
Qed.

(** Rounding does not move a number across a bound that is a double. *)
Lemma toDoubleZ_lt (z c : Z) :
  Z.abs c <= 2 ^ 52 -> (toDoubleZ z < c <-> z < c).
Proof.
  intros Hc.
  destruct (Z.le_gt_cases (Z.abs z) (2 ^ 53)) as [Hs|Hb].
  - now rewrite toDoubleZ_exact.
  - pose proof (toDoubleZ_large (- z)) as Hn.
    pose proof (toDoubleZ_large z) as Hp.
    rewrite toDoubleZ_opp in Hn.
    change (2 ^ 53) with 9007199254740992 in *.
    change (2 ^ 52) with 4503599627370496 in *. lia.
Qed.

Lemma toDoubleZ_gt (z c : Z) :
  Z.abs c <= 2 ^ 52 -> (toDoubleZ z > c <-> z > c).
Proof.
  intros Hc.
  destruct (Z.le_gt_cases (Z.abs z) (2 ^ 53)) as [Hs|Hb].
  - now rewrite toDoubleZ_exact.
  - pose proof (toDoubleZ_large (- z)) as Hn.
    pose proof (toDoubleZ_large z) as Hp.
    rewrite toDoubleZ_opp in Hn.
    change (2 ^ 53) with 9007199254740992 in *.
    change (2 ^ 52) with 4503599627370496 in *. lia.
Qed.

(* ================================================================= *)
(** * Facts about the pipeline stages *)

Section DistinctFacts.
Context {K : Type} (eqb : K -> K -> bool).
Hypothesis eqb_eq : forall a b, eqb a b = true <-> a = b.

Lemma distinctBy_In (x : K) (l : list K) :
  In x (distinctBy eqb l) <-> In x l.
Proof.
  induction l as [|y l IH]; simpl; [tauto|].
  rewrite filter_In, IH.
  split.
  - intros [Hx | [Hx _]]; auto.
  - intros [Hx | Hx]; auto.
    destruct (eqb y x) eqn:E.
    + left. now apply eqb_eq.
    + right. split; [assumption | reflexivity].
Qed.

Lemma distinctBy_NoDup (l : list K) : NoDup (distinctBy eqb l).
Proof.
  induction l as [|y l IH]; simpl; constructor.
  - intros Hin. apply filter_In in Hin. destruct Hin as [_ Hne].
    assert (E : eqb y y = true) by now apply eqb_eq.
    cbv beta in Hne. rewrite E in Hne. discriminate.
  - now apply NoDup_filter.
Qed.

End DistinctFacts.

Section GroupFacts.
Context {A K : Type} (eqb : K -> K -> bool) (key : A -> K).
Hypothesis eqb_eq : forall a b, eqb a b = true <-> a = b.

Lemma groupBy_keys (docs : list A) :
  map fst (groupBy eqb key docs) = distinctBy eqb (map key docs).
Proof.
  unfold groupBy. rewrite map_map. simpl. apply map_id.
Qed.

Lemma groupBy_members (docs : list A) (g : K * list A) :
  In g (groupBy eqb key docs) ->
  snd g = filter (fun d => eqb (key d) (fst g)) docs
  /\ In (fst g) (map key docs).
Proof.
  unfold groupBy. rewrite in_map_iff.
  intros [k [<- Hk]]. cbn [fst snd]. split; [reflexivity|].
  apply (distinctBy_In eqb eqb_eq). exact Hk.
Qed.

Lemma groupBy_nonempty (docs : list A) (g : K * list A) :
  In g (groupBy eqb key docs) -> snd g <> [].
Proof.
  intros Hg. destruct (groupBy_members docs g Hg) as [-> Hin].
  apply in_map_iff in Hin. destruct Hin as [d [Hd Hin]].
  intros Hnil.
  assert (Hf : In d (filter (fun d => eqb (key d) (fst g)) docs)).
  { apply filter_In. split; [assumption | now apply eqb_eq]. }
  rewrite Hnil in Hf. exact Hf.
Qed.

Lemma groupBy_NoDup (docs : list A) :
  NoDup (map fst (groupBy eqb key docs)).
Proof. rewrite groupBy_keys. now apply distinctBy_NoDup. Qed.
End GroupFacts.

Section SortFacts.
Context {A : Type} (leb : A -> A -> bool).

Lemma insertBy_perm (x : A) (l : list A) :
  Permutation (insertBy leb x l) (x :: l).
Proof.
  induction l as [|y l IH]; simpl; [reflexivity|].
  destruct (leb x y); [reflexivity|].
  rewrite IH. apply perm_swap.
Qed.

Lemma sortBy_perm (l : list A) : Permutation (sortBy leb l) l.
Proof.
  induction l as [|x l IH]; simpl; [reflexivity|].
  rewrite insertBy_perm. now constructor.
Qed.

Hypothesis leb_total : forall a b, leb a b = true \/ leb b a = true.
Hypothesis leb_trans :
  forall a b c, leb a b = true -> leb b c = true -> leb a c = true.

Let R (a b : A) : Prop := leb a b = true.

Lemma insertBy_sorted (x : A) (l : list A) :
  StronglySorted R l -> StronglySorted R (insertBy leb x l).
Proof.
  induction 1 as [|y l Hs IH Hall]; simpl.
  - repeat constructor.
  - destruct (leb x y) eqn:E.
    + constructor; [now constructor|].
      constructor; [exact E|].
      eapply Forall_impl; [|exact Hall].
      intros z Hz. unfold R in *. eauto.
    + constructor; [exact IH|].
      apply Permutation_Forall with (x :: l).
      * symmetry. apply insertBy_perm.
      * constructor; [|exact Hall].
        destruct (leb_total x y) as [H|H]; [congruence | exact H].
Qed.

Lemma sortBy_sorted (l : list A) : StronglySorted R (sortBy leb l).
Proof.
  induction l as [|x l IH]; simpl; [constructor|].
  now apply insertBy_sorted.
Qed.
End SortFacts.

Lemma StronglySorted_impl {A : Type} (R R' : A -> A -> Prop) (l : list A) :
  (forall a b, R a b -> R' a b) ->
  StronglySorted R l -> StronglySorted R' l.
Proof.
  intros Himpl. induction 1 as [|x l Hs IH Hall]; constructor;
    [exact IH|].
  eapply Forall_impl; [|exact Hall]. intros y. apply Himpl.
Qed.

Lemma In_firstn_In {A : Type} (n : nat) (l : list A) (x : A) :
  In x (firstn n l) -> In x l.
Proof.
  revert n. induction l as [|y l IH]; intros [|n]; simpl; try tauto.
  intros [H|H]; [now left | right; eauto].
Qed.

Lemma StronglySorted_firstn {A : Type} (R : A -> A -> Prop) (n : nat)
    (l : list A) :
  StronglySorted R l -> StronglySorted R (firstn n l).
Proof.
  revert n. induction l as [|x l IH]; intros [|n] Hs; simpl;
    try constructor.
  - apply IH. now inversion Hs.
  - inversion Hs as [|? ? _ Hall]; subst.
    rewrite Forall_forall in *. intros y Hy.
    apply Hall. eapply (In_firstn_In n); eauto.
Qed.

(* ================================================================= *)
(** * The classifier *)

Lemma getHours_range (js : JSRuntime) (t : Z) : 0 <= getHours js t < 24.
Proof. unfold getHours. apply Z.mod_pos_bound. lia. Qed.

Lemma save_inr (js : JSRuntime) (now : Z) (r r' : IPDR) :
  save js now r = inr r' -> validate r = [] /\ r' = preSave js now r.
Proof.
  unfold save. destruct (validate r); intros H; inversion H. now split.
Qed.

Section Classifier.
Variable js : JSRuntime.

Lemma checkSuspicious_reasons (r : IPDR) (c : ReasonCode) :
  In c (suspiciousReasons (checkSuspicious js r)) <-> reasonHolds js r c.
Proof.
  pose proof (getHours_range js (startTime r)) as Hh.
  unfold checkSuspicious, pushIf. cbn [suspiciousReasons set_analysis].
  destruct (getHours js (startTime r) >=? 22) eqn:E1;
    destruct (getHours js (startTime r) <=? 6) eqn:E2;
    destruct (totalVolume r >? 10485760) eqn:E3;
    destruct (duration r <? 30000) eqn:E4;
    cbn [orb app In];
    try apply Z.geb_le in E1; try apply Z.leb_le in E2;
    try apply Z.gtb_lt in E3; try apply Z.ltb_lt in E4;
    try (rewrite Z.geb_leb in E1; apply Z.leb_gt in E1);
    try apply Z.leb_gt in E2;
    try (rewrite Z.gtb_ltb in E3; apply Z.ltb_ge in E3);
    try apply Z.ltb_ge in E4;
    destruct c; cbn [reasonHolds]; split; intros H;
    repeat match goal with
           | H : _ \/ _ |- _ => destruct H
           | H : False |- _ => destruct H
           end;
    try discriminate; try lia; auto.
Qed.

Lemma checkSuspicious_NoDup (r : IPDR) :
  NoDup (suspiciousReasons (checkSuspicious js r)).
Proof.
  unfold checkSuspicious, pushIf. cbn [suspiciousReasons set_analysis].
  destruct (_ || _), (_ >? _), (_ <? _); cbn [app];
    repeat constructor; cbn [In]; intuition discriminate.
Qed.

Lemma checkSuspicious_flag (r : IPDR) :
  suspicious (checkSuspicious js r) = true
  <-> suspiciousReasons (checkSuspicious js r) <> [].
Proof.
  unfold checkSuspicious. cbn [suspicious suspiciousReasons set_analysis].
  destruct (pushIf _ _ _); cbn; split; congruence.
Qed.
End Classifier.

(** C1. Every saved record carries exactly the reason codes whose
    conditions hold (night hour in [22,24) or [0,6], total volume above
    10,485,760 bytes, duration below 30,000 ms), each once, and is flagged
    suspicious iff it carries one; 10,485,761 bytes is tagged and
    10,485,760 is not, hour 23 is tagged and hour 10 is not. *)
Theorem classifier_reason_set (js : JSRuntime) (now : Z) (r r' : IPDR) :
  save js now r = inr r' ->
  (forall c, In c (suspiciousReasons r') <-> reasonHolds js r' c)
  /\ NoDup (suspiciousReasons r')
  /\ (suspicious r' = true <-> suspiciousReasons r' <> [])
  /\ (totalVolume r' = 10485761 ->
      In UNUSUAL_DATA_VOLUME (suspiciousReasons r'))
  /\ (totalVolume r' = 10485760 ->
      ~ In UNUSUAL_DATA_VOLUME (suspiciousReasons r'))
  /\ (getHours js (startTime r') = 23 ->
      In HIGH_NIGHT_ACTIVITY (suspiciousReasons r'))
  /\ (getHours js (startTime r') = 10 ->
      ~ In HIGH_NIGHT_ACTIVITY (suspiciousReasons r')).
Proof.
  intros Hsave. apply save_inr in Hsave. destruct Hsave as [_ ->].
  unfold preSave. set (d := set_derived r now).
  assert (Hc : forall c, In c (suspiciousReasons (checkSuspicious js d))
                         <-> reasonHolds js (checkSuspicious js d) c).
  { intros c. rewrite checkSuspicious_reasons. destruct c; reflexivity. }
  split; [exact Hc|].
  split; [apply checkSuspicious_NoDup|].
  split; [apply checkSuspicious_flag|].
  repeat split; try intros Hv; try intros Hin;
    try (apply Hc; cbn [reasonHolds]; lia);
    apply Hc in Hin; cbn [reasonHolds] in Hin; lia.
Qed.

(** A session of ten seconds that starts at 23:00 UTC with 10 MiB and one
    byte of traffic carries the three codes. *)
Lemma classifier_reason_set_witness :
  In HIGH_NIGHT_ACTIVITY
     (suspiciousReasons
        (preSave utc jan16_12h
           (testIPDR 0 "9876543210" "198.51.100.1" jan15_23h
              (jan15_23h + 10000) 10485760 1 false jan16_12h))).
Proof.
  apply (classifier_reason_set utc jan16_12h
           (testIPDR 0 "9876543210" "198.51.100.1" jan15_23h
              (jan15_23h + 10000) 10485760 1 false jan16_12h)).
  - reflexivity.
  - reflexivity.
Defined.

(* ================================================================= *)
(** * Derived fields *)

Lemma validate_endTime (r : IPDR) : validate r = [] -> startTime r < endTime r.
Proof.
  intros H.
  destruct (endTime r >? startTime r) eqn:E; [now apply Z.gtb_lt in E|].
  exfalso. unfold validate in H. rewrite E in H.
  do 9 (apply app_eq_nil in H; destruct H as [_ H]).
  discriminate H.
Qed.

Lemma validate_volumes (r : IPDR) :
  validate r = [] -> 0 <= uplinkVolume r /\ 0 <= downlinkVolume r.
Proof.
  intros H. unfold validate in H.
  do 13 (apply app_eq_nil in H; destruct H as [_ H]).
  apply app_eq_nil in H. destruct H as [Hup H].
  apply app_eq_nil in H. destruct H as [Hdown _].
  destruct (Z.leb_spec 0 (uplinkVolume r)); [|discriminate Hup].
  destruct (Z.leb_spec 0 (downlinkVolume r)); [|discriminate Hdown].
  now split.
Qed.

Lemma validate_preSave (js : JSRuntime) (now : Z) (r : IPDR) :
  validate (preSave js now r) = validate r.
Proof. reflexivity. Qed.

(** C3, as the code has it.  A save stores the inputs as given and
    recomputes the derived fields from them before it classifies.  The
    total volume is the double nearest to uplink plus downlink, which is
    the sum itself up to 2^53, and the duration is the double nearest to
    end minus start, the difference itself up to 2^53 (both below the
    overflow threshold, where the program has [Infinity]); the coordinates
    are (longitude, latitude).  The reason codes are those of the fresh
    values, whatever the derived fields held before; the duration of a
    record that passes validation is positive; and a later save finds the
    same values. *)
Theorem save_recomputes_derived_fields (js : JSRuntime) (now : Z)
    (r r' : IPDR) :
  save js now r = inr r' ->
  (uplinkVolume r' = uplinkVolume r
   /\ downlinkVolume r' = downlinkVolume r
   /\ startTime r' = startTime r /\ endTime r' = endTime r
   /\ originLong r' = originLong r /\ originLat r' = originLat r)
  /\ (uplinkVolume r' + downlinkVolume r' < overflowThreshold ->
      totalVolume r' = toDoubleZ (uplinkVolume r' + downlinkVolume r'))
  /\ (uplinkVolume r' + downlinkVolume r' <= 2 ^ 53 ->
      totalVolume r' = uplinkVolume r' + downlinkVolume r')
  /\ (endTime r' - startTime r' < overflowThreshold ->
      duration r' = toDoubleZ (endTime r' - startTime r'))
  /\ (endTime r' - startTime r' <= 2 ^ 53 ->
      duration r' = endTime r' - startTime r')
  /\ coordinates r' = [originLong r'; originLat r']
  /\ (In UNUSUAL_DATA_VOLUME (suspiciousReasons r')
      <-> uplinkVolume r + downlinkVolume r > 10485760)
  /\ (In SHORT_DURATION_FREQUENT (suspiciousReasons r')
      <-> endTime r - startTime r < 30000)
  /\ (suspicious r' = true <-> suspiciousReasons r' <> [])
  /\ duration r' > 0
  /\ (forall later, exists r'',
        save js later r' = inr r''
        /\ totalVolume r'' = totalVolume r'
        /\ duration r'' = duration r'
        /\ coordinates r'' = coordinates r'
        /\ suspicious r'' = suspicious r'
        /\ suspiciousReasons r'' = suspiciousReasons r').
Proof.
  intros Hsave. apply save_inr in Hsave. destruct Hsave as [Hvalid ->].
  pose proof (validate_endTime r Hvalid) as Hlt.
  pose proof (validate_volumes r Hvalid) as [Hup Hdown].
  assert (Hsmall : forall c, c = 0 \/ c = 30000 \/ c = 10485760 ->
                             Z.abs c <= 2 ^ 52).
  { intros c [-> | [-> | ->]]; vm_compute; discriminate. }
  split; [repeat split|].
  split; [intros _; reflexivity|].
  split; [intros Hb; apply toDoubleZ_exact; cbn in *; lia|].
  split; [intros _; reflexivity|].
  split; [intros Hb; apply toDoubleZ_exact; cbn in *; lia|].
  split; [reflexivity|].
  split.
  { unfold preSave.
    rewrite (checkSuspicious_reasons js (set_derived r now)).
    cbn [reasonHolds totalVolume set_derived].
    apply toDoubleZ_gt, Hsmall. tauto. }
  split.
  { unfold preSave.
    rewrite (checkSuspicious_reasons js (set_derived r now)).
    cbn [reasonHolds duration set_derived].
    apply toDoubleZ_lt, Hsmall. tauto. }
  split; [apply checkSuspicious_flag|].
  split.
  { cbn [preSave checkSuspicious set_analysis duration set_derived].
    apply toDoubleZ_gt; [apply Hsmall; tauto | lia]. }
  intros later. exists (preSave js later (preSave js now r)).
  split; [|repeat split].
  unfold save. rewrite validate_preSave, Hvalid. reflexivity.
Qed.

Lemma save_recomputes_derived_fields_witness :
  duration
    (preSave utc jan16_12h
       (testIPDR 0 "9876543210" "198.51.100.1" jan15_10h
          (jan15_10h + 3600000) 1024 2048 false jan16_12h)) > 0.
Proof.
  apply (save_recomputes_derived_fields utc jan16_12h
           (testIPDR 0 "9876543210" "198.51.100.1" jan15_10h
              (jan15_10h + 3600000) 1024 2048 false jan16_12h)).
  reflexivity.
Defined.

(** An uplink of 2^53 bytes with a downlink of one byte is saved with a
    total of 2^53 bytes: the sum is not a double. *)
Lemma save_rounds_total_volume :
  exists r',
    save utc jan16_12h largeTransfer = inr r'
    /\ uplinkVolume r' = 9007199254740992
    /\ downlinkVolume r' = 1
    /\ totalVolume r' = 9007199254740992
    /\ totalVolume r' <> uplinkVolume r' + downlinkVolume r'.
Proof.
  eexists. split; [reflexivity|].
  split; [reflexivity|]. split; [reflexivity|]. split; [reflexivity|].
  vm_compute. discriminate.
Qed.

(* ================================================================= *)
(** * Anomaly events *)

Lemma fold_left_push {A B : Type} (f : A -> B) (l : list A) (acc : list B) :
  fold_left (fun acc x => (acc ++ [f x])%list) l acc = (acc ++ map f l)%list.
Proof.
  revert acc. induction l as [|x l IH]; intros acc; simpl.
  - now rewrite app_nil_r.
  - rewrite IH, <- app_assoc. reflexivity.
Qed.

Lemma createSuspiciousActivity_app (js : JSRuntime) (now : Z) (record : IPDR)
    (acts : list SuspiciousActivity) :
  createSuspiciousActivity js now record acts
  = (acts ++ map (activityFor js now record) (suspiciousReasons record))%list.
Proof. apply fold_left_push. Qed.

Lemma createSuspiciousActivity_eventsFor (js : JSRuntime) (now : Z)
    (record : IPDR) (acts : list SuspiciousActivity) :
  eventsFor record acts (createSuspiciousActivity js now record acts).
Proof.
  exists (map (activityFor js now record) (suspiciousReasons record)).
  split; [apply createSuspiciousActivity_app|].
  split.
  - rewrite map_map. apply map_id.
  - apply Forall_forall. intros a Ha. apply in_map_iff in Ha.
    destruct Ha as [c [<- _]]. repeat split.
Qed.

Lemma eventsFor_nothing_written (record : IPDR)
    (acts : list SuspiciousActivity) :
  suspiciousReasons record <> [] -> ~ eventsFor record acts acts.
Proof.
  intros Hne [evs [Happ [Htypes _]]].
  assert (Hlen : List.length evs = 0%nat).
  { apply (f_equal (@List.length _)) in Happ.
    rewrite length_app in Happ. lia. }
  destruct evs; [|discriminate Hlen]. apply Hne. now rewrite <- Htypes.
Qed.

(** C4, as the code has it.  The controller's methods, run on the
    controller, give a record that is persisted and suspicious exactly one
    anomaly event per reason code it carries (the codes are distinct and
    at least one), each referring to the record, with confidence 0.8 and
    the severity of the table: MEDIUM for night activity, HIGH for data
    volume and for short duration, MEDIUM for every code the table does
    not list.  The router runs [addRecord] detached from the controller:
    for the same body the same record is persisted, no anomaly event is
    written, and the request fails because [this] is [undefined]. *)
Theorem anomaly_events_lost_by_router (js : JSRuntime) (now : Z) :
  (forall body st st' record,
      addRecord js now body st = (st', inr record) ->
      suspicious record = true ->
      ipdrs st' = (ipdrs st ++ [record])%list
      /\ NoDup (suspiciousReasons record)
      /\ suspiciousReasons record <> []
      /\ eventsFor record (activities st) (activities st')
      /\ addRecordDetached js now body st
         = ({| ipdrs := (ipdrs st ++ [record])%list;
               activities := activities st |},
            inl ThisUndefined)
      /\ ~ eventsFor record (activities st)
             (activities (fst (addRecordDetached js now body st))))
  /\ (forall k u u',
         resume js now k u = Some u' ->
         created u' = S (created u) ->
         exists record,
           ipdrs (store u') = (ipdrs (store u) ++ [record])%list
           /\ NoDup (suspiciousReasons record)
           /\ (suspicious record = true ->
               eventsFor record (activities (store u))
                         (activities (store u'))))
  /\ getSeverity HIGH_NIGHT_ACTIVITY = MEDIUM
  /\ getSeverity UNUSUAL_DATA_VOLUME = HIGH
  /\ getSeverity SHORT_DURATION_FREQUENT = HIGH
  /\ (forall c,
         c <> HIGH_NIGHT_ACTIVITY -> c <> UNUSUAL_DATA_VOLUME ->
         c <> SHORT_DURATION_FREQUENT -> c <> MULTIPLE_DEVICES ->
         getSeverity c = MEDIUM).
Proof.
  split; [|split].
  - intros body st st' record Hadd Hs.
    unfold addRecordDetached. unfold addRecord in Hadd.
    destruct (newIPDR _ now body) as [e|r0]; [inversion Hadd|].
    destruct (save js now r0) as [e|r1] eqn:Hsave; [inversion Hadd|].
    inversion Hadd; subst; clear Hadd. cbn [ipdrs activities].
    cbv zeta. rewrite Hs. cbn [fst activities].
    apply save_inr in Hsave. destruct Hsave as [_ Hpre].
    assert (Hne : suspiciousReasons record <> []).
    { rewrite Hpre in Hs |- *. unfold preSave in *.
      now apply checkSuspicious_flag. }
    split; [reflexivity|]. split.
    { rewrite Hpre. apply checkSuspicious_NoDup. }
    split; [exact Hne|].
    split; [apply createSuspiciousActivity_eventsFor|].
    split; [reflexivity|]. now apply eventsFor_nothing_written.
  - intros k u u' Hres Hcreated. unfold resume in Hres.
    destruct (takeHandler k (pending u)) as [[h rest]|]; [|discriminate].
    destruct (settle js now h) as [e|record] eqn:Hsaved.
    + inversion Hres; subst; clear Hres. cbn in Hcreated. lia.
    + inversion Hres; subst; clear Hres. cbn [store ipdrs activities].
      exists record. split; [reflexivity|]. split.
      * unfold settle in Hsaved.
        destruct (h_record h) as [e|r0]; [discriminate|].
        apply save_inr in Hsaved. destruct Hsaved as [_ ->].
        apply checkSuspicious_NoDup.
      * intros ->. apply createSuspiciousActivity_eventsFor.
  - repeat split.
    intros c H1 H2 H3 H4; destruct c; try reflexivity; congruence.
Qed.

(** The body of [nightShortRow] posted to an empty store: on the
    controller two events follow the record, through the router the
    record is written, no event is, and the request fails. *)
Lemma anomaly_events_lost_by_router_witness :
  match addRecord utc jan16_12h (mapRow utc "analyst" nightShortRow)
          emptyStore with
  | (st', inr record) =>
      suspiciousReasons record
      = [HIGH_NIGHT_ACTIVITY; SHORT_DURATION_FREQUENT]
      /\ eventsFor record [] (activities st')
      /\ List.length (activities st') = 2%nat
      /\ addRecordDetached utc jan16_12h (mapRow utc "analyst" nightShortRow)
           emptyStore
         = ({| ipdrs := [record]; activities := [] |}, inl ThisUndefined)
  | (_, inl _) => False
  end.
Proof.
  destruct (addRecord utc jan16_12h _ emptyStore) as [st' [e|record]] eqn:H.
  - vm_compute in H. discriminate H.
  - destruct (proj1 (anomaly_events_lost_by_router utc jan16_12h) _ _ _ _ H)
      as [_ [_ [_ [Hev [Hdet _]]]]].
    + vm_compute in H. inversion H. reflexivity.
    + split; [vm_compute in H; inversion H; reflexivity|].
      split; [exact Hev|].
      split; [vm_compute in H; inversion H; reflexivity|].
      exact Hdet.
Defined.

(* ================================================================= *)
(** * Risk score of an anomaly event *)

(** C5, as the code has it.  An event built without a risk score gets
    the [Number] product of the weight of its severity (LOW 25, MEDIUM 50,
    HIGH 75, CRITICAL 100) and its confidence: the double nearest to the
    exact product, for a product below the overflow threshold.  At the
    default confidence 0.5 that is the exact product, and at the 0.8 of
    the rules it is 20, 40, 60 or 80.  Two events with the same severity
    and confidence get the same score, whenever and from whatever else
    they are built. *)
Theorem riskScore_default_formula (now : Z) (i : ActivityInit) :
  i_riskScore i = None ->
  let a := newSuspiciousActivity now i in
  ((Qabs (inject_Z (severityMap (sa_severity a)) * sa_confidence a)
    < inject_Z overflowThreshold)%Q ->
   sa_riskScore a
   = toDouble (inject_Z (severityMap (sa_severity a)) * sa_confidence a))
  /\ severityMap LOW = 25 /\ severityMap MEDIUM = 50
  /\ severityMap HIGH = 75 /\ severityMap CRITICAL = 100
  /\ (i_confidence i = None ->
      sa_confidence a = (1 # 2)%Q
      /\ sa_riskScore a == (severityMap (sa_severity a) # 2))%Q
  /\ (i_confidence i = Some ruleConfidence ->
      sa_riskScore a
      == inject_Z (severityMap (sa_severity a)) * (8 # 10))%Q
  /\ (forall now' i',
         i_riskScore i' = None ->
         sa_severity (newSuspiciousActivity now' i') = sa_severity a ->
         sa_confidence (newSuspiciousActivity now' i') = sa_confidence a ->
         sa_riskScore (newSuspiciousActivity now' i') = sa_riskScore a).
Proof.
  intros Hnone a.
  assert (Ha : sa_riskScore a
               = riskScoreDefault (sa_severity a) (sa_confidence a)).
  { unfold a, newSuspiciousActivity. cbn. rewrite Hnone. reflexivity. }
  split; [intros _; exact Ha|].
  split; [reflexivity|]. split; [reflexivity|].
  split; [reflexivity|]. split; [reflexivity|].
  split; [|split].
  - intros Hc.
    assert (Hhalf : sa_confidence a = (1 # 2)%Q).
    { unfold a, newSuspiciousActivity. cbn. now rewrite Hc. }
    split; [exact Hhalf|]. rewrite Ha, Hhalf.
    destruct (sa_severity a); vm_compute; reflexivity.
  - intros Hc.
    assert (Hrule : sa_confidence a = ruleConfidence).
    { unfold a, newSuspiciousActivity. cbn. now rewrite Hc. }
    rewrite Ha, Hrule.
    destruct (sa_severity a); vm_compute; reflexivity.
  - intros now' i' Hnone' Hs Hc. rewrite Ha, <- Hs, <- Hc.
    unfold newSuspiciousActivity. cbn. rewrite Hnone'. reflexivity.
Qed.

(** The event of a short session: HIGH at confidence 0.8. *)
Lemma riskScore_default_formula_witness :
  (sa_riskScore (newSuspiciousActivity jan16_12h shortSessionInit)
   == 60 # 1)%Q.
Proof.
  destruct (riskScore_default_formula jan16_12h shortSessionInit eq_refl)
    as [_ [_ [_ [_ [_ [_ [Hrule _]]]]]]].
  rewrite (Hrule eq_refl). reflexivity.
Defined.

(** A CRITICAL event at confidence 0.29 gets the score
    28.999999999999996, which is neither 29 nor the exact product of 100
    and the [Number] 0.29. *)
Lemma riskScore_product_is_rounded :
  sa_severity (newSuspiciousActivity jan16_12h uncertainInit) = CRITICAL
  /\ sa_confidence (newSuspiciousActivity jan16_12h uncertainInit)
     = toDouble (29 # 100)
  /\ sa_riskScore (newSuspiciousActivity jan16_12h uncertainInit)
     = (8162774324609023 # 281474976710656)%Q
  /\ ~ (sa_riskScore (newSuspiciousActivity jan16_12h uncertainInit)
        == (100 # 1)
           * sa_confidence (newSuspiciousActivity jan16_12h uncertainInit))%Q
  /\ ~ (sa_riskScore (newSuspiciousActivity jan16_12h uncertainInit)
        == 29 # 1)%Q.
Proof.
  split; [reflexivity|]. split; [reflexivity|].
  split; [vm_compute; reflexivity|].
  split; vm_compute; discriminate.
Qed.

(* ================================================================= *)
(** * Relationship strength *)

Lemma strengthOf_spec (n : nat) :
  (strengthOf n = Strength.HIGH <-> (n > 10)%nat)
  /\ (strengthOf n = Strength.MEDIUM <-> (5 < n <= 10)%nat)
  /\ (strengthOf n = Strength.LOW <-> (n <= 5)%nat).
Proof.
  unfold strengthOf.
  destruct (Nat.ltb_spec 10 n); destruct (Nat.ltb_spec 5 n);
    repeat split; intros; try congruence; lia.
Qed.

(** C7. The strength of every edge the relationship query returns is HIGH
    iff its frequency is above 10, MEDIUM iff it is above 5 and at most
    10, LOW otherwise; frequency 10 gives MEDIUM and frequency 5 gives
    LOW. *)
Theorem relationship_strength_tiers (q_phoneNumber q_limit : option string)
    (db : list IPDR) (rels : list Relationship) (e : Relationship) :
  getNetworkRelationships q_phoneNumber q_limit db = Ok rels ->
  In e rels ->
  (strength e = Strength.HIGH <-> (frequency e > 10)%nat)
  /\ (strength e = Strength.MEDIUM <-> (5 < frequency e <= 10)%nat)
  /\ (strength e = Strength.LOW <-> (frequency e <= 5)%nat)
  /\ (frequency e = 10%nat -> strength e = Strength.MEDIUM)
  /\ (frequency e = 5%nat -> strength e = Strength.LOW).
Proof.
  intros Hq Hin. unfold getNetworkRelationships in Hq.
  destruct q_phoneNumber as [p|]; [|discriminate].
  destruct (p =? "")%string; [discriminate|].
  destruct (connections p _ db) as [conns|]; [|discriminate].
  inversion Hq; subst; clear Hq.
  apply in_map_iff in Hin. destruct Hin as [conn [<- _]].
  cbn [strength frequency relationshipOf].
  destruct (strengthOf_spec (conn_frequency conn)) as [H1 [H2 H3]].
  repeat split; try apply H1; try apply H2; try apply H3; auto;
    intros ->; reflexivity.
Qed.

Lemma relationship_strength_tiers_witness :
  Forall (fun e => strength e = Strength.LOW <-> (frequency e <= 5)%nat)
         (match getNetworkRelationships (Some "9876543210") None twoContacts
          with Ok rels => rels | _ => [] end).
Proof.
  apply Forall_forall. intros e He.
  apply (relationship_strength_tiers (Some "9876543210") None twoContacts
           _ e eq_refl He).
Defined.

(* ================================================================= *)
(** * The relationship builder *)

Lemma NoDup_firstn {A : Type} (n : nat) (l : list A) :
  NoDup l -> NoDup (firstn n l).
Proof.
  revert n. induction l as [|x l IH]; intros [|n] Hnd; simpl;
    try constructor.
  - inversion Hnd; subst. intros Hin. apply In_firstn_In in Hin. contradiction.
  - inversion Hnd; subst. now apply IH.
Qed.


Section RelationshipBuilder.
Variable phone : string.
Variable db : list IPDR.

Let matched : list IPDR :=
  filter (fun r => (phoneNumber r =? phone)%string) db.
Let grouped : list Connection :=
  map connectionOf (groupBy String.eqb destIP matched).
Let freqLeb (a b : Connection) : bool :=
  (conn_frequency b <=? conn_frequency a)%nat.

Lemma connections_default :
  connections phone (JNumber 50) db
  = Some (firstn 50 (sortBy freqLeb grouped)).
Proof. reflexivity. Qed.





End RelationshipBuilder.




(** With the same two sessions stored the other way round, the edge of
    the later contact comes first: among equal frequencies the order is
    that of the store. *)
Lemma relationships_ties_in_store_order :
  exists rels,
    getNetworkRelationships (Some "9876543210") None (rev twoContacts)
    = Ok rels
    /\ map rel_destIP rels = ["198.51.100.2"; "198.51.100.1"]
    /\ map frequency rels = [1%nat; 1%nat].
Proof.
  eexists. split; [reflexivity|]. split; reflexivity.
Qed.

(* ================================================================= *)
(** * Top communicators *)

Lemma communicatorLeb_spec (a b : Communicator) :
  communicatorLeb a b = true <-> byRiskThenSessions a b.
Proof.
  unfold communicatorLeb, byRiskThenSessions.
  destruct (tc_riskScore a ?= tc_riskScore b)%Q eqn:E.
  - apply Qeq_alt in E. rewrite Nat.leb_le. split.
    + intros H. right. now split.
    + intros [H | [_ H]]; [|exact H]. rewrite E in H.
      exfalso. revert H. apply Qlt_irrefl.
  - apply Qlt_alt in E. split; [discriminate|].
    intros [H | [H _]]; exfalso.
    + apply (Qlt_irrefl (tc_riskScore a)). now apply Qlt_trans with (2 := H).
    + rewrite H in E. revert E. apply Qlt_irrefl.
  - apply Qgt_alt in E. split; [|reflexivity]. intros _. now left.
Qed.

Lemma communicatorLeb_total (a b : Communicator) :
  communicatorLeb a b = true \/ communicatorLeb b a = true.
Proof.
  rewrite !communicatorLeb_spec. unfold byRiskThenSessions.
  destruct (Q_dec (tc_riskScore a) (tc_riskScore b)) as [[H | H] | H]; auto.
  destruct (Nat.le_ge_cases (tc_totalSessions a) (tc_totalSessions b)).
  - right. right. split; [now symmetry | assumption].
  - left. right. split; assumption.
Qed.

Lemma communicatorLeb_trans (a b c : Communicator) :
  communicatorLeb a b = true -> communicatorLeb b c = true ->
  communicatorLeb a c = true.
Proof.
  rewrite !communicatorLeb_spec. unfold byRiskThenSessions.
  intros [H1 | [H1 L1]] [H2 | [H2 L2]].
  - left. now apply Qlt_trans with (tc_riskScore b).
  - left. now rewrite <- H2.
  - left. now rewrite H1.
  - right. split; [now rewrite H1 | lia].
Qed.

Lemma StronglySorted_nth {A : Type} (R : A -> A -> Prop) (l : list A) :
  StronglySorted R l ->
  forall i j a b,
    (i < j)%nat -> nth_error l i = Some a -> nth_error l j = Some b -> R a b.
Proof.
  induction 1 as [|x l Hs IH Hall]; intros i j a b Hij Ha Hb.
  - destruct i; discriminate.
  - destruct j as [|j]; [lia|]. destruct i as [|i]; simpl in *.
    + inversion Ha; subst. rewrite Forall_forall in Hall.
      apply Hall. eapply nth_error_In; eauto.
    + apply (IH i j a b); [lia | assumption | assumption].
Qed.

Lemma skipn_nonempty_firstn {A : Type} (n : nat) (l : list A) :
  skipn n l <> [] -> List.length (firstn n l) = n.
Proof.
  intros H. rewrite length_firstn. apply Nat.min_l.
  destruct (Nat.le_gt_cases n (List.length l)) as [Hle|Hgt]; [exact Hle|].
  exfalso. apply H. apply skipn_all2. lia.
Qed.

(** C8, as the code has it.  The top-communicators query ranks one row
    per subject with a session that started in the window.  The session
    count and suspicious-session count of a row are those of the subject's
    records in the window; its risk score is the suspicious count times 10
    plus the session count over 100, computed in doubles.  The rows are
    ranked by that score descending, ties by session count descending,
    and the answer is the head of the ranking up to the limit, which is
    the number the caller supplied (10 when none, or zero, is supplied):
    no row left out ranks before a row of the answer.  A row of 3 sessions
    with 1 suspicious scores 10.03, a row of 5 sessions with none scores
    0.05, and the first stands before the second. *)
Theorem top_communicators_ranking (js : JSRuntime) (now : Z)
    (q_limit q_days : option string) (db : list IPDR) :
  let limit := parseIntOr js q_limit 10 in
  let startDate := windowStart now (parseIntOr js q_days 30) in
  let inWindow := filter (fun r => startDate <=? startTime r) db in
  0 < limit ->
  exists out rest,
    getTopCommunicators js now q_limit q_days db = Some out
    /\ (forall s n,
          q_limit = Some s -> parseInt js s = Some n -> n <> 0 -> limit = n)
    /\ (List.length out <= Z.to_nat limit)%nat
    /\ (rest <> [] -> List.length out = Z.to_nat limit)
    /\ NoDup (map tc_phoneNumber (out ++ rest))
    /\ (forall p, In p (map tc_phoneNumber (out ++ rest))
                  <-> In p (map phoneNumber inWindow))
    /\ (forall c, In c (out ++ rest) ->
          let sessions :=
            filter (fun r => (phoneNumber r =? tc_phoneNumber c)%string)
                   inWindow in
          tc_totalSessions c = List.length sessions
          /\ tc_suspiciousCount c = List.length (filter suspicious sessions)
          /\ tc_riskScore c
             = numAdd (Qnat (tc_suspiciousCount c * 10))
                      (numDiv (Qnat (tc_totalSessions c)) (100 # 1)))
    /\ StronglySorted byRiskThenSessions (out ++ rest)
    /\ (forall i j a b,
          nth_error out i = Some a -> nth_error out j = Some b ->
          tc_totalSessions a = 3%nat -> tc_suspiciousCount a = 1%nat ->
          tc_totalSessions b = 5%nat -> tc_suspiciousCount b = 0%nat ->
          tc_riskScore a = toDouble (1003 # 100)
          /\ tc_riskScore b = toDouble (5 # 100)
          /\ (i < j)%nat).
Proof.
  intros limit startDate inWindow Hpos.
  set (rows := map communicatorOf (groupBy String.eqb phoneNumber inWindow)).
  set (ranked := sortBy communicatorLeb rows).
  exists (firstn (Z.to_nat limit) ranked), (skipn (Z.to_nat limit) ranked).
  rewrite firstn_skipn.
  assert (Hperm : Permutation ranked rows) by apply sortBy_perm.
  assert (Hrow : forall c, In c ranked ->
                 exists g, In g (groupBy String.eqb phoneNumber inWindow)
                           /\ c = communicatorOf g).
  { intros c Hc. apply (Permutation_in _ Hperm) in Hc.
    apply in_map_iff in Hc. destruct Hc as [g [<- Hg]]. now exists g. }
  assert (Hall : StronglySorted byRiskThenSessions ranked).
  { eapply StronglySorted_impl;
      [|apply (sortBy_sorted communicatorLeb communicatorLeb_total
                 communicatorLeb_trans rows)].
    intros x y Hxy. now apply communicatorLeb_spec. }
  assert (Hsorted : StronglySorted byRiskThenSessions
                      (firstn (Z.to_nat limit) ranked))
    by now apply StronglySorted_firstn.
  assert (Hscore : forall c,
             In c ranked ->
             tc_riskScore c
             = numAdd (Qnat (tc_suspiciousCount c * 10))
                      (numDiv (Qnat (tc_totalSessions c)) (100 # 1))).
  { intros c Hc. destruct (Hrow c Hc) as [g [_ ->]]. reflexivity. }
  assert (Hnames : map tc_phoneNumber rows
                   = distinctBy String.eqb (map phoneNumber inWindow)).
  { unfold rows. rewrite map_map.
    rewrite (map_ext _ fst) by reflexivity.
    apply groupBy_keys. }
  split.
  { unfold getTopCommunicators, limitStage. fold limit.
    apply Z.ltb_lt in Hpos. rewrite Hpos. reflexivity. }
  split.
  { intros s n -> Hn Hnz. unfold limit, parseIntOr. rewrite Hn.
    destruct (Z.eqb_spec n 0); [contradiction | reflexivity]. }
  split; [apply firstn_le_length|].
  split; [apply skipn_nonempty_firstn|].
  split.
  { apply (Permutation_NoDup
             (Permutation_sym (Permutation_map tc_phoneNumber Hperm))).
    rewrite Hnames. apply (distinctBy_NoDup String.eqb String.eqb_eq). }
  split.
  { intros p.
    rewrite <- (distinctBy_In String.eqb String.eqb_eq p
                  (map phoneNumber inWindow)), <- Hnames.
    split; apply Permutation_in;
      [|apply Permutation_sym]; apply Permutation_map, Hperm. }
  split.
  { intros c Hc sessions. split; [|split; [|now apply Hscore]];
      destruct (Hrow c Hc) as [g [Hg ->]];
      destruct (groupBy_members String.eqb phoneNumber String.eqb_eq _ _ Hg)
        as [Hsnd _];
      cbn [tc_totalSessions tc_suspiciousCount tc_phoneNumber communicatorOf];
      unfold countSuspicious, sessions; cbn [tc_phoneNumber communicatorOf];
      now rewrite Hsnd. }
  split; [exact Hall|].
  intros i j a b Ha Hb Ha3 Ha1 Hb5 Hb0.
  assert (Hra : tc_riskScore a = toDouble (1003 # 100)).
  { rewrite (Hscore a (In_firstn_In _ _ _ (nth_error_In _ _ Ha))), Ha3, Ha1.
    vm_compute. reflexivity. }
  assert (Hrb : tc_riskScore b = toDouble (5 # 100)).
  { rewrite (Hscore b (In_firstn_In _ _ _ (nth_error_In _ _ Hb))), Hb5, Hb0.
    vm_compute. reflexivity. }
  split; [exact Hra|]. split; [exact Hrb|].
  destruct (Nat.lt_trichotomy i j) as [Hlt | [Heq | Hgt]]; [exact Hlt| |].
  - subst j. rewrite Ha in Hb. inversion Hb; subst. lia.
  - exfalso.
    pose proof (StronglySorted_nth _ _ Hsorted j i b a Hgt Hb Ha) as Hba.
    destruct Hba as [H | [H _]]; rewrite Hra, Hrb in H;
      vm_compute in H; discriminate H.
Qed.

(** On [fiveAndThree], within the default window and limit, subject B
    stands first. *)
Lemma top_communicators_ranking_witness :
  exists out,
    getTopCommunicators utc jan16_12h None None fiveAndThree = Some out
    /\ map tc_phoneNumber out = ["9000000002"; "9000000001"]
    /\ StronglySorted byRiskThenSessions out.
Proof.
  destruct (top_communicators_ranking utc jan16_12h None None fiveAndThree)
    as [out [rest [Hout [_ [_ [_ [_ [_ [_ [Hs _]]]]]]]]]].
  - reflexivity.
  - exists out. split; [exact Hout|].
    vm_compute in Hout. injection Hout as <-. split; [reflexivity|].
    repeat constructor; vm_compute; left; reflexivity.
Defined.

(** On [tiedScores] the two subjects have the same exact score, 11.12, and
    subject A has the more sessions; the doubles are 11.12 for A and
    11.120000000000001 for B, and B stands first. *)
Lemma top_communicators_rounded_scores :
  exists out,
    getTopCommunicators utc jan16_12h None None tiedScores = Some out
    /\ map tc_phoneNumber out = ["9000000002"; "9000000001"]
    /\ map tc_suspiciousCount out = [1%nat; 0%nat]
    /\ map tc_totalSessions out = [112%nat; 1112%nat]
    /\ Forall (fun c => exactRiskScore c == 1112 # 100)%Q out
    /\ ~ StronglySorted byExactRiskThenSessions out.
Proof.
  eexists. split; [vm_compute; reflexivity|].
  split; [reflexivity|]. split; [reflexivity|]. split; [reflexivity|].
  split; [repeat constructor; vm_compute; reflexivity|].
  intros Hs. inversion Hs as [|? ? _ Hall]; subst.
  inversion Hall as [|? ? Hab _]; subst.
  destruct Hab as [Hlt | [_ Hle]].
  - vm_compute in Hlt. discriminate Hlt.
  - cbn in Hle. lia.
Qed.

(* ================================================================= *)
(** * The dashboard on an empty window *)

Lemma filter_none {A : Type} (f : A -> bool) (l : list A) :
  (forall x, In x l -> f x = false) -> filter f l = [].
Proof.
  induction l as [|x l IH]; intros H; simpl; [reflexivity|].
  rewrite (H x (or_introl eq_refl)). apply IH.
  intros y Hy. apply H. now right.
Qed.

(** C9. When no record of the store falls in the window, the dashboard
    query answers with a summary whose record count and unique counts are
    zero, whose total volume reads "0 B" and whose breakdown and recent
    list are empty. *)
Theorem dashboard_empty_window (now : Z) (q_dateRange : option Z)
    (db : list IPDR) (acts : list SuspiciousActivity)
    (invs : list Investigation) :
  (forall r, In r db ->
             createdAt r < windowStart now (orDefault q_dateRange 30)) ->
  let stats := getDashboardStats now q_dateRange db acts invs in
  totalRecords stats = 0%nat
  /\ uniquePhoneNumbers stats = 0%nat
  /\ uniqueIPs stats = 0%nat
  /\ totalDataVolume stats = "0 B"
  /\ accessTypeBreakdown stats = []
  /\ recentActivity stats = [].
Proof.
  intros Hout stats.
  assert (Hnil : filter (fun r => windowStart now (orDefault q_dateRange 30)
                                  <=? createdAt r) db = []).
  { apply filter_none. intros r Hr. apply Z.leb_gt. now apply Hout. }
  unfold stats, getDashboardStats. cbv zeta. rewrite Hnil.
  repeat split.
Qed.

(** A store whose only record was ingested forty days before the query. *)
Lemma dashboard_empty_window_witness :
  totalDataVolume
    (getDashboardStats jan16_12h None
       [testIPDR 0 "9876543210" "198.51.100.1" jan15_10h
          (jan15_10h + 3600000) 1024 2048 false (jan16_12h - 40 * msPerDay)]
       [] [])
  = "0 B".
Proof.
  apply (dashboard_empty_window jan16_12h None
           [testIPDR 0 "9876543210" "198.51.100.1" jan15_10h
              (jan15_10h + 3600000) 1024 2048 false
              (jan16_12h - 40 * msPerDay)] [] []).
  intros r [<- | []]. vm_compute. reflexivity.
Defined.

(* ================================================================= *)
(** * The window of the dashboard and the window of the trends *)

Lemma filter_skip {A : Type} (f : A -> bool) (l1 l2 : list A) (x : A) :
  f x = false -> filter f (l1 ++ x :: l2) = filter f (l1 ++ l2).
Proof.
  intros Hx. rewrite !filter_app. simpl. now rewrite Hx.
Qed.

Lemma filter_keep_length {A : Type} (f : A -> bool) (l1 l2 : list A) (x : A) :
  f x = true ->
  List.length (filter f (l1 ++ x :: l2))
  = S (List.length (filter f (l1 ++ l2))).
Proof.
  intros Hx. rewrite !filter_app. simpl. rewrite Hx.
  rewrite !length_app. simpl. lia.
Qed.

Lemma listZ_eqb_eq (a b : list Z) : listZ_eqb a b = true <-> a = b.
Proof.
  revert b. induction a as [|x a IH]; intros [|y b]; simpl;
    try (split; [discriminate | congruence]); [tauto|].
  rewrite andb_true_iff, Z.eqb_eq, IH. split.
  - intros [-> ->]. reflexivity.
  - intros H. inversion H. now split.
Qed.

Lemma list_sum_cons (x : nat) (l : list nat) :
  list_sum (x :: l) = (x + list_sum l)%nat.
Proof. reflexivity. Qed.

Lemma list_sum_perm (l l' : list nat) :
  Permutation l l' -> list_sum l = list_sum l'.
Proof.
  induction 1; simpl; lia.
Qed.

Section GroupSizes.
Context {A K : Type} (eqb : K -> K -> bool) (key : A -> K).
Hypothesis eqb_eq : forall a b, eqb a b = true <-> a = b.

Lemma one_key_among (x : K) (ks : list K) :
  NoDup ks -> In x ks ->
  list_sum (map (fun k => if eqb x k then 1 else 0)%nat ks) = 1%nat.
Proof.
  induction 1 as [|k ks Hk Hnd IH]; intros Hin; [destruct Hin|].
  simpl. destruct (eqb x k) eqn:E.
  - apply eqb_eq in E. subst k.
    assert (Hz : list_sum (map (fun k => if eqb x k then 1 else 0)%nat ks)
                 = 0%nat).
    { clear IH Hin Hnd. induction ks as [|k ks IH]; [reflexivity|].
      simpl. destruct (eqb x k) eqn:E.
      - apply eqb_eq in E. subst k. exfalso. apply Hk. now left.
      - apply IH. intros H. apply Hk. now right. }
    rewrite Hz. reflexivity.
  - destruct Hin as [-> | Hin].
    + assert (E' : eqb x x = true) by now apply eqb_eq. congruence.
    + now rewrite IH.
Qed.

Lemma sizes_over_keys (ks : list K) (docs : list A) :
  NoDup ks -> (forall d, In d docs -> In (key d) ks) ->
  list_sum
    (map (fun k => List.length (filter (fun d => eqb (key d) k) docs)) ks)
  = List.length docs.
Proof.
  intros Hnd. induction docs as [|d docs IH]; intros Hin.
  - clear. induction ks; [reflexivity | simpl; assumption].
  - assert (Hsplit :
      list_sum
        (map (fun k =>
                List.length (filter (fun d => eqb (key d) k) (d :: docs)))
             ks)
      = (list_sum (map (fun k => if eqb (key d) k then 1 else 0) ks)
         + list_sum
             (map (fun k =>
                     List.length (filter (fun d => eqb (key d) k) docs))
                  ks))%nat).
    { clear. induction ks as [|k ks IHk]; [reflexivity|].
      rewrite !map_cons, !list_sum_cons, IHk. cbn [filter].
      destruct (eqb (key d) k); cbn [List.length]; lia. }
    rewrite Hsplit, IH by (intros; apply Hin; now right).
    rewrite (one_key_among (key d) ks Hnd (Hin d (or_introl eq_refl))).
    reflexivity.
Qed.

Lemma groupBy_sizes (docs : list A) :
  list_sum (map (fun g => List.length (snd g)) (groupBy eqb key docs))
  = List.length docs.
Proof.
  unfold groupBy. rewrite map_map. cbn [snd].
  apply sizes_over_keys.
  - now apply distinctBy_NoDup.
  - intros d Hd. apply (distinctBy_In eqb eqb_eq). now apply in_map.
Qed.
End GroupSizes.

Lemma trends_total (now : Z) (q_period : option string) (q_days : option Z)
    (db : list IPDR) :
  list_sum (map tb_count (getActivityTrends now q_period q_days db))
  = List.length
      (filter (fun r => windowStart now (orDefault q_days 30) <=? startTime r)
              db).
Proof.
  unfold getActivityTrends. cbv zeta.
  rewrite (list_sum_perm _ _ (Permutation_map tb_count (sortBy_perm _ _))).
  rewrite map_map. cbn [tb_count].
  apply (groupBy_sizes listZ_eqb _ listZ_eqb_eq).
Qed.

Lemma communicator_sessions (js : JSRuntime) (now : Z)
    (q_limit q_days : option string) (db : list IPDR)
    (out : list Communicator) (c : Communicator) :
  getTopCommunicators js now q_limit q_days db = Some out ->
  In c out ->
  tc_totalSessions c
  = List.length
      (filter (fun r => (phoneNumber r =? tc_phoneNumber c)%string)
         (filter (fun r => windowStart now (parseIntOr js q_days 30)
                           <=? startTime r) db)).
Proof.
  unfold getTopCommunicators, limitStage. cbv zeta.
  destruct (0 <? parseIntOr js q_limit 10); [|discriminate].
  intros Hout Hc. inversion Hout; subst; clear Hout.
  apply In_firstn_In in Hc.
  apply (Permutation_in _ (sortBy_perm _ _)) in Hc.
  apply in_map_iff in Hc. destruct Hc as [g [<- Hg]].
  destruct (groupBy_members String.eqb phoneNumber String.eqb_eq _ _ Hg)
    as [Hsnd _].
  cbn [tc_totalSessions tc_phoneNumber communicatorOf]. now rewrite Hsnd.
Qed.

Lemma ranked_sessions (l : list IPDR) (c : Communicator) :
  In c (sortBy communicatorLeb
          (map communicatorOf (groupBy String.eqb phoneNumber l))) ->
  tc_totalSessions c
  = List.length
      (filter (fun r => (phoneNumber r =? tc_phoneNumber c)%string) l).
Proof.
  intros Hc. apply (Permutation_in _ (sortBy_perm _ _)) in Hc.
  apply in_map_iff in Hc. destruct Hc as [g [<- Hg]].
  destruct (groupBy_members String.eqb phoneNumber String.eqb_eq _ _ Hg)
    as [Hsnd _].
  cbn [tc_totalSessions tc_phoneNumber communicatorOf]. now rewrite Hsnd.
Qed.

Lemma ranked_subject (l : list IPDR) (r : IPDR) :
  In r l ->
  exists c,
    In c (sortBy communicatorLeb
            (map communicatorOf (groupBy String.eqb phoneNumber l)))
    /\ tc_phoneNumber c = phoneNumber r.
Proof.
  intros Hr.
  assert (Hk : In (phoneNumber r)
                  (map fst (groupBy String.eqb phoneNumber l))).
  { rewrite groupBy_keys. apply (distinctBy_In String.eqb String.eqb_eq).
    now apply in_map. }
  apply in_map_iff in Hk. destruct Hk as [g [Hfst Hg]].
  exists (communicatorOf g). split.
  - apply (Permutation_in _ (Permutation_sym (sortBy_perm _ _))).
    now apply in_map.
  - exact Hfst.
Qed.

Lemma ranked_length (l : list IPDR) :
  List.length (sortBy communicatorLeb
                 (map communicatorOf (groupBy String.eqb phoneNumber l)))
  = List.length (distinctBy String.eqb (map phoneNumber l)).
Proof.
  rewrite (Permutation_length (sortBy_perm _ _)), length_map.
  rewrite <- (groupBy_keys String.eqb phoneNumber l). now rewrite length_map.
Qed.

(** C10. The dashboard filters on the ingestion time [createdAt], the
    trend and top-communicator queries on the session start [startTime],
    over the same trailing window.  A record that started before the
    window and was ingested inside it adds one to the dashboard total and
    changes neither the trends nor the communicators.  A record ingested
    before the window whose session starts inside it leaves the dashboard
    as it is and adds one to the trend counts; the communicator query,
    when its limit is positive, answers, and its answer has a row for the
    subject of the record that counts the record as a session (one more
    than the subject's other sessions in the window, which is what a row
    of the answer without the record counts), unless the answer is full
    and the window has more subjects than the limit. *)
Theorem window_on_createdAt_versus_startTime (js : JSRuntime) (now : Z)
    (q_dateRange q_days : option Z) (q_period : option string)
    (q_limit q_days' : option string)
    (acts : list SuspiciousActivity) (invs : list Investigation)
    (db1 db2 : list IPDR) (r : IPDR) :
  orDefault q_days 30 = orDefault q_dateRange 30 ->
  parseIntOr js q_days' 30 = orDefault q_dateRange 30 ->
  let startDate := windowStart now (orDefault q_dateRange 30) in
  let with_r := (db1 ++ r :: db2)%list in
  let without := (db1 ++ db2)%list in
  let others :=
    List.length
      (filter (fun x => (phoneNumber x =? phoneNumber r)%string)
         (filter (fun x => startDate <=? startTime x) without)) in
  let subjects :=
    List.length
      (distinctBy String.eqb
         (map phoneNumber
            (filter (fun x => startDate <=? startTime x) with_r))) in
  (startTime r < startDate <= createdAt r ->
   totalRecords (getDashboardStats now q_dateRange with_r acts invs)
   = S (totalRecords (getDashboardStats now q_dateRange without acts invs))
   /\ getActivityTrends now q_period q_days with_r
      = getActivityTrends now q_period q_days without
   /\ getTopCommunicators js now q_limit q_days' with_r
      = getTopCommunicators js now q_limit q_days' without)
  /\ (createdAt r < startDate <= startTime r ->
      getDashboardStats now q_dateRange with_r acts invs
      = getDashboardStats now q_dateRange without acts invs
      /\ list_sum (map tb_count (getActivityTrends now q_period q_days with_r))
         = S (list_sum
                (map tb_count (getActivityTrends now q_period q_days without)))
      /\ (forall out c,
             getTopCommunicators js now q_limit q_days' with_r = Some out ->
             In c out -> tc_phoneNumber c = phoneNumber r ->
             tc_totalSessions c = S others)
      /\ (forall out c,
             getTopCommunicators js now q_limit q_days' without = Some out ->
             In c out -> tc_phoneNumber c = phoneNumber r ->
             tc_totalSessions c = others)
      /\ (0 < parseIntOr js q_limit 10 ->
          exists out,
            getTopCommunicators js now q_limit q_days' with_r = Some out
            /\ ((exists c, In c out /\ tc_phoneNumber c = phoneNumber r
                           /\ tc_totalSessions c = S others)
                \/ (List.length out = Z.to_nat (parseIntOr js q_limit 10)
                    /\ (Z.to_nat (parseIntOr js q_limit 10) < subjects)%nat)))).
Proof.
  intros Hd Hd' startDate with_r without others subjects. split.
  - intros [Hstart Hcreated].
    assert (Hs : (startDate <=? startTime r) = false) by now apply Z.leb_gt.
    assert (Hc : (startDate <=? createdAt r) = true) by now apply Z.leb_le.
    split; [|split].
    + unfold getDashboardStats. cbv zeta. cbn [totalRecords].
      now apply filter_keep_length.
    + unfold getActivityTrends. cbv zeta. rewrite Hd.
      fold startDate. unfold with_r, without.
      now rewrite (filter_skip _ db1 db2 r Hs).
    + unfold getTopCommunicators. cbv zeta. rewrite Hd'.
      fold startDate. unfold with_r, without.
      now rewrite (filter_skip _ db1 db2 r Hs).
  - intros [Hcreated Hstart].
    assert (Hs : (startDate <=? startTime r) = true) by now apply Z.leb_le.
    assert (Hc : (startDate <=? createdAt r) = false) by now apply Z.leb_gt.
    assert (Hcount :
              List.length
                (filter (fun x => (phoneNumber x =? phoneNumber r)%string)
                   (filter (fun x => startDate <=? startTime x) with_r))
              = S others).
    { unfold others, with_r, without.
      rewrite !filter_app. cbn [filter]. rewrite Hs. cbn [filter].
      rewrite String.eqb_refl, !length_app. cbn [List.length]. lia. }
    split; [|split; [|split; [|split]]].
    + unfold getDashboardStats. cbv zeta.
      fold startDate. unfold with_r, without.
      now rewrite (filter_skip _ db1 db2 r Hc).
    + rewrite !trends_total, Hd. fold startDate.
      now apply filter_keep_length.
    + intros out c Hout Hin Hphone.
      rewrite (communicator_sessions _ _ _ _ _ _ _ Hout Hin).
      rewrite Hd', Hphone. fold startDate. exact Hcount.
    + intros out c Hout Hin Hphone.
      rewrite (communicator_sessions _ _ _ _ _ _ _ Hout Hin).
      rewrite Hd', Hphone. reflexivity.
    + intros Hpos.
      unfold getTopCommunicators, limitStage. cbv zeta.
      rewrite (proj2 (Z.ltb_lt _ _) Hpos), Hd'. fold startDate.
      set (inWindow := filter (fun x => startDate <=? startTime x) with_r).
      set (ranked := sortBy communicatorLeb
                       (map communicatorOf
                          (groupBy String.eqb phoneNumber inWindow))).
      set (n := Z.to_nat (parseIntOr js q_limit 10)).
      exists (firstn n ranked). split; [reflexivity|].
      assert (Hin : In r inWindow).
      { apply filter_In. split; [|exact Hs].
        apply in_or_app. right. now left. }
      destruct (ranked_subject inWindow r Hin) as [c [Hc' Hphone]].
      fold ranked in Hc'.
      rewrite <- (firstn_skipn n ranked) in Hc'.
      apply in_app_or in Hc'. destruct Hc' as [Hhead | Htail].
      * left. exists c. split; [exact Hhead|]. split; [exact Hphone|].
        rewrite (ranked_sessions inWindow c
                   (In_firstn_In _ _ _ Hhead)).
        rewrite Hphone. exact Hcount.
      * right.
        assert (Hne : skipn n ranked <> []).
        { intros E. rewrite E in Htail. destruct Htail. }
        pose proof (skipn_nonempty_firstn n ranked Hne) as Hlen.
        split; [exact Hlen|].
        unfold subjects. fold inWindow.
        rewrite <- (ranked_length inWindow). fold ranked.
        rewrite <- (firstn_skipn n ranked), length_app, Hlen.
        destruct (skipn n ranked); [contradiction|]. cbn [List.length]. lia.
Qed.

(** [oldSession] and [predatedRecord] seen from 16 January 2024 with the
    default windows of 30 days and the default limit. *)
Lemma window_on_createdAt_versus_startTime_witness :
  (totalRecords (getDashboardStats jan16_12h None [oldSession] [] []) = 1%nat
   /\ getActivityTrends jan16_12h None None [oldSession] = []
   /\ getTopCommunicators utc jan16_12h None None [oldSession] = Some [])
  /\ (totalRecords (getDashboardStats jan16_12h None [predatedRecord] [] [])
      = 0%nat
      /\ list_sum
           (map tb_count
              (getActivityTrends jan16_12h None None [predatedRecord]))
         = 1%nat
      /\ exists out,
           getTopCommunicators utc jan16_12h None None [predatedRecord]
           = Some out
           /\ exists c, In c out /\ tc_phoneNumber c = "9876543210"
                        /\ tc_totalSessions c = 1%nat).
Proof.
  split.
  - destruct (window_on_createdAt_versus_startTime utc jan16_12h None None
                None None None [] [] [] [] oldSession eq_refl eq_refl)
      as [H _].
    destruct H as [H1 [H2 H3]].
    + vm_compute. split; [reflexivity | discriminate].
    + split; [exact H1|]. split; [exact H2 | exact H3].
  - destruct (window_on_createdAt_versus_startTime utc jan16_12h None None
                None None None [] [] [] [] predatedRecord eq_refl eq_refl)
      as [_ H].
    destruct H as [H1 [H2 [_ [_ H5]]]].
    + vm_compute. split; [reflexivity | discriminate].
    + cbn [app] in H1.
      split; [rewrite H1; reflexivity|]. split; [exact H2|].
      destruct H5 as [out [Hout [[c Hc] | [_ Hfull]]]];
        [reflexivity | | vm_compute in Hfull; lia].
      exists out. split; [exact Hout|]. exists c. exact Hc.
Defined.

(* ================================================================= *)
(** * The bulk upload under its schedules *)

Section UploadRuns.
Variable js : JSRuntime.
Variable userId : string.
Variable now : Z.

Lemma run_app (jobs1 jobs2 : list Job) (u : Upload) :
  run js userId now (jobs1 ++ jobs2) u
  = match run js userId now jobs1 u with
    | Some u' => run js userId now jobs2 u'
    | None => None
    end.
Proof.
  revert u. induction jobs1 as [|j jobs1 IH]; intros u; simpl;
    [reflexivity|].
  destruct (step js userId now j u); [apply IH | reflexivity].
Qed.

Lemma newIPDR_id (id : nat) (d : RecordData) :
  match newIPDR 0 now d with
  | inl e => newIPDR id now d = inl e
  | inr r =>
      exists r', newIPDR id now d = inr r' /\ validate r' = validate r
  end.
Proof.
  unfold newIPDR.
  destruct (d_privatePort d), (d_publicPort d), (d_destPort d),
    (d_startTime d), (d_endTime d), (d_originLat d), (d_originLong d),
    (d_uplinkVolume d), (d_downlinkVolume d); try reflexivity.
  eexists. split; reflexivity.
Qed.

(** The outcome of a row does not depend on the identifier its document
    gets. *)
Lemma rowOutcome_id (id : nat) (row : CsvRow) :
  match rowOutcome js userId now 0 row with
  | inl e => rowOutcome js userId now id row = inl e
  | inr _ => exists doc, rowOutcome js userId now id row = inr doc
  end.
Proof.
  unfold rowOutcome, settle. cbn [h_record].
  pose proof (newIPDR_id id (mapRow js userId row)) as H.
  destruct (newIPDR 0 now (mapRow js userId row)) as [e|r].
  - now rewrite H.
  - destruct H as [r' [-> Hv]]. unfold save. rewrite Hv.
    destruct (validate r); [eexists; reflexivity | reflexivity].
Qed.

(** The effect of each job on the shared state. *)
Lemma onData_step (row : CsvRow) (rest : list CsvRow) (u : Upload) :
  source u = row :: rest ->
  exists u',
    onData js userId now u = Some u'
    /\ processed u' = S (processed u)
    /\ emitted u' = S (emitted u)
    /\ pending u'
       = (pending u
          ++ [(S (emitted u),
               {| h_row := row;
                  h_record :=
                    newIPDR (freshId (ipdrs (store u)) + emitted u) now
                            (mapRow js userId row) |})])%list
    /\ source u' = rest
    /\ created u' = created u
    /\ errors u' = errors u
    /\ store u' = store u
    /\ response u' = response u.
Proof.
  intros Hsrc. unfold onData. rewrite Hsrc.
  eexists. split; [reflexivity|]. cbn. repeat split.
Qed.

Lemma resume_head (k : nat) (h : Suspended) (rest : list (nat * Suspended))
    (u : Upload) :
  pending u = (k, h) :: rest ->
  exists u',
    resume js now k u = Some u'
    /\ processed u' = processed u
    /\ emitted u' = emitted u
    /\ pending u' = rest
    /\ source u' = source u
    /\ response u' = response u
    /\ match settle js now h with
       | inl e =>
           created u' = created u
           /\ errors u'
              = (errors u
                 ++ [{| e_row := processed u;
                        e_error := e;
                        e_data := h_row h |}])%list
           /\ ipdrs (store u') = ipdrs (store u)
       | inr doc =>
           created u' = S (created u)
           /\ errors u' = errors u
           /\ ipdrs (store u') = (ipdrs (store u) ++ [doc])%list
       end.
Proof.
  intros Hp. unfold resume. rewrite Hp. cbn [takeHandler].
  rewrite Nat.eqb_refl.
  destruct (settle js now h) as [e|doc];
    (eexists; split; [reflexivity|]; cbn; repeat split).
Qed.

Lemma onEnd_step (u : Upload) :
  source u = [] -> response u = None ->
  exists u',
    onEnd u = Some u'
    /\ processed u' = processed u
    /\ created u' = created u
    /\ errors u' = errors u
    /\ pending u' = pending u
    /\ source u' = source u
    /\ emitted u' = emitted u
    /\ store u' = store u
    /\ response u'
       = Some {| s_processed := processed u;
                 s_created := created u;
                 s_errors := List.length (errors u);
                 s_errorDetails := firstn 10 (errors u) |}.
Proof.
  intros Hsrc Hresp. unfold onEnd. rewrite Hsrc, Hresp.
  eexists. split; [reflexivity|]. cbn. repeat split.
Qed.

(** All the rows are emitted before any save settles. *)
Lemma data_phase (rows : list CsvRow) :
  forall u,
    source u = rows ->
    exists u',
      run js userId now (repeat OnData (List.length rows)) u = Some u'
      /\ processed u' = (processed u + List.length rows)%nat
      /\ emitted u' = (emitted u + List.length rows)%nat
      /\ pending u'
         = (pending u
            ++ handlersOf js userId now (freshId (ipdrs (store u)))
                 (emitted u) rows)%list
      /\ source u' = []
      /\ created u' = created u
      /\ errors u' = errors u
      /\ store u' = store u
      /\ response u' = response u.
Proof.
  induction rows as [|row rest IH]; intros u Hsrc.
  - exists u. cbn. rewrite app_nil_r, !Nat.add_0_r. repeat split.
    exact Hsrc.
  - destruct (onData_step row rest u Hsrc)
      as [u1 [Hrun [Hp [He [Hpend [Hs [Hc [Her [Hst Hr]]]]]]]]].
    destruct (IH u1 Hs)
      as [u2 [Hrun2 [Hp2 [He2 [Hpend2 [Hs2 [Hc2 [Her2 [Hst2 Hr2]]]]]]]]].
    exists u2. cbn [List.length repeat run step]. rewrite Hrun.
    split; [exact Hrun2|].
    rewrite Hp2, He2, Hpend2, Hs2, Hc2, Her2, Hst2, Hr2.
    rewrite Hp, He, Hpend, Hc, Her, Hst, Hr.
    cbn [handlersOf]. rewrite <- app_assoc. cbn [app].
    repeat split; lia.
Qed.

(** The saves of the waiting handlers settle in the order of the rows. *)
Lemma settle_phase (rows : list CsvRow) :
  forall base e u,
    pending u = handlersOf js userId now base e rows ->
    exists u',
      run js userId now (map Resume (seq (S e) (List.length rows))) u
      = Some u'
      /\ processed u' = processed u
      /\ emitted u' = emitted u
      /\ pending u' = []
      /\ source u' = source u
      /\ response u' = response u
      /\ created u' = (created u + okCount js userId now rows)%nat
      /\ errors u'
         = (errors u
            ++ failureEntries js userId now (fun _ => processed u) (S e)
                 rows)%list
      /\ List.length (ipdrs (store u'))
         = (List.length (ipdrs (store u)) + okCount js userId now rows)%nat.
Proof.
  induction rows as [|row rest IH]; intros base e u Hpend.
  - exists u. cbn. rewrite app_nil_r, !Nat.add_0_r. repeat split.
    exact Hpend.
  - cbn [handlersOf] in Hpend.
    destruct (resume_head _ _ _ u Hpend)
      as [u1 [Hrun [Hp [He [Hpend1 [Hs [Hr Hout]]]]]]].
    destruct (IH base (S e) u1 Hpend1)
      as [u2 [Hrun2 [Hp2 [He2 [Hpend2 [Hs2 [Hr2 [Hc2 [Her2 Hst2]]]]]]]]].
    exists u2. cbn [List.length seq map run step]. rewrite Hrun.
    split; [exact Hrun2|].
    rewrite Hp2, He2, Hs2, Hr2, Hc2, Her2, Hst2, Hp.
    do 5 (split; [congruence|]).
    unfold okCount, rowFails. cbn [filter failureEntries].
    pose proof (rowOutcome_id (base + e) row) as Hid.
    unfold rowOutcome in Hid at 2 3. cbn [h_row] in Hout.
    destruct (rowOutcome js userId now 0 row) as [err|doc0].
    + rewrite Hid in Hout. destruct Hout as [-> [-> ->]].
      cbn [negb]. rewrite <- app_assoc. repeat split.
    + destruct Hid as [doc Hid]. rewrite Hid in Hout.
      destruct Hout as [-> [-> ->]].
      cbn [negb List.length]. rewrite length_app. cbn [List.length].
      repeat split; lia.
Qed.

(** The save of each row settles before the next row is emitted. *)
Lemma oneByOne_phase (rows : list CsvRow) :
  forall u,
    source u = rows -> pending u = [] -> processed u = emitted u ->
    exists u',
      run js userId now
        (flat_map (fun k => [OnData; Resume k])
                  (seq (S (emitted u)) (List.length rows))) u
      = Some u'
      /\ processed u' = (processed u + List.length rows)%nat
      /\ emitted u' = (emitted u + List.length rows)%nat
      /\ pending u' = []
      /\ source u' = []
      /\ response u' = response u
      /\ created u' = (created u + okCount js userId now rows)%nat
      /\ errors u'
         = (errors u
            ++ failureEntries js userId now (fun k => k) (S (emitted u))
                 rows)%list
      /\ List.length (ipdrs (store u'))
         = (List.length (ipdrs (store u)) + okCount js userId now rows)%nat.
Proof.
  induction rows as [|row rest IH]; intros u Hsrc Hpend Hpe.
  - exists u. cbn. rewrite app_nil_r, !Nat.add_0_r. repeat split;
      assumption.
  - destruct (onData_step row rest u Hsrc)
      as [u1 [Hrun1 [Hp1 [He1 [Hpend1 [Hs1 [Hc1 [Her1 [Hst1 Hr1]]]]]]]]].
    rewrite Hpend in Hpend1. cbn [app] in Hpend1.
    destruct (resume_head _ _ _ u1 Hpend1)
      as [u2 [Hrun2 [Hp2 [He2 [Hpend2 [Hs2 [Hr2 Hout]]]]]]].
    assert (Hpe2 : processed u2 = emitted u2) by congruence.
    rewrite Hs1 in Hs2.
    destruct (IH u2 Hs2 Hpend2 Hpe2)
      as [u3 [Hrun3 [Hp3 [He3 [Hpend3 [Hs3 [Hr3 [Hc3 [Her3 Hst3]]]]]]]]].
    exists u3. cbn [List.length seq flat_map app run step].
    rewrite Hrun1. rewrite Hrun2.
    rewrite He2, He1 in Hrun3, Her3, He3.
    split; [exact Hrun3|].
    rewrite Hp3, He3, Hc3, Her3, Hst3, Hr3, Hp2, Hp1, Hr2, Hr1.
    do 5 (split; [first [assumption | lia | reflexivity]|]).
    unfold okCount, rowFails. cbn [filter failureEntries].
    pose proof (rowOutcome_id (freshId (ipdrs (store u)) + emitted u)
                  row) as Hid.
    unfold rowOutcome in Hid at 2 3. cbn [h_row] in Hout.
    destruct (rowOutcome js userId now 0 row) as [err|doc0].
    + rewrite Hid in Hout. destruct Hout as [-> [-> ->]].
      rewrite Hc1, Her1, Hst1, Hp1, Hpe.
      cbn [negb]. rewrite <- app_assoc. repeat split.
    + destruct Hid as [doc Hid]. rewrite Hid in Hout.
      destruct Hout as [-> [-> ->]].
      rewrite Hc1, Her1, Hst1.
      cbn [negb List.length]. rewrite length_app. cbn [List.length].
      repeat split; lia.
Qed.

(** A file in which only the row at position [length before + 1] is
    rejected. *)
Lemma failureEntries_one (label : nat -> nat) (before after : list CsvRow)
    (bad : CsvRow) (e : list string) :
  forall first,
    (forall row, In row (before ++ after) ->
                 rowFails js userId now row = false) ->
    rowOutcome js userId now 0 bad = inl e ->
    failureEntries js userId now label first (before ++ bad :: after)
    = [{| e_row := label (first + List.length before)%nat;
          e_error := e;
          e_data := bad |}]
    /\ okCount js userId now (before ++ bad :: after)
       = (List.length before + List.length after)%nat.
Proof.
  assert (Hnone : forall rows first,
             (forall row, In row rows -> rowFails js userId now row = false) ->
             failureEntries js userId now label first rows = []
             /\ okCount js userId now rows = List.length rows).
  { induction rows as [|row rows IH]; intros first Hok; [now split|].
    pose proof (Hok row (or_introl eq_refl)) as Hrow.
    destruct (IH (S first) (fun x Hx => Hok x (or_intror Hx))) as [IH1 IH2].
    unfold okCount in *. cbn [failureEntries filter]. rewrite Hrow.
    unfold rowFails in Hrow.
    destruct (rowOutcome js userId now 0 row); [discriminate|].
    cbn [negb List.length]. now rewrite IH1, IH2. }
  assert (Hbf : forall bad e,
             rowOutcome js userId now 0 bad = inl e ->
             rowFails js userId now bad = true).
  { intros b0 e0 H0. unfold rowFails. now rewrite H0. }
  induction before as [|row before IH]; intros first Hok Hbad.
  - cbn [app failureEntries List.length]. rewrite Hbad.
    destruct (Hnone after (S first) Hok) as [-> Hc].
    rewrite Nat.add_0_r. split; [reflexivity|].
    unfold okCount in *. cbn [filter]. rewrite (Hbf _ _ Hbad). exact Hc.
  - pose proof (Hok row (or_introl eq_refl)) as Hrow.
    destruct (IH (S first) (fun x Hx => Hok x (or_intror Hx)) Hbad)
      as [IH1 IH2].
    unfold okCount in *.
    cbn [app failureEntries filter List.length]. rewrite Hrow.
    unfold rowFails in Hrow.
    destruct (rowOutcome js userId now 0 row); [discriminate|].
    cbn [negb List.length]. rewrite IH1, IH2.
    replace (first + S (List.length before))%nat
      with (S first + List.length before)%nat by lia.
    split; reflexivity.
Qed.

(** When the save of each row settles before the next row is emitted,
    the summary counts every row, counts the rows written, and lists
    each rejected row under its own position. *)
Lemma upload_oneByOne (rows : list CsvRow) (st : Store) :
  exists u,
    uploadRecords js userId now rows st (oneByOne (List.length rows))
    = Some u
    /\ response u
       = Some {| s_processed := List.length rows;
                 s_created := okCount js userId now rows;
                 s_errors :=
                   List.length
                     (failureEntries js userId now (fun k => k) 1 rows);
                 s_errorDetails :=
                   firstn 10
                     (failureEntries js userId now (fun k => k) 1 rows) |}
    /\ List.length (ipdrs (store u))
       = (List.length (ipdrs st) + okCount js userId now rows)%nat.
Proof.
  unfold uploadRecords, oneByOne. rewrite run_app.
  destruct (oneByOne_phase rows (startUpload rows st) eq_refl eq_refl
              eq_refl)
    as [u1 [Hrun [Hp [He [Hpend [Hs [Hr [Hc [Her Hst]]]]]]]]].
  cbn [emitted startUpload] in Hrun. rewrite Hrun.
  destruct (onEnd_step u1 Hs Hr)
    as [u2 [Hrun2 [_ [_ [_ [_ [_ [_ [Hst2 Hr2]]]]]]]]].
  exists u2. cbn [run step]. rewrite Hrun2.
  split; [reflexivity|]. rewrite Hr2, Hst2, Hp, Hc, Her, Hst.
  split; reflexivity.
Qed.

(** When all the rows are emitted before the saves settle, the summary
    lists each rejected row under the number of rows of the file. *)
Lemma upload_burst (rows : list CsvRow) (st : Store) :
  exists u,
    uploadRecords js userId now rows st (burst (List.length rows)) = Some u
    /\ response u
       = Some {| s_processed := List.length rows;
                 s_created := okCount js userId now rows;
                 s_errors :=
                   List.length
                     (failureEntries js userId now
                        (fun _ => List.length rows) 1 rows);
                 s_errorDetails :=
                   firstn 10
                     (failureEntries js userId now
                        (fun _ => List.length rows) 1 rows) |}
    /\ List.length (ipdrs (store u))
       = (List.length (ipdrs st) + okCount js userId now rows)%nat.
Proof.
  unfold uploadRecords, burst. rewrite run_app.
  destruct (data_phase rows (startUpload rows st) eq_refl)
    as [u1 [Hrun1 [Hp1 [He1 [Hpend1 [Hs1 [Hc1 [Her1 [Hst1 Hr1]]]]]]]]].
  rewrite Hrun1, run_app. cbn [pending startUpload app] in Hpend1.
  destruct (settle_phase rows _ _ u1 Hpend1)
    as [u2 [Hrun2 [Hp2 [He2 [Hpend2 [Hs2 [Hr2 [Hc2 [Her2 Hst2]]]]]]]]].
  cbn [emitted startUpload] in Hrun2. rewrite Hrun2.
  rewrite Hs1 in Hs2. rewrite Hr1 in Hr2.
  destruct (onEnd_step u2 Hs2 Hr2)
    as [u3 [Hrun3 [_ [_ [_ [_ [_ [_ [Hst3 Hr3]]]]]]]]].
  exists u3. cbn [run step]. rewrite Hrun3.
  split; [reflexivity|].
  rewrite Hr3, Hst3, Hp2, Hc2, Her2, Hst2, Hp1, Hc1, Her1, Hst1.
  split; reflexivity.
Qed.

(** When ['end'] comes before the saves settle, the summary reports no
    row written and no row rejected, whatever becomes of the rows. *)
Lemma upload_earlyEnd (rows : list CsvRow) (st : Store) :
  exists u,
    uploadRecords js userId now rows st (earlyEnd (List.length rows))
    = Some u
    /\ response u
       = Some {| s_processed := List.length rows;
                 s_created := 0;
                 s_errors := 0;
                 s_errorDetails := [] |}
    /\ created u = okCount js userId now rows
    /\ List.length (ipdrs (store u))
       = (List.length (ipdrs st) + okCount js userId now rows)%nat.
Proof.
  unfold uploadRecords, earlyEnd. rewrite run_app.
  destruct (data_phase rows (startUpload rows st) eq_refl)
    as [u1 [Hrun1 [Hp1 [He1 [Hpend1 [Hs1 [Hc1 [Her1 [Hst1 Hr1]]]]]]]]].
  rewrite Hrun1. cbn [pending startUpload app] in Hpend1.
  destruct (onEnd_step u1 Hs1 Hr1)
    as [u2 [Hrun2 [Hp2 [Hc2 [Her2 [Hpend2 [_ [_ [Hst2 Hr2]]]]]]]]].
  cbn [app run step]. rewrite Hrun2.
  rewrite Hpend1 in Hpend2.
  destruct (settle_phase rows _ _ u2 Hpend2)
    as [u3 [Hrun3 [_ [_ [_ [_ [Hr3 [Hc3 [_ Hst3]]]]]]]]].
  cbn [emitted startUpload] in Hrun3.
  exists u3. split; [exact Hrun3|].
  rewrite Hr3, Hr2, Hc3, Hst3, Hc2, Hst2, Hp1, Hc1, Her1, Hst1.
  repeat split.
Qed.

Lemma takeHandler_length (k : nat) (l rest : list (nat * Suspended))
    (h : Suspended) :
  takeHandler k l = Some (h, rest) -> List.length l = S (List.length rest).
Proof.
  revert rest. induction l as [|[k' h'] l IH]; intros rest; simpl;
    [discriminate|].
  destruct (Nat.eqb k k').
  - intros H. inversion H; subst. reflexivity.
  - destruct (takeHandler k l) as [[h0 rest0]|]; [|discriminate].
    intros H. inversion H; subst. simpl. f_equal. now apply IH.
Qed.

Lemma step_invariant (n : nat) (j : Job) (u u' : Upload) :
  uploadInvariant n u -> step js userId now j u = Some u' ->
  uploadInvariant n u'.
Proof.
  intros [Hp [Hn [Hall Hresp]]]. destruct j as [|k|]; cbn [step].
  - unfold onData. destruct (source u) as [|row rest] eqn:Hsrc;
      [discriminate|].
    intros H. injection H as <-. unfold uploadInvariant. cbn.
    rewrite length_app. cbn. cbn in Hn.
    repeat split; try lia; assumption.
  - unfold resume.
    destruct (takeHandler k (pending u)) as [[h rest]|] eqn:Ht;
      [|discriminate].
    apply takeHandler_length in Ht.
    destruct (settle js now h); intros H; injection H as <-;
      unfold uploadInvariant; cbn; try rewrite length_app; cbn;
      repeat split; try lia; assumption.
  - unfold onEnd. destruct (source u) eqn:Hsrc; [|discriminate].
    destruct (response u); [discriminate|].
    intros H. injection H as <-. unfold uploadInvariant. cbn.
    cbn in Hn. repeat split; try lia.
    intros s Hs. injection Hs as <-. cbn. lia.
Qed.

(** Whatever the schedule: the summary counts all the rows of the file,
    and no row is lost, since the rows written, those rejected and those
    whose save has not settled add up to the rows emitted. *)
Lemma upload_any_schedule (rows : list CsvRow) (st : Store)
    (jobs : list Job) (u : Upload) :
  uploadRecords js userId now rows st jobs = Some u ->
  uploadInvariant (List.length rows) u.
Proof.
  unfold uploadRecords.
  assert (H0 : uploadInvariant (List.length rows) (startUpload rows st)).
  { unfold uploadInvariant. cbn. repeat split. discriminate. }
  revert H0. generalize (startUpload rows st).
  induction jobs as [|j jobs IH]; intros u0 H0; cbn [run].
  - intros H. injection H as <-. exact H0.
  - destruct (step js userId now j u0) as [u1|] eqn:Hstep; [|discriminate].
    apply IH. eapply step_invariant; eauto.
Qed.
End UploadRuns.

(** With one rejected row in the file, under [oneByOne] the summary is the
    one the specification asks for: every row counted, all but one
    written, one failure entry under the position of the rejected row. *)
Lemma one_bad_row_oneByOne (js : JSRuntime) (userId : string) (now : Z)
    (before after : list CsvRow) (bad : CsvRow) (e : list string)
    (st : Store) :
  (forall row, In row (before ++ after) ->
               rowFails js userId now row = false) ->
  rowOutcome js userId now 0 bad = inl e ->
  let rows := (before ++ bad :: after)%list in
  exists u,
    uploadRecords js userId now rows st (oneByOne (List.length rows)) = Some u
    /\ response u
       = Some {| s_processed := List.length rows;
                 s_created := (List.length rows - 1)%nat;
                 s_errors := 1;
                 s_errorDetails :=
                   [{| e_row := S (List.length before);
                       e_error := e;
                       e_data := bad |}] |}
    /\ List.length (ipdrs (store u))
       = (List.length (ipdrs st) + (List.length rows - 1))%nat.
Proof.
  intros Hok Hbad rows.
  destruct (upload_oneByOne js userId now rows st) as [u [Hrun [Hr Hst]]].
  destruct (failureEntries_one js userId now (fun k => k) before after bad e
              1%nat Hok Hbad) as [Hf Hc].
  fold rows in Hf, Hc.
  exists u. split; [exact Hrun|].
  assert (Hlen : (List.length rows - 1)%nat = okCount js userId now rows).
  { rewrite Hc. unfold rows. rewrite length_app. cbn [List.length]. lia. }
  rewrite Hr, Hst, Hf, Hlen. split; reflexivity.
Qed.

(** With one rejected row in the file, under [burst] the failure entry
    carries the number of rows of the file, not the position of the
    rejected row. *)
Lemma one_bad_row_burst (js : JSRuntime) (userId : string) (now : Z)
    (before after : list CsvRow) (bad : CsvRow) (e : list string)
    (st : Store) :
  (forall row, In row (before ++ after) ->
               rowFails js userId now row = false) ->
  rowOutcome js userId now 0 bad = inl e ->
  let rows := (before ++ bad :: after)%list in
  exists u,
    uploadRecords js userId now rows st (burst (List.length rows)) = Some u
    /\ response u
       = Some {| s_processed := List.length rows;
                 s_created := (List.length rows - 1)%nat;
                 s_errors := 1;
                 s_errorDetails :=
                   [{| e_row := List.length rows;
                       e_error := e;
                       e_data := bad |}] |}.
Proof.
  intros Hok Hbad rows.
  destruct (upload_burst js userId now rows st) as [u [Hrun [Hr _]]].
  destruct (failureEntries_one js userId now (fun _ => List.length rows)
              before after bad e 1%nat Hok Hbad) as [Hf Hc].
  fold rows in Hf, Hc.
  exists u. split; [exact Hrun|].
  assert (Hlen : (List.length rows - 1)%nat = okCount js userId now rows).
  { rewrite Hc. unfold rows. rewrite length_app. cbn [List.length]. lia. }
  rewrite Hr, Hf, Hlen. reflexivity.
Qed.

(** C2, on [batch3].  The first row is rejected and the other two are
    written.  When the three rows are emitted before the first save
    settles, the failure entry carries row 3; when ['end'] comes before
    the saves settle, the summary reports nothing written and nothing
    rejected; only when each save settles before the next row is emitted
    does the entry carry row 1. *)
Theorem upload_batch3_failure_row :
  map (rowFails utc "analyst" jan16_12h) batch3 = [true; false; false]
  /\ uploadReport
       (uploadRecords utc "analyst" jan16_12h batch3 emptyStore (burst 3))
     = Some (Some (3, 2, 1, [3]), 2, [3], 2)%nat
  /\ uploadReport
       (uploadRecords utc "analyst" jan16_12h batch3 emptyStore (earlyEnd 3))
     = Some (Some (3, 0, 0, []), 2, [3], 2)%nat
  /\ uploadReport
       (uploadRecords utc "analyst" jan16_12h batch3 emptyStore (oneByOne 3))
     = Some (Some (3, 2, 1, [1]), 2, [1], 2)%nat.
Proof.
  repeat split; vm_compute; reflexivity.
Qed.


(* ================================================================= *)
(** * The address validator *)

Lemma append_empty_r (s : string) : (s ++ "")%string = s.
Proof. induction s as [|c s IH]; simpl; [reflexivity | now rewrite IH]. Qed.

Lemma spanDigits_app (p rest : string) :
  allDigits p = true ->
  (match rest with
   | EmptyString => true
   | String c _ => negb (isDigit c)
   end = true) ->
  spanDigits (p ++ rest) = (String.length p, rest).
Proof.
  intros Hp Hrest. induction p as [|c p IH]; simpl.
  - destruct rest as [|c r]; [reflexivity|].
    simpl. apply negb_true_iff in Hrest. now rewrite Hrest.
  - simpl in Hp. apply andb_true_iff in Hp. destruct Hp as [Hc Hp].
    now rewrite Hc, (IH Hp).
Qed.

Lemma spanDigits_inv (s rest : string) (n : nat) :
  spanDigits s = (n, rest) ->
  exists p, s = (p ++ rest)%string /\ allDigits p = true
            /\ String.length p = n.
Proof.
  revert n rest. induction s as [|c s IH]; intros n rest; simpl.
  - intros H. injection H as <- <-. now exists "".
  - destruct (isDigit c) eqn:Hc.
    + destruct (spanDigits s) as [m rest'] eqn:Hs.
      intros H. injection H as <- <-.
      destruct (IH m rest' eq_refl) as [p [-> [Hp Hlen]]].
      exists (String c p). simpl. rewrite Hc, Hp, Hlen. now repeat split.
    + intros H. injection H as <- <-. now exists "".
Qed.

Lemma octetGroup_end (s : string) : octetGroup s = Some "" <-> octet s.
Proof.
  unfold octetGroup, octet. split.
  - destruct (spanDigits s) as [n rest] eqn:Hs.
    destruct (spanDigits_inv _ _ _ Hs) as [p [-> [Hp Hlen]]].
    destruct ((1 <=? n)%nat && (n <=? 3)%nat) eqn:Hn; [|discriminate].
    intros H. injection H as ->. rewrite append_empty_r.
    apply andb_true_iff in Hn. rewrite !Nat.leb_le in Hn. split; [exact Hp|lia].
  - intros [Hp Hlen]. rewrite <- (append_empty_r s).
    rewrite (spanDigits_app s "" Hp eq_refl).
    destruct (Nat.leb_spec 1 (String.length s)); [|lia].
    destruct (Nat.leb_spec (String.length s) 3); [reflexivity|lia].
Qed.

Lemma dottedGroup_spec (s rest : string) :
  dottedGroup s = Some rest
  <-> exists p, octet p /\ s = (p ++ "." ++ rest)%string.
Proof.
  unfold dottedGroup, octetGroup, octet. split.
  - destruct (spanDigits s) as [n rest'] eqn:Hs.
    destruct (spanDigits_inv _ _ _ Hs) as [p [-> [Hp Hlen]]].
    destruct ((1 <=? n)%nat && (n <=? 3)%nat) eqn:Hn; [|discriminate].
    apply andb_true_iff in Hn. rewrite !Nat.leb_le in Hn.
    destruct rest' as [|c r]; [discriminate|].
    destruct (Ascii.eqb_spec c "."%char) as [->|Hne].
    + intros H. injection H as ->. exists p. repeat split; [exact Hp|lia|lia].
    + intros H. exfalso.
      destruct c as [[] [] [] [] [] [] [] []]; try discriminate H.
      now apply Hne.
  - intros [p [[Hp Hlen] ->]].
    change (p ++ "." ++ rest)%string with (p ++ String "."%char rest)%string.
    rewrite (spanDigits_app p (String "."%char rest) Hp eq_refl).
    destruct (Nat.leb_spec 1 (String.length p)); [|lia].
    destruct (Nat.leb_spec (String.length p) 3); [reflexivity|lia].
Qed.

(** X1. The address validator accepts exactly four groups of one to three
    decimal digits separated by dots; it puts no bound on the value of a
    group, so 999.999.999.999 passes. *)
Theorem ipFormat_dotted_groups (v : string) :
  (ipFormat v = true
   <-> exists a b c d,
         octet a /\ octet b /\ octet c /\ octet d
         /\ v = (a ++ "." ++ b ++ "." ++ c ++ "." ++ d)%string)
  /\ ipFormat "999.999.999.999" = true.
Proof.
  split; [|reflexivity]. unfold ipFormat. split.
  - destruct (dottedGroup v) as [s1|] eqn:H1; [|discriminate].
    destruct (dottedGroup s1) as [s2|] eqn:H2; [|discriminate].
    destruct (dottedGroup s2) as [s3|] eqn:H3; [|discriminate].
    destruct (octetGroup s3) as [[|c r]|] eqn:H4; try discriminate.
    intros _.
    apply dottedGroup_spec in H1. destruct H1 as [a [Ha ->]].
    apply dottedGroup_spec in H2. destruct H2 as [b [Hb ->]].
    apply dottedGroup_spec in H3. destruct H3 as [c [Hc ->]].
    apply octetGroup_end in H4.
    exists a, b, c, s3.
    split; [exact Ha|]. split; [exact Hb|]. split; [exact Hc|].
    split; [exact H4 | reflexivity].
  - intros [a [b [c [d [Ha [Hb [Hc [Hd ->]]]]]]]].
    rewrite (proj2 (dottedGroup_spec _ _) (ex_intro _ a (conj Ha eq_refl))).
    rewrite (proj2 (dottedGroup_spec _ _) (ex_intro _ b (conj Hb eq_refl))).
    rewrite (proj2 (dottedGroup_spec _ _) (ex_intro _ c (conj Hc eq_refl))).
    now rewrite (proj2 (octetGroup_end d) Hd).
Qed.

(* ================================================================= *)
(** * The duration in minutes *)





(* ================================================================= *)
(** * What the collections hold *)

Lemma save_wellFormed (js : JSRuntime) (now : Z) (r r' : IPDR) :
  save js now r = inr r' -> wellFormed js r'.
Proof.
  intros Hsave. apply save_inr in Hsave. destruct Hsave as [Hvalid ->].
  unfold wellFormed. rewrite validate_preSave.
  split; [exact Hvalid|]. split; [intros _; reflexivity|].
  split; [intros _; reflexivity|].
  split; [reflexivity|]. split.
  - intros c. unfold preSave. rewrite checkSuspicious_reasons.
    destruct c; reflexivity.
  - apply checkSuspicious_flag.
Qed.

Lemma freshId_gt (docs : list IPDR) (id : nat) :
  In id (map _id docs) -> (id < freshId docs)%nat.
Proof.
  intros Hin. unfold freshId.
  assert (H : Forall (fun k => (k <= list_max (map _id docs))%nat)
                     (map _id docs)) by now apply list_max_le.
  rewrite Forall_forall in H. specialize (H id Hin). lia.
Qed.

Lemma freshId_app (docs : list IPDR) (r : IPDR) :
  (freshId docs <= freshId (docs ++ [r]))%nat.
Proof. unfold freshId. rewrite map_app, list_max_app. lia. Qed.

Lemma newIPDR_gets_id (id : nat) (now : Z) (d : RecordData) (r : IPDR) :
  newIPDR id now d = inr r -> _id r = id.
Proof.
  unfold newIPDR.
  destruct (d_privatePort d), (d_publicPort d), (d_destPort d),
    (d_startTime d), (d_endTime d), (d_originLat d), (d_originLong d),
    (d_uplinkVolume d), (d_downlinkVolume d);
    intros H; try discriminate H. injection H as <-. reflexivity.
Qed.

Lemma save_keeps_id (js : JSRuntime) (now : Z) (r r' : IPDR) :
  save js now r = inr r' -> _id r' = _id r.
Proof. intros H. apply save_inr in H. destruct H as [_ ->]. reflexivity. Qed.

Lemma storeConsistent_add (js : JSRuntime) (st : Store)
    (record : IPDR) (acts : list SuspiciousActivity) :
  storeConsistent js st -> wellFormed js record ->
  ~ In (_id record) (map _id (ipdrs st)) ->
  acts = activities st
  \/ (exists now, acts = createSuspiciousActivity js now record
                           (activities st)) ->
  storeConsistent js
    {| ipdrs := (ipdrs st ++ [record])%list; activities := acts |}.
Proof.
  intros [Hrec [Hids Hact]] Hwf Hnew Hacts.
  split; [|split]; cbn [ipdrs activities].
  - apply Forall_app. split; [exact Hrec | now constructor].
  - rewrite map_app. cbn [map]. apply NoDup_app; [exact Hids | |].
    + constructor; [intros [] | constructor].
    + intros x Hx [<- | []]. now apply Hnew.
  - assert (Hold : Forall (fun a => exists r,
                              In r (ipdrs st ++ [record])
                              /\ sa_ipdrRecords a = [_id r]
                              /\ sa_phoneNumber a = phoneNumber r
                              /\ In (sa_type a) (suspiciousReasons r))
                          (activities st)).
    { eapply Forall_impl; [|exact Hact].
      intros a [r [Hin H]]. exists r. split; [|exact H].
      apply in_or_app. now left. }
    destruct Hacts as [-> | [now ->]]; [exact Hold|].
    rewrite createSuspiciousActivity_app. apply Forall_app.
    split; [exact Hold|].
    apply Forall_forall. intros a Ha. apply in_map_iff in Ha.
    destruct Ha as [c [<- Hc]]. exists record.
    split; [apply in_or_app; right; now left|]. now repeat split.
Qed.

Lemma takeHandler_perm (k : nat) (l rest : list (nat * Suspended))
    (h : Suspended) :
  takeHandler k l = Some (h, rest) -> Permutation l ((k, h) :: rest).
Proof.
  revert rest. induction l as [|[k' h'] l IH]; intros rest; simpl;
    [discriminate|].
  destruct (Nat.eqb_spec k k') as [->|Hne].
  - intros H. injection H as <- <-. reflexivity.
  - destruct (takeHandler k l) as [[h0 rest0]|]; [|discriminate].
    intros H. injection H as <- <-.
    etransitivity; [apply perm_skip, IH; reflexivity|]. apply perm_swap.
Qed.

Lemma pendingIds_perm (l l' : list (nat * Suspended)) :
  Permutation l l' -> Permutation (pendingIds l) (pendingIds l').
Proof.
  unfold pendingIds. induction 1; cbn [flat_map].
  - constructor.
  - now apply Permutation_app_head.
  - rewrite !app_assoc. apply Permutation_app_tail, Permutation_app_comm.
  - etransitivity; eassumption.
Qed.

Lemma step_consistent (js : JSRuntime) (userId : string) (now : Z)
    (j : Job) (u u' : Upload) :
  storeConsistent js (store u) /\ idsDistinct u ->
  step js userId now j u = Some u' ->
  storeConsistent js (store u') /\ idsDistinct u'.
Proof.
  intros [Hst [Hnd Hlt]]. destruct j as [|k|]; cbn [step].
  - unfold onData. destruct (source u) as [|row rest]; [discriminate|].
    cbv zeta.
    remember (newIPDR (freshId (ipdrs (store u)) + emitted u) now
                (mapRow js userId row)) as doc eqn:Hnew.
    symmetry in Hnew.
    intros H. injection H as <-. split; [exact Hst|].
    unfold idsDistinct. cbn [store pending emitted].
    unfold pendingIds in *. rewrite flat_map_app.
    cbn [flat_map snd h_record]. rewrite app_nil_r.
    assert (Hlt' : Forall (fun id => (id < freshId (ipdrs (store u))
                                           + S (emitted u))%nat)
                     (flat_map
                        (fun kh : nat * Suspended =>
                           match h_record (snd kh) with
                           | inl _ => []
                           | inr r => [_id r]
                           end)
                        (pending u))).
    { eapply Forall_impl; [|exact Hlt]. intros id Hid. cbv beta in *. lia. }
    destruct doc as [e|r].
    + rewrite app_nil_r. split; [exact Hnd | exact Hlt'].
    + apply newIPDR_gets_id in Hnew. rewrite Hnew. split.
      * rewrite app_assoc. apply NoDup_app; [exact Hnd | |].
        { constructor; [intros [] | constructor]. }
        { intros x Hx [<- | []]. apply in_app_or in Hx.
          destruct Hx as [Hx | Hx].
          - apply freshId_gt in Hx. lia.
          - rewrite Forall_forall in Hlt. specialize (Hlt _ Hx).
            cbv beta in Hlt. lia. }
      * apply Forall_app. split; [exact Hlt'|].
        constructor; [lia | constructor].
  - unfold resume.
    destruct (takeHandler k (pending u)) as [[h rest]|] eqn:Htake;
      [|discriminate].
    pose proof (pendingIds_perm _ _ (takeHandler_perm _ _ _ _ Htake))
      as Hperm.
    unfold pendingIds at 2 in Hperm. cbn [flat_map snd] in Hperm.
    fold (pendingIds rest) in Hperm.
    assert (Hnd' : NoDup (map _id (ipdrs (store u))
                          ++ (match h_record h with
                              | inl _ => []
                              | inr r => [_id r]
                              end ++ pendingIds rest))%list).
    { eapply Permutation_NoDup; [|exact Hnd].
      now apply Permutation_app_head. }
    assert (Hlt' : Forall (fun id => (id < freshId (ipdrs (store u))
                                           + emitted u)%nat)
                     (match h_record h with
                      | inl _ => []
                      | inr r => [_id r]
                      end ++ pendingIds rest)%list).
    { eapply Permutation_Forall; [exact Hperm | exact Hlt]. }
    destruct (settle js now h) as [e|record] eqn:Hs;
      intros H; injection H as <-.
    + split; [exact Hst|]. unfold idsDistinct. cbn [store pending emitted].
      apply Forall_app in Hlt'. destruct Hlt' as [_ Hlt'].
      split; [|exact Hlt'].
      destruct (h_record h); cbn [app] in Hnd'; [exact Hnd'|].
      now apply NoDup_remove_1 in Hnd'.
    + unfold settle in Hs.
      destruct (h_record h) as [e|r0] eqn:Hrec; [discriminate|].
      pose proof (save_keeps_id _ _ _ _ Hs) as Hid.
      cbn [app] in Hnd', Hlt'.
      assert (Hfresh : ~ In (_id record) (map _id (ipdrs (store u)))).
      { rewrite Hid. intros Hin.
        apply NoDup_remove_2 in Hnd'. apply Hnd'.
        apply in_or_app. now left. }
      split.
      * cbn [store]. apply storeConsistent_add; [exact Hst | | exact Hfresh |].
        { eapply save_wellFormed; eauto. }
        { destruct (suspicious record); [right; now exists now | now left]. }
      * unfold idsDistinct. cbn [store pending emitted ipdrs].
        rewrite map_app. cbn [map]. rewrite Hid, <- app_assoc. cbn [app].
        split; [exact Hnd'|].
        inversion Hlt' as [|? ? _ Hrest]; subst.
        eapply Forall_impl; [|exact Hrest].
        intros id Hlt0. cbv beta in *.
        pose proof (freshId_app (ipdrs (store u)) record). lia.
  - unfold onEnd. destruct (source u); [|discriminate].
    destruct (response u); [discriminate|].
    intros H. injection H as <-. split; [exact Hst|]. exact (conj Hnd Hlt).
Qed.

(** X3. The ingestion paths keep the collections consistent: after
    [addRecord], on the controller and as the router runs it, and after a
    bulk upload under any schedule, every stored record passes the
    validators, has derived fields that are the [Number] difference and
    sum of its inputs and carries the codes of the classifier, no two
    stored records share an identifier, and every anomaly event refers to
    a stored record that carries its code. *)
Theorem ingestion_keeps_store_consistent (js : JSRuntime) (now : Z)
    (st : Store) :
  storeConsistent js st ->
  (forall body, storeConsistent js (fst (addRecord js now body st)))
  /\ (forall body, storeConsistent js (fst (addRecordDetached js now body st)))
  /\ (forall userId rows jobs u,
         uploadRecords js userId now rows st jobs = Some u ->
         storeConsistent js (store u)).
Proof.
  intros Hst.
  assert (Hadd : forall r0 r1,
             newIPDR (freshId (ipdrs st)) now r0 = inr r1 ->
             forall r2, save js now r1 = inr r2 ->
             wellFormed js r2 /\ ~ In (_id r2) (map _id (ipdrs st))).
  { intros r0 r1 Hnew r2 Hsave.
    split; [eapply save_wellFormed; eauto|].
    rewrite (save_keeps_id _ _ _ _ Hsave), (newIPDR_gets_id _ _ _ _ Hnew).
    intros Hin. apply freshId_gt in Hin. lia. }
  split; [|split].
  - intros body. unfold addRecord.
    destruct (newIPDR _ now body) as [e|r0] eqn:Hnew; [exact Hst|].
    destruct (save js now r0) as [e|r1] eqn:Hsave; [exact Hst|].
    cbn [fst]. destruct (Hadd _ _ Hnew _ Hsave) as [Hwf Hfresh].
    apply storeConsistent_add; [exact Hst | exact Hwf | exact Hfresh |].
    destruct (suspicious r1); [right; now exists now | now left].
  - intros body. unfold addRecordDetached.
    destruct (newIPDR _ now body) as [e|r0] eqn:Hnew; [exact Hst|].
    destruct (save js now r0) as [e|r1] eqn:Hsave; [exact Hst|].
    cbv zeta. destruct (Hadd _ _ Hnew _ Hsave) as [Hwf Hfresh].
    assert (H : storeConsistent js
                  {| ipdrs := (ipdrs st ++ [r1])%list;
                     activities := activities st |}).
    { apply storeConsistent_add;
        [exact Hst | exact Hwf | exact Hfresh | now left]. }
    destruct (suspicious r1); exact H.
  - intros userId rows jobs. unfold uploadRecords.
    assert (H0 : storeConsistent js (store (startUpload rows st))
                 /\ idsDistinct (startUpload rows st)).
    { split; [exact Hst|]. unfold idsDistinct, startUpload.
      cbn [store pending emitted pendingIds flat_map].
      rewrite app_nil_r. split; [apply Hst | constructor]. }
    revert H0. generalize (startUpload rows st).
    induction jobs as [|j jobs IH]; intros u0 H0 u; cbn [run].
    + intros H. injection H as <-. apply H0.
    + destruct (step js userId now j u0) as [u1|] eqn:Hstep;
        [|discriminate].
      apply IH. eapply step_consistent; eauto.
Qed.

Lemma ingestion_keeps_store_consistent_witness :
  storeConsistent utc
    (fst (addRecord utc jan16_12h
            (mapRow utc "analyst"
               (testRow "123456789012345" "2024-01-15T23:00:00Z"
                  "2024-01-15T23:00:10Z"))
            emptyStore))
  /\ storeConsistent utc
       (fst (addRecordDetached utc jan16_12h
               (mapRow utc "analyst"
                  (testRow "123456789012345" "2024-01-15T23:00:00Z"
                     "2024-01-15T23:00:10Z"))
               emptyStore)).
Proof.
  split;
    apply (ingestion_keeps_store_consistent utc jan16_12h emptyStore);
    (split; [constructor | split; constructor]).
Defined.

Lemma newIPDR_error (id : nat) (now : Z) (d : RecordData) (e : list string) :
  newIPDR id now d = inl e -> e = castErrors d /\ e <> [].
Proof.
  unfold newIPDR, castErrors.
  destruct (d_privatePort d), (d_publicPort d), (d_destPort d),
    (d_startTime d), (d_endTime d), (d_originLat d), (d_originLong d),
    (d_uplinkVolume d), (d_downlinkVolume d);
    intros H; try discriminate H; injection H as <-;
    (split; [reflexivity | cbn; discriminate]).
Qed.

(** X4. [addRecord] writes all or nothing.  When the record is rejected
    the error names at least one path and both collections are as they
    were; when it is accepted the record collection has this one record
    more and the anomaly collection has as many events more as the record
    carries codes, none for a record that is not suspicious. *)
Theorem addRecord_all_or_nothing (js : JSRuntime) (now : Z)
    (body : RecordData) (st st' : Store) (res : list string + IPDR) :
  addRecord js now body st = (st', res) ->
  match res with
  | inl e => st' = st /\ e <> []
  | inr record =>
      ipdrs st' = (ipdrs st ++ [record])%list
      /\ exists evs,
           activities st' = (activities st ++ evs)%list
           /\ List.length evs = List.length (suspiciousReasons record)
           /\ (suspicious record = false -> evs = [])
  end.
Proof.
  unfold addRecord.
  destruct (newIPDR _ now body) as [e|r0] eqn:Hnew.
  - intros H. injection H as <- <-. split; [reflexivity|].
    now apply newIPDR_error in Hnew.
  - destruct (save js now r0) as [e|r1] eqn:Hsave.
    + intros H. injection H as <- <-. split; [reflexivity|].
      unfold save in Hsave. destruct (validate r0); [discriminate|].
      injection Hsave as <-. discriminate.
    + intros H. injection H as <- <-. cbn [ipdrs activities].
      split; [reflexivity|].
      pose proof (save_wellFormed _ _ _ _ Hsave) as [_ [_ [_ [_ [_ Hflag]]]]].
      destruct (suspicious r1) eqn:Hs.
      * exists (map (activityFor js now r1) (suspiciousReasons r1)).
        rewrite createSuspiciousActivity_app, length_map.
        split; [reflexivity|]. split; [reflexivity | discriminate].
      * exists []. rewrite app_nil_r. split; [reflexivity|].
        split; [|reflexivity].
        destruct (suspiciousReasons r1); [reflexivity|].
        exfalso. assert (false = true); [|discriminate].
        apply Hflag. discriminate.
Qed.

Lemma addRecord_all_or_nothing_witness :
  fst (addRecord utc jan16_12h
         (mapRow utc "analyst"
            (testRow "12345" "2024-01-15T10:00:00Z" "2024-01-15T11:00:00Z"))
         emptyStore)
  = emptyStore.
Proof.
  destruct (addRecord utc jan16_12h
              (mapRow utc "analyst"
                 (testRow "12345" "2024-01-15T10:00:00Z"
                    "2024-01-15T11:00:00Z"))
              emptyStore) as [st' res] eqn:H.
  pose proof (addRecord_all_or_nothing _ _ _ _ _ _ H) as Hall.
  destruct res as [e|record].
  - exact (proj1 Hall).
  - vm_compute in H. discriminate H.
Defined.

Lemma step_uploadAccounts (js : JSRuntime) (userId : string) (now : Z)
    (n n0 : nat) (j : Job) (u u' : Upload) :
  uploadAccounts n n0 u -> step js userId now j u = Some u' ->
  uploadAccounts n n0 u'.
Proof.
  intros [Hinv [Hlen Hresp]] Hstep.
  pose proof (step_invariant js userId now n j u u' Hinv Hstep) as Hinv'.
  split; [exact Hinv'|].
  destruct Hinv as [Hp [Hn [Hall _]]].
  destruct j as [|k|]; cbn [step] in Hstep.
  - unfold onData in Hstep. destruct (source u); [discriminate|].
    injection Hstep as <-. cbn. split; assumption.
  - unfold resume in Hstep.
    destruct (takeHandler k (pending u)) as [[h rest]|]; [|discriminate].
    destruct (settle js now h); injection Hstep as <-; cbn.
    + split; [exact Hlen|]. intros s Hs.
      destruct (Hresp s Hs) as [H1 [H2 [H3 H4]]].
      rewrite length_app. cbn. repeat split; try assumption; lia.
    + split; [rewrite length_app; cbn; lia|]. intros s Hs.
      destruct (Hresp s Hs) as [H1 [H2 [H3 H4]]].
      repeat split; try assumption; lia.
  - destruct (source u) eqn:Hsrc;
      [|unfold onEnd in Hstep; rewrite Hsrc in Hstep; discriminate].
    destruct (response u) eqn:Hr;
      [unfold onEnd in Hstep; rewrite Hsrc, Hr in Hstep; discriminate|].
    destruct (onEnd_step u Hsrc Hr)
      as [u2 [Hrun2 [Hp2 [Hc2 [He2 [_ [_ [_ [Hst2 Hr2]]]]]]]]].
    rewrite Hstep in Hrun2. injection Hrun2 as <-.
    rewrite Hst2, Hc2, He2. split; [exact Hlen|].
    intros s Hs. rewrite Hr2 in Hs.
    assert (Hs' : s = {| s_processed := processed u;
                         s_created := created u;
                         s_errors := List.length (errors u);
                         s_errorDetails := firstn 10 (errors u) |})
      by congruence.
    rewrite Hs'. cbn [s_errorDetails s_errors s_created s_processed].
    rewrite length_firstn. repeat split; lia.
Qed.

Lemma upload_accounts (js : JSRuntime) (userId : string) (now : Z)
    (rows : list CsvRow) (st : Store) (jobs : list Job) (u : Upload) :
  uploadRecords js userId now rows st jobs = Some u ->
  uploadAccounts (List.length rows) (List.length (ipdrs st)) u.
Proof.
  unfold uploadRecords.
  assert (H0 : uploadAccounts (List.length rows) (List.length (ipdrs st))
                 (startUpload rows st)).
  { unfold uploadAccounts, uploadInvariant. cbn.
    repeat split; try lia; discriminate. }
  revert H0. generalize (startUpload rows st).
  induction jobs as [|j jobs IH]; intros u0 H0; cbn [run].
  - intros H. injection H as <-. exact H0.
  - destruct (step js userId now j u0) as [u1|] eqn:Hstep;
      [|discriminate].
    apply IH. eapply step_uploadAccounts; eauto.
Qed.

(** X5. Under every schedule of a bulk upload the counters add up: the
    rows written, those rejected and those whose save has not settled
    are the rows emitted, and the documents stored are those counted as
    created.  A summary that was sent counts all the rows of the file,
    lists no more than ten failures, and never reports more rows written
    or rejected than there are in the end. *)
Theorem upload_counters_add_up (js : JSRuntime) (userId : string) (now : Z)
    (rows : list CsvRow) (st : Store) (jobs : list Job) (u : Upload) :
  uploadRecords js userId now rows st jobs = Some u ->
  (created u + List.length (errors u) + List.length (pending u)
   + List.length (source u) = List.length rows)%nat
  /\ List.length (ipdrs (store u))
     = (List.length (ipdrs st) + created u)%nat
  /\ (forall s,
         response u = Some s ->
         s_processed s = List.length rows
         /\ List.length (s_errorDetails s) = Nat.min 10 (s_errors s)
         /\ (s_created s + s_errors s <= List.length rows)%nat
         /\ (s_created s <= created u)%nat
         /\ (s_errors s <= List.length (errors u))%nat).
Proof.
  intros Hrun.
  destruct (upload_accounts _ _ _ _ _ _ _ Hrun)
    as [[Hp [Hn [Hall Hproc]]] [Hlen Hresp]].
  split; [lia|]. split; [exact Hlen|].
  intros s Hs. destruct (Hresp s Hs) as [H1 [H2 [H3 H4]]].
  pose proof (Hproc s Hs) as H5. repeat split; try assumption; lia.
Qed.

Lemma upload_counters_add_up_witness :
  match uploadRecords utc "analyst" jan16_12h batch3 emptyStore (earlyEnd 3)
  with
  | Some u => List.length (ipdrs (store u)) = (0 + created u)%nat
  | None => False
  end.
Proof.
  destruct (uploadRecords utc "analyst" jan16_12h batch3 emptyStore
              (earlyEnd 3)) as [u|] eqn:H.
  - apply (upload_counters_add_up _ _ _ _ _ _ _ H).
  - vm_compute in H. discriminate H.
Defined.

Lemma okCount_failures (js : JSRuntime) (userId : string) (now : Z)
    (rows : list CsvRow) :
  forall first,
    (okCount js userId now rows
     + List.length (failureEntries js userId now (fun k => k) first rows)
     = List.length rows)%nat.
Proof.
  unfold okCount, rowFails. induction rows as [|row rest IH];
    intros first; [reflexivity|].
  cbn [filter failureEntries].
  destruct (rowOutcome js userId now 0 row); cbn [negb List.length];
    rewrite <- (IH (S first)); lia.
Qed.

(** X6. When the save of each row settles before the next row is
    emitted, the upload of any file ends with a summary that counts every
    row, counts the rows written, and lists the rejected rows, the first
    ten of them, each under its own position in the file with the error
    of its own save; the store has gained the rows written. *)
Theorem upload_in_order_reports_each_row (js : JSRuntime) (userId : string)
    (now : Z) (rows : list CsvRow) (st : Store) :
  exists u,
    uploadRecords js userId now rows st (oneByOne (List.length rows)) = Some u
    /\ response u
       = Some {| s_processed := List.length rows;
                 s_created := okCount js userId now rows;
                 s_errors :=
                   List.length
                     (failureEntries js userId now (fun k => k) 1 rows);
                 s_errorDetails :=
                   firstn 10
                     (failureEntries js userId now (fun k => k) 1 rows) |}
    /\ (okCount js userId now rows
        + List.length (failureEntries js userId now (fun k => k) 1 rows)
        = List.length rows)%nat
    /\ pending u = []
    /\ List.length (ipdrs (store u))
       = (List.length (ipdrs st) + okCount js userId now rows)%nat.
Proof.
  destruct (upload_oneByOne js userId now rows st) as [u [Hrun [Hr Hst]]].
  exists u. split; [exact Hrun|]. split; [exact Hr|].
  split; [apply okCount_failures|]. split; [|exact Hst].
  destruct (upload_accounts _ _ _ _ _ _ _ Hrun)
    as [[Hp [Hn [Hall _]]] [_ Hs]].
  destruct (Hs _ Hr) as [_ [_ [Hc He]]]. cbn in Hc, He.
  pose proof (okCount_failures js userId now rows 1%nat).
  destruct (pending u); [reflexivity|]. cbn in Hall. lia.
Qed.


(* ================================================================= *)
(** * Listing the records page by page *)

Lemma latestFirst_total (a b : IPDR) :
  latestFirst a b = true \/ latestFirst b a = true.
Proof.
  unfold latestFirst.
  destruct (Z.leb_spec (startTime b) (startTime a)); [now left|].
  right. apply Z.leb_le. lia.
Qed.

Lemma latestFirst_trans (a b c : IPDR) :
  latestFirst a b = true -> latestFirst b c = true -> latestFirst a c = true.
Proof. unfold latestFirst. rewrite !Z.leb_le. lia. Qed.

Lemma latestFirst_sorted (l : list IPDR) :
  StronglySorted (fun a b => startTime a >= startTime b)
                 (sortBy latestFirst l).
Proof.
  eapply StronglySorted_impl;
    [|apply (sortBy_sorted latestFirst latestFirst_total latestFirst_trans)].
  intros a b H. unfold latestFirst in H. apply Z.leb_le in H. lia.
Qed.

Lemma StronglySorted_skipn {A : Type} (R : A -> A -> Prop) (n : nat)
    (l : list A) :
  StronglySorted R l -> StronglySorted R (skipn n l).
Proof.
  revert l. induction n as [|n IH]; intros l Hs; [exact Hs|].
  destruct l as [|x l]; [constructor|]. simpl. apply IH. now inversion Hs.
Qed.

Lemma In_skipn_In {A : Type} (n : nat) (l : list A) (x : A) :
  In x (skipn n l) -> In x l.
Proof.
  revert l. induction n as [|n IH]; intros l; [trivial|].
  destruct l as [|y l]; simpl; [trivial|]. intros H. right. now apply IH.
Qed.

Lemma ceilDiv_bounds (total limit : Z) :
  0 < limit ->
  (ceilDiv total limit - 1) * limit < total <= ceilDiv total limit * limit.
Proof.
  intros Hl. unfold ceilDiv.
  pose proof (Z.div_mod (- total) limit ltac:(lia)) as Hdm.
  pose proof (Z.mod_pos_bound (- total) limit Hl) as Hmod.
  nia.
Qed.

Lemma getAllRecords_data (js : JSRuntime)
    (regExp : string -> option (string -> bool))
    (cursor : Z -> Z -> list IPDR -> option (list IPDR))
    (q : RecordsQuery) (db : list IPDR) (f : IPDR -> bool) :
  cursorSpec cursor ->
  recordsFilter js regExp q = Some f ->
  1 <= parseIntOr js (rq_page q) 1 ->
  1 <= parseIntOr js (rq_limit q) 50 ->
  getAllRecords js regExp cursor q db
  = Ok (firstn (Z.to_nat (parseIntOr js (rq_limit q) 50))
          (skipn (Z.to_nat ((parseIntOr js (rq_page q) 1 - 1)
                            * parseIntOr js (rq_limit q) 50))
             (sortBy latestFirst (filter f db))),
        {| pg_current := parseIntOr js (rq_page q) 1;
           pg_pages :=
             ceilDiv (Z.of_nat (List.length (filter f db)))
                     (parseIntOr js (rq_limit q) 50);
           pg_total := List.length (filter f db);
           pg_limit := parseIntOr js (rq_limit q) 50 |}).
Proof.
  intros Hcur Hf Hp Hl. unfold getAllRecords. rewrite Hf.
  rewrite Hcur by nia. reflexivity.
Qed.

(** X7. A page of the record listing.  With a page and a limit of at
    least 1, the answer holds the records that pass the filter, latest
    session first, from position (page - 1) * limit on and no more than
    limit of them; the total counts all the records that pass the filter,
    the number of pages is the least whose pages hold the total, and a
    page beyond the last is empty. *)
Theorem getAllRecords_page (js : JSRuntime)
    (regExp : string -> option (string -> bool))
    (cursor : Z -> Z -> list IPDR -> option (list IPDR))
    (q : RecordsQuery) (db : list IPDR) (f : IPDR -> bool) :
  cursorSpec cursor ->
  recordsFilter js regExp q = Some f ->
  let page := parseIntOr js (rq_page q) 1 in
  let limit := parseIntOr js (rq_limit q) 50 in
  1 <= page -> 1 <= limit ->
  exists data pg,
    getAllRecords js regExp cursor q db = Ok (data, pg)
    /\ data = firstn (Z.to_nat limit)
                (skipn (Z.to_nat ((page - 1) * limit))
                   (sortBy latestFirst (filter f db)))
    /\ Z.of_nat (List.length data) <= limit
    /\ (forall r, In r data -> In r db /\ f r = true)
    /\ StronglySorted (fun a b => startTime a >= startTime b) data
    /\ pg_current pg = page /\ pg_limit pg = limit
    /\ pg_total pg = List.length (filter f db)
    /\ (pg_pages pg - 1) * limit < Z.of_nat (pg_total pg)
                                 <= pg_pages pg * limit
    /\ (pg_pages pg < page -> data = []).
Proof.
  intros Hcur Hf page limit Hp Hl.
  eexists. eexists.
  split; [apply (getAllRecords_data js regExp cursor q db f Hcur Hf Hp Hl)|].
  fold page limit. cbn [pg_current pg_limit pg_total pg_pages].
  pose proof (ceilDiv_bounds (Z.of_nat (List.length (filter f db))) limit
                ltac:(lia)) as Hceil.
  split; [reflexivity|]. split.
  { pose proof (firstn_le_length (Z.to_nat limit)
                  (skipn (Z.to_nat ((page - 1) * limit))
                     (sortBy latestFirst (filter f db)))). lia. }
  split.
  { intros r Hr. apply In_firstn_In, In_skipn_In in Hr.
    apply (Permutation_in _ (sortBy_perm latestFirst _)) in Hr.
    now apply filter_In in Hr. }
  split.
  { apply StronglySorted_firstn, StronglySorted_skipn, latestFirst_sorted. }
  split; [reflexivity|]. split; [reflexivity|]. split; [reflexivity|].
  split; [exact Hceil|].
  intros Hbeyond. rewrite skipn_all2; [now rewrite firstn_nil|].
  rewrite (Permutation_length (sortBy_perm latestFirst _)). nia.
Qed.

Lemma pages_cover {A : Type} (size : nat) :
  (1 <= size)%nat ->
  forall (pages : nat) (l : list A),
    (List.length l <= pages * size)%nat ->
    List.concat
      (map (fun k => firstn size (skipn (k * size) l)) (seq 0 pages))
    = l.
Proof.
  intros Hsize. induction pages as [|pages IH]; intros l Hlen.
  - destruct l; [reflexivity | simpl in Hlen; lia].
  - cbn [seq map List.concat]. rewrite <- seq_shift, map_map.
    rewrite (map_ext _ (fun k => firstn size
                                   (skipn (k * size) (skipn size l)))).
    + rewrite IH; [apply firstn_skipn|]. rewrite length_skipn. lia.
    + intros k. rewrite skipn_skipn. f_equal. f_equal. lia.
Qed.

(** X8. The pages of the record listing, taken from the first to the
    last, hold every record that passes the filter exactly once, in the
    order latest session first. *)
Theorem getAllRecords_pages_cover (js : JSRuntime)
    (regExp : string -> option (string -> bool))
    (cursor : Z -> Z -> list IPDR -> option (list IPDR))
    (numeral : Z -> string)
    (q : RecordsQuery) (db : list IPDR) (f : IPDR -> bool) :
  cursorSpec cursor ->
  recordsFilter js regExp q = Some f ->
  let limit := parseIntOr js (rq_limit q) 50 in
  let pages := ceilDiv (Z.of_nat (List.length (filter f db))) limit in
  1 <= limit ->
  (forall p, 1 <= p <= pages -> parseInt js (numeral p) = Some p) ->
  List.concat
    (map (fun k =>
            dataOf (getAllRecords js regExp cursor
                      (withPage q (numeral (Z.of_nat k))) db))
         (seq 1 (Z.to_nat pages)))
  = sortBy latestFirst (filter f db).
Proof.
  intros Hcur Hf limit pages Hl Hnum.
  pose proof (ceilDiv_bounds (Z.of_nat (List.length (filter f db))) limit
                ltac:(lia)) as Hceil. fold pages in Hceil.
  rewrite <- (pages_cover (Z.to_nat limit) ltac:(lia) (Z.to_nat pages)
                (sortBy latestFirst (filter f db))).
  2:{ rewrite (Permutation_length (sortBy_perm latestFirst _)). nia. }
  rewrite <- seq_shift, map_map. f_equal.
  apply map_ext_in. intros k Hk. apply in_seq in Hk.
  assert (Hpk : parseIntOr js
                  (rq_page (withPage q (numeral (Z.of_nat (S k))))) 1
                = Z.of_nat (S k)).
  { cbn [rq_page withPage parseIntOr]. rewrite Hnum by lia.
    destruct (Z.eqb_spec (Z.of_nat (S k)) 0); [lia | reflexivity]. }
  rewrite (getAllRecords_data js regExp cursor _ db f Hcur);
    [| exact Hf | rewrite Hpk; lia | exact Hl].
  cbn [dataOf]. rewrite Hpk. cbn [rq_limit withPage]. fold limit.
  f_equal. f_equal. nia.
Qed.


Lemma storeCursor_spec : cursorSpec storeCursor.
Proof.
  intros skip limit docs Hs Hl. unfold storeCursor.
  destruct (Z.ltb_spec skip 0); [lia|].
  destruct (Z.leb_spec limit 0); [lia | reflexivity].
Qed.

Lemma getAllRecords_page_witness :
  List.length
    (dataOf (getAllRecords utc anyPattern storeCursor onePerPage twoContacts))
  = 1%nat.
Proof.
  destruct (getAllRecords_page utc anyPattern storeCursor onePerPage
              twoContacts _ storeCursor_spec eq_refl)
    as [data [pg [H [Hdata _]]]].
  - vm_compute. discriminate.
  - vm_compute. discriminate.
  - rewrite H. cbn [dataOf]. rewrite Hdata. reflexivity.
Defined.

Lemma getAllRecords_pages_cover_witness :
  (dataOf (getAllRecords utc anyPattern storeCursor
             (withPage onePerPage "1") twoContacts)
   ++ dataOf (getAllRecords utc anyPattern storeCursor
                (withPage onePerPage "2") twoContacts))%list
  = sortBy latestFirst twoContacts.
Proof.
  assert (Hnum : forall p,
             1 <= p <= ceilDiv (Z.of_nat (List.length twoContacts)) 1 ->
             parseInt utc (string_of_Z p) = Some p).
  { intros p Hp. change (ceilDiv _ _) with 2 in Hp.
    assert (Hcases : p = 1 \/ p = 2) by lia.
    destruct Hcases as [-> | ->]; reflexivity. }
  assert (Hlimit : 1 <= parseIntOr utc (rq_limit onePerPage) 50)
    by (vm_compute; discriminate).
  pose proof (getAllRecords_pages_cover utc anyPattern storeCursor
                string_of_Z onePerPage twoContacts _ storeCursor_spec
                eq_refl Hlimit Hnum) as H.
  vm_compute in H. vm_compute. exact H.
Defined.

(* ================================================================= *)
(** * The advanced search *)

Lemma memString_In (s : string) (l : option (list string)) :
  memString s l = true <-> In s (orDefault l []).
Proof.
  unfold memString. rewrite existsb_exists. split.
  - intros [x [Hin Heq]]. apply String.eqb_eq in Heq. now subst.
  - intros Hin. exists s. split; [exact Hin | apply String.eqb_refl].
Qed.

Lemma nonEmpty_true (s : string) : nonEmpty s = true <-> s <> "".
Proof.
  unfold nonEmpty. destruct (String.eqb_spec s ""); simpl; split;
    congruence.
Qed.

Lemma searchFilter_meets (js : JSRuntime) (c : SearchCriteria)
    (f : IPDR -> bool) :
  searchFilter js c = Some f -> forall r, f r = true <-> meets js c r.
Proof.
  unfold searchFilter. intros Hf r. cbv zeta in Hf.
  match type of Hf with
  | (match ?a with Some _ => _ | None => _ end) = _ =>
      destruct a as [inDates|] eqn:Hd; [|discriminate]
  end.
  match type of Hf with
  | (match ?a with Some _ => _ | None => _ end) = _ =>
      destruct a as [inVolume|] eqn:Hv; [|discriminate]
  end.
  injection Hf as <-.
  assert (HD : inDates r = true
               <-> forall start stop from to,
                     sc_dateRange c = Some (Some start, Some stop) ->
                     start <> "" -> stop <> "" ->
                     Date_parse js start = Some from ->
                     Date_parse js stop = Some to ->
                     from <= startTime r <= to).
  { destruct (sc_dateRange c) as [[start stop]|].
    2:{ injection Hd as <-. split; [|reflexivity].
        intros _ ? ? ? ? H. discriminate H. }
    destruct (truthy start && truthy stop) eqn:Et.
    2:{ injection Hd as <-. split; [|reflexivity].
        intros _ s t ? ? H Hs Ht. injection H as -> ->.
        cbn [truthy] in Et.
        rewrite (proj2 (nonEmpty_true s) Hs) in Et.
        rewrite (proj2 (nonEmpty_true t) Ht) in Et. discriminate Et. }
    apply andb_true_iff in Et. destruct Et as [Es Et].
    destruct start as [start|]; [|discriminate Es].
    destruct stop as [stop|]; [|discriminate Et].
    cbn [orDefault truthy] in *.
    destruct (Date_parse js start) as [from|] eqn:Ef; [|discriminate].
    destruct (Date_parse js stop) as [to|] eqn:Eo; [|discriminate].
    injection Hd as <-. rewrite andb_true_iff, !Z.leb_le. split.
    - intros H ? ? ? ? Hsome _ _ H1 H2. injection Hsome as <- <-.
      rewrite Ef in H1. rewrite Eo in H2.
      injection H1 as <-. injection H2 as <-. exact H.
    - intros H. apply (H start stop from to eq_refl); auto;
        now apply nonEmpty_true. }
  assert (HV : inVolume r = true
               <-> (forall m hi,
                       sc_dataVolumeRange c = Some (Some m, hi) ->
                       m <> 0 -> m <= totalVolume r)
                   /\ (forall lo m,
                          sc_dataVolumeRange c = Some (lo, Some m) ->
                          m <> 0 -> totalVolume r <= m)).
  { destruct (sc_dataVolumeRange c) as [[lo hi]|].
    2:{ injection Hv as <-. split; [|reflexivity].
        intros _. split; intros; discriminate. }
    destruct lo as [[|lo|lo]|], hi as [[|hi|hi]|]; cbn [bound] in Hv;
      try discriminate Hv; injection Hv as <-;
      rewrite ?andb_true_iff, ?Z.leb_le;
      (split;
       [ intros H; split; intros ? ? Heq;
         injection Heq as ? ?; subst; intros; try congruence; try tauto
       | intros [H1 H2];
         repeat split;
         try (eapply (H1 _ _ eq_refl); discriminate);
         try (eapply (H2 _ _ eq_refl); discriminate) ]). }
  unfold meets. rewrite !andb_true_iff, HD, HV.
  destruct (given (sc_phoneNumbers c)), (given (sc_ipAddresses c)),
    (given (sc_imeiNumbers c)), (given (sc_accessTypes c)),
    (sc_suspiciousOnly c);
    rewrite ?orb_true_iff, ?memString_In; intuition congruence.
Qed.


(** X9. [advancedSearch]: a search that answers returns only records of the
    store that meet every criterion it applies (subjects, addresses,
    devices, dates, access types, volume, suspicion), latest start first,
    at most 1000 of them with [count] their number; unless it returns 1000
    records it returns every record of the store that meets these
    criteria; and [locations] and [durationRange] are accepted and
    ignored: whatever they are, the answer is the same. *)
Theorem advancedSearch_sound_complete (js : JSRuntime) (c : SearchCriteria)
    (db recs : list IPDR) (n : nat) :
  advancedSearch js c db = Ok (recs, n) ->
  n = List.length recs
  /\ (n <= 1000)%nat
  /\ StronglySorted (fun a b => startTime a >= startTime b) recs
  /\ (forall r, In r recs -> In r db /\ meets js c r)
  /\ (n = 1000%nat \/ forall r, In r db -> meets js c r -> In r recs)
  /\ (forall locations durationRange,
         advancedSearch js
           (withLocationsAndDurations c locations durationRange) db
         = Ok (recs, n)).
Proof.
  intros Hans.
  assert (Hignored : forall locations durationRange,
             advancedSearch js
               (withLocationsAndDurations c locations durationRange) db
             = Ok (recs, n)).
  { intros locations durationRange. rewrite <- Hans. reflexivity. }
  revert Hans.
  unfold advancedSearch.
  destruct (searchFilter js c) as [f|] eqn:Hf; [|discriminate].
  cbv zeta.
  remember (firstn 1000 (sortBy latestFirst (filter f db))) as out eqn:Hout.
  intros H. injection H as <- <-. subst out.
  pose proof (searchFilter_meets js c f Hf) as Hm.
  pose proof (sortBy_perm latestFirst (filter f db)) as Hp.
  split; [reflexivity|]. split; [apply firstn_le_length|].
  split; [apply StronglySorted_firstn, latestFirst_sorted|].
  split; [|split; [|exact Hignored]].
  - intros r Hin. apply In_firstn_In in Hin.
    apply (Permutation_in _ Hp) in Hin.
    apply filter_In in Hin. destruct Hin as [Hdb Hfr].
    split; [exact Hdb | now apply Hm].
  - rewrite length_firstn.
    destruct (Nat.le_gt_cases 1000
                (List.length (sortBy latestFirst (filter f db))))
      as [Hbig|Hsmall].
    + left. now apply Nat.min_l.
    + right. intros r Hdb Hr.
      rewrite firstn_all2 by lia.
      apply (Permutation_in _ (Permutation_sym Hp)). apply filter_In.
      split; [exact Hdb | now apply Hm].
Qed.

Lemma advancedSearch_sound_complete_witness :
  match advancedSearch utc oneSubjectOneDay
          [testIPDR 1 "9876543210" "8.8.8.8" jan15_10h (jan15_10h + 60000)
             1024 2048 false jan15_10h;
           testIPDR 2 "9876543210" "8.8.8.8" jan16_12h (jan16_12h + 60000)
             1024 2048 false jan16_12h;
           testIPDR 3 "9876543210" "8.8.8.8" jan15_23h (jan15_23h + 60000)
             4096 2048 false jan15_23h] with
  | Ok (recs, n) =>
      n = 1%nat /\ map _id recs = [1%nat]
      /\ map originCellID recs = ["TEST-CELL-001"]
      /\ map duration recs = [60000]
  | _ => False
  end.
Proof.
  destruct (advancedSearch utc oneSubjectOneDay _) as [[recs n]| |] eqn:H.
  - destruct (advancedSearch_sound_complete _ _ _ _ _ H) as [Hn _].
    vm_compute in H. injection H as <- <-. repeat split; reflexivity.
  - vm_compute in H. discriminate H.
  - vm_compute in H. discriminate H.
Defined.


(* ================================================================= *)
(** * The points of the map *)

Section ObjectKeys.
Context {V : Type}.

Lemma lookupKey_setKey_same (k : string) (v : V) (acc : list (string * V)) :
  lookupKey k (setKey k v acc) = Some v.
Proof.
  induction acc as [|[k' v'] acc IH]; simpl.
  - now rewrite String.eqb_refl.
  - destruct (String.eqb_spec k' k) as [->|Hne]; simpl.
    + now rewrite String.eqb_refl.
    + destruct (String.eqb_spec k' k); [contradiction | exact IH].
Qed.

Lemma lookupKey_setKey_other (k k' : string) (v : V)
    (acc : list (string * V)) :
  k <> k' -> lookupKey k' (setKey k v acc) = lookupKey k' acc.
Proof.
  intros Hne. induction acc as [|[k0 v0] acc IH]; simpl.
  - destruct (String.eqb_spec k k'); [contradiction | reflexivity].
  - destruct (String.eqb_spec k0 k) as [->|Hne0]; simpl.
    + destruct (String.eqb_spec k k'); [contradiction | reflexivity].
    + destruct (String.eqb_spec k0 k'); [reflexivity | exact IH].
Qed.

Lemma setKey_keys (k : string) (v : V) (acc : list (string * V)) :
  forall k', In k' (map fst (setKey k v acc)) <-> k' = k \/ In k' (map fst acc).
Proof.
  intros k'. induction acc as [|[k0 v0] acc IH]; simpl.
  - intuition.
  - destruct (String.eqb_spec k0 k) as [->|Hne0]; simpl.
    + intuition.
    + rewrite IH. intuition.
Qed.

Lemma setKey_NoDup (k : string) (v : V) (acc : list (string * V)) :
  NoDup (map fst acc) -> NoDup (map fst (setKey k v acc)).
Proof.
  induction acc as [|[k0 v0] acc IH]; simpl; intros Hnd.
  - constructor; [intros [] | constructor].
  - inversion Hnd as [|? ? Hnotin Hnd']; subst.
    destruct (String.eqb_spec k0 k) as [->|Hne0]; simpl.
    + now constructor.
    + constructor; [|now apply IH].
      rewrite setKey_keys. intros [Heq | Hin]; [congruence | contradiction].
Qed.

Lemma lookupKey_In (k : string) (v : V) (acc : list (string * V)) :
  lookupKey k acc = Some v -> In (k, v) acc.
Proof.
  induction acc as [|[k0 v0] acc IH]; simpl; [discriminate|].
  destruct (String.eqb_spec k0 k) as [->|Hne].
  - intros H. injection H as ->. now left.
  - intros H. right. now apply IH.
Qed.

Lemma In_lookupKey (k : string) (v : V) (acc : list (string * V)) :
  NoDup (map fst acc) -> In (k, v) acc -> lookupKey k acc = Some v.
Proof.
  induction acc as [|[k0 v0] acc IH]; simpl; intros Hnd Hin; [destruct Hin|].
  inversion Hnd as [|? ? Hnotin Hnd']; subst.
  destruct Hin as [Heq | Hin].
  - injection Heq as -> ->. now rewrite String.eqb_refl.
  - destruct (String.eqb_spec k0 k) as [->|Hne]; [|now apply IH].
    exfalso. apply Hnotin. apply in_map_iff. now exists (k, v).
Qed.

Lemma filter_split_perm (f : string * V -> bool) (l : list (string * V)) :
  Permutation (filter f l ++ filter (fun x => negb (f x)) l)%list l.
Proof.
  induction l as [|x l IH]; simpl; [constructor|].
  destruct (f x); simpl.
  - now constructor.
  - apply Permutation_sym, Permutation_cons_app, Permutation_sym, IH.
Qed.

Lemma objectValues_perm (acc : list (string * V)) :
  Permutation (objectValues acc) (map snd acc).
Proof.
  unfold objectValues. rewrite <- map_app. apply Permutation_map.
  etransitivity; [|apply (filter_split_perm (fun kv => isIndexKey (fst kv)))].
  apply Permutation_app_tail, sortBy_perm.
Qed.

End ObjectKeys.

Lemma sessionsAt_app (id : string) (l1 l2 : list IPDR) :
  sessionsAt id (l1 ++ l2) = (sessionsAt id l1 ++ sessionsAt id l2)%list.
Proof. apply filter_app. Qed.

Lemma addToCell_inherited (acc : list (string * CellGroup)) (r : IPDR) :
  addToCell acc r = None <-> inherited (originCellID r) = true.
Proof.
  unfold addToCell. destruct (inherited (originCellID r)); split;
    congruence.
Qed.

Lemma addToCell_cellOf (acc acc' : list (string * CellGroup))
    (done : list IPDR) (r : IPDR) :
  (forall id, lookupKey id acc = cellOf id done) ->
  addToCell acc r = Some acc' ->
  forall id, lookupKey id acc' = cellOf id (done ++ [r]).
Proof.
  intros Hinv Hadd id. unfold addToCell in Hadd. cbv zeta in Hadd.
  destruct (inherited (originCellID r)); [discriminate|].
  injection Hadd as <-.
  unfold cellOf. rewrite sessionsAt_app.
  destruct (String.eqb_spec (originCellID r) id) as [Heq|Hne].
  - subst id. rewrite lookupKey_setKey_same, Hinv. unfold cellOf.
    assert (Hr : sessionsAt (originCellID r) [r] = [r]).
    { unfold sessionsAt. simpl. now rewrite String.eqb_refl. }
    rewrite Hr.
    destruct (sessionsAt (originCellID r) done) as [|first rest] eqn:Hs.
    + simpl. destruct (suspicious r); reflexivity.
    + cbn [app cellID cg_lat cg_lng cg_count cg_suspicious cg_accessTypes].
      change (first :: (rest ++ [r]))%list with ((first :: rest) ++ [r])%list.
      rewrite filter_app, fold_left_app, !length_app. cbn [fold_left].
      f_equal. f_equal.
      * simpl. lia.
      * simpl. destruct (suspicious r); simpl; lia.
  - rewrite lookupKey_setKey_other by exact Hne.
    rewrite Hinv. unfold cellOf.
    assert (Hr : sessionsAt id [r] = []).
    { unfold sessionsAt. simpl.
      destruct (String.eqb_spec (originCellID r) id);
        [contradiction | reflexivity]. }
    rewrite Hr, app_nil_r. reflexivity.
Qed.

Lemma addToCell_NoDup (acc acc' : list (string * CellGroup)) (r : IPDR) :
  NoDup (map fst acc) -> addToCell acc r = Some acc' ->
  NoDup (map fst acc').
Proof.
  intros Hnd Hadd. unfold addToCell in Hadd. cbv zeta in Hadd.
  destruct (inherited (originCellID r)); [discriminate|].
  injection Hadd as <-. now apply setKey_NoDup.
Qed.

Lemma fold_cells_none (records : list IPDR) :
  fold_left (fun acc record =>
               match acc with
               | Some cellGroups => addToCell cellGroups record
               | None => None
               end)
            records None = None.
Proof. induction records as [|r records IH]; [reflexivity | exact IH]. Qed.

Lemma fold_cells_spec (records done : list IPDR)
    (acc groups : list (string * CellGroup)) :
  (forall id, lookupKey id acc = cellOf id done) ->
  NoDup (map fst acc) ->
  fold_left (fun acc record =>
               match acc with
               | Some cellGroups => addToCell cellGroups record
               | None => None
               end)
            records (Some acc) = Some groups ->
  (forall id, lookupKey id groups = cellOf id (done ++ records))
  /\ NoDup (map fst groups).
Proof.
  revert done acc. induction records as [|r records IH];
    intros done acc Hinv Hnd Hfold.
  - simpl in Hfold. injection Hfold as <-. rewrite app_nil_r. now split.
  - simpl in Hfold. destruct (addToCell acc r) as [acc'|] eqn:Hadd.
    + replace (done ++ r :: records)%list
        with ((done ++ [r]) ++ records)%list
        by (rewrite <- app_assoc; reflexivity).
      apply (IH (done ++ [r])%list acc').
      * now apply (addToCell_cellOf acc).
      * now apply (addToCell_NoDup acc acc' r).
      * exact Hfold.
    + rewrite fold_cells_none in Hfold. discriminate Hfold.
Qed.

Lemma groupCells_spec (records : list IPDR)
    (groups : list (string * CellGroup)) :
  groupCells records = Some groups ->
  (forall id, lookupKey id groups = cellOf id records)
  /\ NoDup (map fst groups).
Proof.
  intros H. apply (fold_cells_spec records [] [] groups); try exact H.
  - intros id. reflexivity.
  - constructor.
Qed.

Lemma fold_cells_fails (records : list IPDR)
    (acc : list (string * CellGroup)) :
  fold_left (fun acc record =>
               match acc with
               | Some cellGroups => addToCell cellGroups record
               | None => None
               end)
            records (Some acc) = None
  <-> exists r, In r records /\ inherited (originCellID r) = true.
Proof.
  revert acc. induction records as [|r records IH]; intros acc; simpl.
  - split; [discriminate | intros [r [[] _]]].
  - destruct (addToCell acc r) as [acc'|] eqn:Hadd.
    + rewrite IH. split.
      * intros [r' [Hin Hr']]. exists r'. split; [now right | exact Hr'].
      * intros [r' [[<- | Hin] Hr']].
        -- apply (proj2 (addToCell_inherited acc r)) in Hr'.
           rewrite Hr' in Hadd. discriminate Hadd.
        -- now exists r'.
    + rewrite fold_cells_none. split; [|reflexivity].
      intros _. exists r. split; [now left|].
      exact (proj1 (addToCell_inherited acc r) Hadd).
Qed.

Lemma cellOf_fields (id : string) (records : list IPDR) (g : CellGroup) :
  cellOf id records = Some g ->
  exists first rest,
    sessionsAt id records = first :: rest
    /\ cellID g = id
    /\ cg_lat g = originLat first
    /\ cg_lng g = originLong first
    /\ cg_count g = S (List.length rest)
    /\ cg_suspicious g = List.length (filter suspicious (first :: rest))
    /\ cg_accessTypes g
       = fold_left (fun acc r => bumpAccessType (accessType r) acc)
                   (first :: rest) [].
Proof.
  unfold cellOf. destruct (sessionsAt id records) as [|first rest];
    [discriminate|].
  intros H. injection H as <-. exists first, rest.
  repeat split; reflexivity.
Qed.

Lemma cellOf_cellID (id : string) (records : list IPDR) (g : CellGroup) :
  cellOf id records = Some g -> cellID g = id.
Proof.
  intros H. apply cellOf_fields in H.
  destruct H as [first [rest [_ [H _]]]]. exact H.
Qed.

Lemma groupCells_points (records : list IPDR)
    (groups : list (string * CellGroup)) :
  groupCells records = Some groups ->
  (forall p, In p (map snd groups) ->
             cellOf (cellID p) records = Some p)
  /\ map cellID (map snd groups) = map fst groups
  /\ NoDup (map fst groups)
  /\ (forall r, In r records -> In (originCellID r) (map fst groups)).
Proof.
  intros H. destruct (groupCells_spec records groups H) as [Hlook Hnd].
  assert (Hall : forall k g, In (k, g) groups ->
                             cellOf k records = Some g /\ cellID g = k).
  { intros k g Hin. apply (In_lookupKey k g groups Hnd) in Hin.
    rewrite Hlook in Hin. split; [exact Hin|].
    now apply (cellOf_cellID k records). }
  split; [|split; [|split]].
  - intros p Hp. apply in_map_iff in Hp. destruct Hp as [[k g] [<- Hin]].
    destruct (Hall k g Hin) as [Hc Hk]. simpl. now rewrite Hk.
  - rewrite map_map. apply map_ext_in. intros [k g] Hin.
    now destruct (Hall k g Hin).
  - exact Hnd.
  - intros r Hr.
    destruct (lookupKey (originCellID r) groups) as [g|] eqn:Hg.
    + apply lookupKey_In in Hg. apply in_map_iff.
      now exists (originCellID r, g).
    + rewrite Hlook in Hg. unfold cellOf in Hg.
      destruct (sessionsAt (originCellID r) records) eqn:Hs;
        [|discriminate Hg].
      assert (Hin : In r (sessionsAt (originCellID r) records)).
      { apply filter_In. split; [exact Hr | apply String.eqb_refl]. }
      rewrite Hs in Hin. destruct Hin.
Qed.

(** X10. [getGeographicData]: an answer has one point per cell among the
    first 5000 matching records; the count of a point is the number of
    these records in its cell, its suspicious count the number of them
    that are flagged, its place that of the first of them; the counts add
    up to [totalRecords]. *)
Theorem getGeographicData_points (js : JSRuntime)
    (geoWithinBox : Q * Q -> Q * Q -> IPDR -> bool)
    (bounds : option ((Q * Q) * (Q * Q)))
    (dateRange : option (option string * option string))
    (f : IPDR -> bool) (db : list IPDR) (points : list CellGroup)
    (total : nat) :
  geographicFilter js geoWithinBox bounds dateRange = Some f ->
  getGeographicData js geoWithinBox bounds dateRange db
  = Ok (points, total) ->
  total = List.length (firstn 5000 (filter f db))
  /\ NoDup (map cellID points)
  /\ (forall r, In r (firstn 5000 (filter f db)) ->
                In (originCellID r) (map cellID points))
  /\ (forall p, In p points ->
        exists first rest,
          sessionsAt (cellID p) (firstn 5000 (filter f db)) = first :: rest
          /\ cg_lat p = originLat first
          /\ cg_lng p = originLong first
          /\ cg_count p = S (List.length rest)
          /\ cg_suspicious p
             = List.length (filter suspicious (first :: rest)))
  /\ list_sum (map cg_count points) = total.
Proof.
  intros Hf. unfold getGeographicData. rewrite Hf. cbv zeta.
  remember (firstn 5000 (filter f db)) as records eqn:Hrec.
  destruct (groupCells records) as [groups|] eqn:Hg; [|discriminate].
  intros H. injection H as <- <-.
  destruct (groupCells_points records groups Hg)
    as [Hcell [Hids [Hnd Hcover]]].
  pose proof (objectValues_perm groups) as Hperm.
  assert (Hnd' : NoDup (map cellID (objectValues groups))).
  { apply (Permutation_NoDup
             (Permutation_sym (Permutation_map cellID Hperm))).
    now rewrite Hids. }
  assert (Hcell' : forall p, In p (objectValues groups) ->
                             cellOf (cellID p) records = Some p).
  { intros p Hp. apply Hcell. now apply (Permutation_in _ Hperm). }
  split; [reflexivity|]. split; [exact Hnd'|]. split; [|split].
  - intros r Hr.
    apply (Permutation_in _
             (Permutation_sym (Permutation_map cellID Hperm))).
    rewrite Hids. now apply Hcover.
  - intros p Hp. specialize (Hcell' p Hp).
    apply cellOf_fields in Hcell'.
    destruct Hcell' as [first [rest [Hs [_ [Hlat [Hlng [Hc [Hsus _]]]]]]]].
    exists first, rest. repeat split; assumption.
  - rewrite <- (sizes_over_keys String.eqb originCellID String.eqb_eq
                  (map cellID (objectValues groups)) records Hnd').
    + rewrite map_map. f_equal. apply map_ext_in. intros p Hp.
      specialize (Hcell' p Hp). apply cellOf_fields in Hcell'.
      destruct Hcell' as [first [rest [Hs [_ [_ [_ [Hc _]]]]]]].
      fold (sessionsAt (cellID p) records). now rewrite Hs, Hc.
    + intros r Hr.
      apply (Permutation_in _
               (Permutation_sym (Permutation_map cellID Hperm))).
      rewrite Hids. now apply Hcover.
Qed.

(** X11. [getGeographicData]: once the filter is accepted, the request
    fails exactly when one of the first 5000 matching records has a cell
    identifier that names a member every object inherits, such as
    "constructor" or "toString". *)
Theorem getGeographicData_inherited_cell (js : JSRuntime)
    (geoWithinBox : Q * Q -> Q * Q -> IPDR -> bool)
    (bounds : option ((Q * Q) * (Q * Q)))
    (dateRange : option (option string * option string))
    (f : IPDR -> bool) (db : list IPDR) :
  geographicFilter js geoWithinBox bounds dateRange = Some f ->
  (getGeographicData js geoWithinBox bounds dateRange db = ServerError
   <-> exists r,
         In r (firstn 5000 (filter f db))
         /\ In (originCellID r) objectPrototypeKeys).
Proof.
  intros Hf. unfold getGeographicData. rewrite Hf. cbv zeta.
  remember (firstn 5000 (filter f db)) as records eqn:Hrec.
  assert (Hin : forall r, inherited (originCellID r) = true
                          <-> In (originCellID r) objectPrototypeKeys).
  { intros r. unfold inherited. rewrite existsb_exists. split.
    - intros [k [Hk Heq]]. apply String.eqb_eq in Heq. now rewrite Heq.
    - intros H. exists (originCellID r).
      split; [exact H | apply String.eqb_refl]. }
  destruct (groupCells records) as [groups|] eqn:Hg.
  - split; [discriminate|]. intros [r [Hr Hk]].
    assert (Hnone : groupCells records = None).
    { apply fold_cells_fails. exists r. split; [exact Hr | now apply Hin]. }
    congruence.
  - split; [|reflexivity]. intros _.
    apply fold_cells_fails in Hg. destruct Hg as [r [Hr Hk]].
    exists r. split; [exact Hr | now apply Hin].
Qed.

Lemma getGeographicData_points_witness :
  match getGeographicData utc anyBox None None threeSessionsTwoCells with
  | Ok (points, total) =>
      list_sum (map cg_count points) = 3%nat /\ total = 3%nat
  | _ => False
  end.
Proof.
  destruct (getGeographicData utc anyBox None None threeSessionsTwoCells)
    as [[points total]| |] eqn:H.
  - destruct (getGeographicData_points utc anyBox None None _
                threeSessionsTwoCells points total eq_refl H)
      as [Htotal [_ [_ [_ Hsum]]]].
    rewrite Hsum, Htotal. split; reflexivity.
  - vm_compute in H. discriminate H.
  - vm_compute in H. discriminate H.
Defined.

Lemma getGeographicData_inherited_cell_witness :
  getGeographicData utc anyBox None None constructorCell = ServerError.
Proof.
  apply (proj2 (getGeographicData_inherited_cell utc anyBox None None _
                  constructorCell eq_refl)).
  eexists. split; [left; reflexivity | left; reflexivity].
Defined.

Lemma accessTypeEnum_own (k : string) :
  accessTypeEnum k = true -> inherited k = false /\ k <> "__proto__".
Proof.
  unfold accessTypeEnum. rewrite !orb_true_iff, !String.eqb_eq.
  intros [[[-> | ->] | ->] | ->]; split; (reflexivity || discriminate).
Qed.

Lemma bumpAccessType_tally (acc : list (string * option nat))
    (done : list IPDR) (r : IPDR) :
  accessTypeEnum (accessType r) = true ->
  (forall k, lookupKey k acc = tally k done) ->
  forall k, lookupKey k (bumpAccessType (accessType r) acc)
            = tally k (done ++ [r]).
Proof.
  intros Henum Hinv k. apply accessTypeEnum_own in Henum.
  destruct Henum as [Hown Hproto]. unfold bumpAccessType.
  destruct (String.eqb_spec (accessType r) "__proto__") as [|_];
    [contradiction|].
  rewrite Hinv, Hown. unfold tally at 2. rewrite filter_app, length_app.
  destruct (String.eqb_spec (accessType r) k) as [Heq|Hne].
  - subst k. unfold tally. simpl. rewrite String.eqb_refl. simpl.
    destruct (List.length
                (filter (fun r0 => (accessType r0 =? accessType r)%string)
                        done)) as [|n];
      rewrite lookupKey_setKey_same; simpl; do 2 f_equal; lia.
  - assert (Hsame : lookupKey k
                      match tally (accessType r) done with
                      | Some (Some n) =>
                          setKey (accessType r) (Some (S n)) acc
                      | Some None => setKey (accessType r) None acc
                      | None => setKey (accessType r) (Some 1%nat) acc
                      end
                    = lookupKey k acc).
    { destruct (tally (accessType r) done) as [[n|]|];
        now apply lookupKey_setKey_other. }
    rewrite Hsame, Hinv. unfold tally. simpl.
    destruct (String.eqb_spec (accessType r) k); [contradiction|].
    simpl. now rewrite Nat.add_0_r.
Qed.

Lemma accessTypes_tally (records done : list IPDR)
    (acc : list (string * option nat)) :
  (forall r, In r records -> accessTypeEnum (accessType r) = true) ->
  (forall k, lookupKey k acc = tally k done) ->
  forall k,
    lookupKey k (fold_left (fun acc r => bumpAccessType (accessType r) acc)
                           records acc)
    = tally k (done ++ records).
Proof.
  revert done acc. induction records as [|r records IH];
    intros done acc Henum Hinv k.
  - simpl. rewrite app_nil_r. apply Hinv.
  - simpl.
    replace (done ++ r :: records)%list
      with ((done ++ [r]) ++ records)%list
      by (rewrite <- app_assoc; reflexivity).
    apply IH.
    + intros r' Hr'. apply Henum. now right.
    + apply bumpAccessType_tally; [|exact Hinv].
      apply Henum. now left.
Qed.

(** X12. [getGeographicData]: when the records carry access types of the
    schema, the [accessTypes] of a point hold, under each access type seen
    in its cell, the number of the cell's records with that type, and no
    entry for an access type not seen there. *)
Theorem getGeographicData_accessTypes (js : JSRuntime)
    (geoWithinBox : Q * Q -> Q * Q -> IPDR -> bool)
    (bounds : option ((Q * Q) * (Q * Q)))
    (dateRange : option (option string * option string))
    (f : IPDR -> bool) (db : list IPDR) (points : list CellGroup)
    (total : nat) :
  (forall r, In r db -> accessTypeEnum (accessType r) = true) ->
  geographicFilter js geoWithinBox bounds dateRange = Some f ->
  getGeographicData js geoWithinBox bounds dateRange db
  = Ok (points, total) ->
  forall p k,
    In p points ->
    lookupKey k (cg_accessTypes p)
    = tally k (sessionsAt (cellID p) (firstn 5000 (filter f db))).
Proof.
  intros Henum Hf. unfold getGeographicData. rewrite Hf. cbv zeta.
  remember (firstn 5000 (filter f db)) as records eqn:Hrec.
  destruct (groupCells records) as [groups|] eqn:Hg; [|discriminate].
  intros H p k Hp. injection H as <- _.
  destruct (groupCells_points records groups Hg) as [Hcell _].
  apply (Permutation_in _ (objectValues_perm groups)) in Hp.
  apply Hcell, cellOf_fields in Hp.
  destruct Hp as [first [rest [Hs [_ [_ [_ [_ [_ Hacc]]]]]]]].
  rewrite Hacc, Hs.
  apply (accessTypes_tally (first :: rest) [] []); [|reflexivity].
  intros r Hr. apply Henum.
  assert (Hin : In r records).
  { rewrite <- Hs in Hr. unfold sessionsAt in Hr.
    apply filter_In in Hr. exact (proj1 Hr). }
  rewrite Hrec in Hin. apply In_firstn_In in Hin.
  apply filter_In in Hin. exact (proj1 Hin).
Qed.

Lemma getGeographicData_accessTypes_witness :
  match getGeographicData utc anyBox None None threeSessionsTwoCells with
  | Ok (points, total) =>
      Forall (fun p => lookupKey "4G" (cg_accessTypes p)
                       = Some (Some (cg_count p)))
             points
  | _ => False
  end.
Proof.
  destruct (getGeographicData utc anyBox None None threeSessionsTwoCells)
    as [[points total]| |] eqn:H.
  - assert (Henum : forall r, In r threeSessionsTwoCells ->
                              accessTypeEnum (accessType r) = true).
    { intros r [<- | [<- | [<- | []]]]; reflexivity. }
    pose proof (getGeographicData_accessTypes utc anyBox None None _
                  threeSessionsTwoCells points total Henum eq_refl H)
      as Hacc.
    apply Forall_forall. intros p Hp. rewrite (Hacc p "4G" Hp).
    vm_compute in H. injection H as <- _.
    destruct Hp as [<- | [<- | []]]; reflexivity.
  - vm_compute in H. discriminate H.
  - vm_compute in H. discriminate H.
Defined.


(* ================================================================= *)
(** * The risk listing and the resolution of a case *)

Lemma riskLevelLeb_spec (a b : SuspiciousActivity) :
  riskLevelLeb a b = true <-> byRiskThenDetection a b.
Proof.
  unfold riskLevelLeb, byRiskThenDetection.
  destruct (sa_riskScore a ?= sa_riskScore b)%Q eqn:E.
  - apply Qeq_alt in E. rewrite Z.leb_le. split.
    + intros H. right. now split.
    + intros [H | [_ H]]; [|exact H]. rewrite E in H.
      exfalso. revert H. apply Qlt_irrefl.
  - apply Qlt_alt in E. split; [discriminate|].
    intros [H | [H _]]; exfalso.
    + apply (Qlt_irrefl (sa_riskScore a)). now apply Qlt_trans with (2 := H).
    + rewrite H in E. revert E. apply Qlt_irrefl.
  - apply Qgt_alt in E. split; [|reflexivity]. intros _. now left.
Qed.

Lemma riskLevelLeb_total (a b : SuspiciousActivity) :
  riskLevelLeb a b = true \/ riskLevelLeb b a = true.
Proof.
  rewrite !riskLevelLeb_spec. unfold byRiskThenDetection.
  destruct (Q_dec (sa_riskScore a) (sa_riskScore b)) as [[H | H] | H]; auto.
  destruct (Z.le_ge_cases (sa_detectedAt a) (sa_detectedAt b)).
  - right. right. split; [now symmetry | assumption].
  - left. right. split; assumption.
Qed.

Lemma riskLevelLeb_trans (a b c : SuspiciousActivity) :
  riskLevelLeb a b = true -> riskLevelLeb b c = true ->
  riskLevelLeb a c = true.
Proof.
  rewrite !riskLevelLeb_spec. unfold byRiskThenDetection.
  intros [H1 | [H1 L1]] [H2 | [H2 L2]].
  - left. now apply Qlt_trans with (sa_riskScore b).
  - left. now rewrite <- H2.
  - left. now rewrite H1.
  - right. split; [now rewrite H1 | lia].
Qed.

Lemma Status_eqb_eq (a b : Status) : Status_eqb a b = true <-> a = b.
Proof. destruct a, b; simpl; split; congruence. Qed.

Lemma findByRiskLevel_In (minRisk : option Q)
    (acts : list SuspiciousActivity) (a : SuspiciousActivity) :
  In a (findByRiskLevel minRisk acts)
  <-> In a acts
      /\ (orDefault minRisk (50 # 1) <= sa_riskScore a)%Q
      /\ sa_status a <> RESOLVED.
Proof.
  unfold findByRiskLevel. cbv zeta. split.
  - intros H. apply (Permutation_in _ (sortBy_perm _ _)) in H.
    apply filter_In in H. destruct H as [Hin H].
    apply andb_true_iff in H. destruct H as [Hq Hs].
    apply Qle_bool_iff in Hq. apply negb_true_iff in Hs.
    split; [exact Hin|]. split; [exact Hq|].
    intros Heq. apply Status_eqb_eq in Heq. congruence.
  - intros [Hin [Hq Hs]].
    apply (Permutation_in _ (Permutation_sym (sortBy_perm _ _))).
    apply filter_In. split; [exact Hin|]. apply andb_true_iff. split.
    + now apply Qle_bool_iff.
    + apply negb_true_iff. destruct (Status_eqb (sa_status a) RESOLVED) eqn:E;
        [|reflexivity].
      apply Status_eqb_eq in E. contradiction.
Qed.

(** X13. [findByRiskLevel] lists exactly the events of the collection
    whose risk score is at least the threshold (50 when none is given) and
    whose status is not RESOLVED, a FALSE_POSITIVE included, highest risk
    score first and, among equal scores, latest detection first. *)
Theorem findByRiskLevel_listing (minRisk : option Q)
    (acts : list SuspiciousActivity) :
  (forall a,
      In a (findByRiskLevel minRisk acts)
      <-> In a acts
          /\ (orDefault minRisk (50 # 1) <= sa_riskScore a)%Q
          /\ sa_status a <> RESOLVED)
  /\ StronglySorted byRiskThenDetection (findByRiskLevel minRisk acts)
  /\ Permutation
       (findByRiskLevel minRisk acts)
       (filter (fun a => Qle_bool (orDefault minRisk (50 # 1))
                                  (sa_riskScore a)
                         && negb (Status_eqb (sa_status a) RESOLVED))
               acts).
Proof.
  split; [intros a; apply findByRiskLevel_In|]. split.
  - unfold findByRiskLevel. cbv zeta.
    eapply StronglySorted_impl;
      [|apply (sortBy_sorted riskLevelLeb riskLevelLeb_total
                 riskLevelLeb_trans)].
    intros a b H. now apply riskLevelLeb_spec.
  - unfold findByRiskLevel. cbv zeta. apply sortBy_perm.
Qed.

Lemma activityFor_risk (js : JSRuntime) (now : Z) (record : IPDR)
    (reason : ReasonCode) :
  let a := activityFor js now record reason in
  sa_type a = reason
  /\ sa_status a = NEW
  /\ sa_riskScore a
     = numMul (inject_Z (severityMap (getSeverity reason))) ruleConfidence.
Proof. cbv zeta. repeat split; reflexivity. Qed.

(** X14. The events that [addRecord] raises and the default risk
    listing.  An event raised for night activity has risk score 40, one
    raised for data volume or short duration has 60; so with the default
    threshold of 50 the listing that follows shows the new events of the
    last two kinds and never one for night activity. *)
Theorem raised_events_in_default_listing (js : JSRuntime) (now : Z)
    (body : RecordData) (st st' : Store) (record : IPDR) :
  addRecord js now body st = (st', inr record) ->
  exists evs,
    activities st' = (activities st ++ evs)%list
    /\ forall a,
         In a evs ->
         ((sa_type a = HIGH_NIGHT_ACTIVITY /\ (sa_riskScore a == 40 # 1)%Q)
          \/ (sa_type a <> HIGH_NIGHT_ACTIVITY
              /\ (sa_riskScore a == 60 # 1)%Q))
         /\ (In a (findByRiskLevel None (activities st'))
             <-> sa_type a <> HIGH_NIGHT_ACTIVITY).
Proof.
  unfold addRecord.
  destruct (newIPDR (freshId (ipdrs st)) now body) as [e|r0];
    [intros H; inversion H|].
  destruct (save js now r0) as [e|r1] eqn:Hsave; [intros H; inversion H|].
  intros H. injection H as <- <-. cbn [activities].
  pose proof (save_wellFormed js now r0 r1 Hsave) as Hwf.
  destruct Hwf as [_ [_ [_ [_ [Hcodes Hflag]]]]].
  exists (if suspicious r1
          then map (activityFor js now r1) (suspiciousReasons r1) else []).
  split.
  { destruct (suspicious r1);
      [apply createSuspiciousActivity_app | now rewrite app_nil_r]. }
  intros a Ha.
  assert (Hev : exists reason,
             In reason (suspiciousReasons r1)
             /\ a = activityFor js now r1 reason).
  { destruct (suspicious r1); [|destruct Ha].
    apply in_map_iff in Ha. destruct Ha as [reason [<- Hin]].
    now exists reason. }
  destruct Hev as [reason [Hreason ->]].
  assert (Hnew : In (activityFor js now r1 reason)
                    (if suspicious r1
                     then createSuspiciousActivity js now r1 (activities st)
                     else activities st)).
  { destruct (suspicious r1) eqn:Hs.
    - rewrite createSuspiciousActivity_app. apply in_or_app. right.
      now apply in_map.
    - exfalso.
      assert (Hne : suspiciousReasons r1 <> []).
      { intros Hnil. rewrite Hnil in Hreason. destruct Hreason. }
      apply (proj2 Hflag) in Hne. discriminate Hne. }
  rewrite findByRiskLevel_In.
  destruct (activityFor_risk js now r1 reason) as [Hty [Hst Hrisk]].
  rewrite Hty. apply Hcodes in Hreason.
  destruct reason; try (destruct Hreason; fail);
    cbn [getSeverity severityMap] in Hrisk.
  - assert (Hr : (sa_riskScore (activityFor js now r1 HIGH_NIGHT_ACTIVITY)
                  == 40 # 1)%Q) by (rewrite Hrisk; vm_compute; reflexivity).
    split; [left; split; [reflexivity | exact Hr]|].
    split; [|congruence]. intros [_ [Hle _]]. exfalso.
    rewrite Hr in Hle. unfold Qle in Hle. simpl in Hle. lia.
  - assert (Hr : (sa_riskScore (activityFor js now r1 UNUSUAL_DATA_VOLUME)
                  == 60 # 1)%Q) by (rewrite Hrisk; vm_compute; reflexivity).
    split; [right; split; [discriminate | exact Hr]|].
    split; [discriminate|]. intros _. split; [exact Hnew|].
    split; [|rewrite Hst; discriminate].
    rewrite Hr. unfold Qle. simpl. lia.
  - assert (Hr : (sa_riskScore
                    (activityFor js now r1 SHORT_DURATION_FREQUENT)
                  == 60 # 1)%Q) by (rewrite Hrisk; vm_compute; reflexivity).
    split; [right; split; [discriminate | exact Hr]|].
    split; [discriminate|]. intros _. split; [exact Hnew|].
    split; [|rewrite Hst; discriminate].
    rewrite Hr. unfold Qle. simpl. lia.
Qed.

Lemma raised_events_in_default_listing_witness :
  map sa_type
    (findByRiskLevel None
       (activities
          (fst (addRecord utc jan16_12h (mapRow utc "analyst" nightShortRow)
                  emptyStore))))
  = [SHORT_DURATION_FREQUENT].
Proof.
  destruct (addRecord utc jan16_12h (mapRow utc "analyst" nightShortRow)
              emptyStore) as [st' res] eqn:H.
  destruct res as [e|record].
  - vm_compute in H. discriminate H.
  - destruct (raised_events_in_default_listing _ _ _ _ _ _ H)
      as [evs [Hevs _]].
    vm_compute in H. injection H as <- _. reflexivity.
Defined.

(** X15. The resolution of a case.  A resolved event keeps its risk score
    and its detection time; whatever the threshold, the risk listing of
    the collection is then the listing of the collection without the
    event, and so is the count of suspicious activities of the dashboard;
    a case can be resolved again, and the last resolution stands. *)
Theorem resolve_closes_case (now : Z) (resolution userId : string)
    (c : CaseFile) (before after : list SuspiciousActivity) :
  let a' := cf_activity (resolve now resolution userId c) in
  sa_riskScore a' = sa_riskScore (cf_activity c)
  /\ sa_detectedAt a' = sa_detectedAt (cf_activity c)
  /\ (forall minRisk,
         findByRiskLevel minRisk (before ++ a' :: after)
         = findByRiskLevel minRisk (before ++ after))
  /\ (forall minRisk acts, ~ In a' (findByRiskLevel minRisk acts))
  /\ (forall now' days db invs,
         suspiciousActivities
           (getDashboardStats now' days db (before ++ a' :: after) invs)
         = suspiciousActivities
             (getDashboardStats now' days db (before ++ after) invs))
  /\ (forall now2 resolution2 userId2,
         resolve now2 resolution2 userId2
           (resolve now resolution userId c)
         = resolve now2 resolution2 userId2 c).
Proof.
  cbv zeta. split; [reflexivity|]. split; [reflexivity|].
  split; [|split; [|split]].
  - intros minRisk. unfold findByRiskLevel. cbv zeta.
    rewrite filter_skip; [reflexivity|].
    cbn. now rewrite andb_false_r.
  - intros minRisk acts H. apply findByRiskLevel_In in H.
    destruct H as [_ [_ H]]. apply H. reflexivity.
  - intros now' days db invs. unfold getDashboardStats. cbv zeta.
    cbn [suspiciousActivities].
    rewrite filter_skip; [reflexivity|].
    cbn. now rewrite andb_false_r.
  - intros now2 resolution2 userId2. reflexivity.
Qed.

(** X16. The age of an event is the number of whole hours from its
    detection to now, rounded down: zero during the first hour, and
    negative for a detection time that lies in the future. *)
Theorem ageInHours_whole_hours (now : Z) (a : SuspiciousActivity) :
  msPerHour * ageInHours now a <= now - sa_detectedAt a
                               < msPerHour * (ageInHours now a + 1)
  /\ (ageInHours now a = 0
      <-> sa_detectedAt a <= now < sa_detectedAt a + msPerHour)
  /\ (ageInHours now a < 0 <-> now < sa_detectedAt a).
Proof.
  unfold ageInHours, msPerHour.
  pose proof (Z.div_mod (now - sa_detectedAt a) 3600000) as Hdm.
  pose proof (Z.mod_pos_bound (now - sa_detectedAt a) 3600000) as Hmod.
  lia.
Qed.


(* ================================================================= *)
(** * The analytics of the anomaly events *)

Lemma ReasonCode_eqb_eq (a b : ReasonCode) :
  ReasonCode_eqb a b = true <-> a = b.
Proof. destruct a, b; simpl; split; congruence. Qed.

Lemma Severity_eqb_eq (a b : Severity) : Severity_eqb a b = true <-> a = b.
Proof. destruct a, b; simpl; split; congruence. Qed.

Lemma severityName_ltb (a b : Severity) :
  String.ltb (severityName a) (severityName b) = true
  <-> (alphabeticalRank a < alphabeticalRank b)%nat.
Proof.
  destruct a, b; vm_compute; split;
    (reflexivity || lia || discriminate).
Qed.

Lemma maxSeverity_fold (l : list Severity) (m : Severity) :
  let r := fold_left
             (fun m s => if String.ltb (severityName m) (severityName s)
                         then s else m)
             l m in
  In r (m :: l)
  /\ forall s, In s (m :: l) -> (alphabeticalRank s <= alphabeticalRank r)%nat.
Proof.
  cbv zeta. revert m. induction l as [|x l IH]; intros m.
  - simpl. split; [now left|]. intros s [<- | []]. lia.
  - cbn [fold_left].
    destruct (String.ltb (severityName m) (severityName x)) eqn:E.
    + destruct (IH x) as [Hin Hmax]. split.
      * right. exact Hin.
      * intros s [<- | Hs]; [|now apply Hmax].
        apply severityName_ltb in E.
        specialize (Hmax x (or_introl eq_refl)). lia.
    + destruct (IH m) as [Hin Hmax]. split.
      * destruct Hin as [<- | Hin]; [now left | right; now right].
      * intros s [Hs | [Hs | Hs]].
        -- apply Hmax. now left.
        -- subst s.
           assert (Hge : (alphabeticalRank x <= alphabeticalRank m)%nat).
           { destruct (Nat.le_gt_cases (alphabeticalRank x)
                         (alphabeticalRank m)) as [H|H]; [exact H|].
             apply severityName_ltb in H. congruence. }
           specialize (Hmax m (or_introl eq_refl)). lia.
        -- apply Hmax. now right.
Qed.

Lemma maxSeverity_last (l : list Severity) :
  l <> [] ->
  In (maxSeverity l) l
  /\ forall s, In s l ->
               (alphabeticalRank s <= alphabeticalRank (maxSeverity l))%nat.
Proof.
  destruct l as [|m l]; [congruence|]. intros _.
  apply (maxSeverity_fold l m).
Qed.

Lemma list_sum_firstn_le (n : nat) (l : list nat) :
  (list_sum (firstn n l) <= list_sum l)%nat.
Proof.
  revert n. induction l as [|x l IH]; intros [|n]; simpl; try lia.
  specialize (IH n). lia.
Qed.

Lemma targetLeb_spec (a b : Target) :
  targetLeb a b = true <-> byCountThenRisk a b.
Proof.
  unfold targetLeb, byCountThenRisk.
  destruct (Nat.ltb_spec (tg_count b) (tg_count a)) as [H|H].
  - split; [now left | reflexivity].
  - destruct (Nat.ltb_spec (tg_count a) (tg_count b)) as [H'|H'].
    + split; [discriminate|]. intros [Hlt | [Heq _]]; lia.
    + destruct (tg_avgRiskScore a ?= tg_avgRiskScore b)%Q eqn:E.
      * apply Qeq_alt in E. split; [|reflexivity]. intros _. right.
        split; [lia|]. rewrite E. apply Qle_refl.
      * apply Qlt_alt in E. split; [discriminate|].
        intros [Hlt | [_ Hle]]; [lia|]. exfalso.
        apply (Qlt_not_le _ _ E Hle).
      * apply Qgt_alt in E. split; [|reflexivity]. intros _. right.
        split; [lia | now apply Qlt_le_weak].
Qed.

Lemma targetLeb_total (a b : Target) :
  targetLeb a b = true \/ targetLeb b a = true.
Proof.
  rewrite !targetLeb_spec. unfold byCountThenRisk.
  destruct (Nat.lt_trichotomy (tg_count a) (tg_count b)) as [H | [H | H]];
    auto.
  destruct (Qlt_le_dec (tg_avgRiskScore a) (tg_avgRiskScore b)) as [Hq|Hq].
  - right. right. split; [now symmetry | now apply Qlt_le_weak].
  - left. right. now split.
Qed.

Lemma targetLeb_trans (a b c : Target) :
  targetLeb a b = true -> targetLeb b c = true -> targetLeb a c = true.
Proof.
  rewrite !targetLeb_spec. unfold byCountThenRisk.
  intros [H1 | [H1 L1]] [H2 | [H2 L2]].
  - left. lia.
  - left. lia.
  - left. lia.
  - right. split; [lia | now apply Qle_trans with (tg_avgRiskScore b)].
Qed.

Lemma countLeb_sorted {A : Type} (count : A -> nat) (l : list A) :
  StronglySorted (fun a b => (count b <= count a)%nat)
    (sortBy (fun a b => (count b <=? count a)%nat) l).
Proof.
  eapply StronglySorted_impl;
    [|apply (sortBy_sorted (fun a b => (count b <=? count a)%nat))].
  - intros a b H. now apply Nat.leb_le.
  - intros a b. rewrite !Nat.leb_le. lia.
  - intros a b c. rewrite !Nat.leb_le. lia.
Qed.

(** X17. [getSuspiciousAnalytics]: every breakdown accounts for each event
    of the window once.  The counts by type, by severity, by status and by
    day each add up to the number of events detected in the window;
    the rows by type have distinct types and stand by count descending;
    the top targets are at most ten distinct subjects, by count
    descending and then by average risk score descending, and the count
    of a target is the number of the window's events on its subject. *)
Theorem suspiciousAnalytics_counts (js : JSRuntime) (now : Z)
    (q_days : option string) (acts : list SuspiciousActivity) :
  let data := getSuspiciousAnalytics js now q_days acts in
  let events := eventsInWindow js now q_days acts in
  list_sum (map ty_count (typeBreakdown data)) = List.length events
  /\ list_sum (map snd (severityBreakdown data)) = List.length events
  /\ list_sum (map snd (statusBreakdown data)) = List.length events
  /\ list_sum (map snd (trendData data)) = List.length events
  /\ NoDup (map ty_id (typeBreakdown data))
  /\ StronglySorted (fun a b => (ty_count b <= ty_count a)%nat)
       (typeBreakdown data)
  /\ (List.length (topTargets data) <= 10)%nat
  /\ NoDup (map tg_id (topTargets data))
  /\ StronglySorted byCountThenRisk (topTargets data)
  /\ (forall t,
         In t (topTargets data) ->
         (1 <= tg_count t)%nat
         /\ tg_count t
            = List.length
                (filter (fun a => (sa_phoneNumber a =? tg_id t)%string)
                        events)).
Proof.
  cbv zeta. unfold getSuspiciousAnalytics, eventsInWindow. cbv zeta.
  cbn [typeBreakdown severityBreakdown statusBreakdown trendData topTargets].
  set (events := filter _ acts).
  split; [|split; [|split; [|split; [|split; [|split; [|split;
    [|split; [|split]]]]]]]].
  - rewrite (list_sum_perm _ _ (Permutation_map ty_count (sortBy_perm _ _))).
    rewrite map_map. cbn [ty_count].
    apply (groupBy_sizes ReasonCode_eqb _ ReasonCode_eqb_eq).
  - rewrite map_map. cbn [snd].
    apply (groupBy_sizes Severity_eqb _ Severity_eqb_eq).
  - rewrite map_map. cbn [snd].
    apply (groupBy_sizes Status_eqb _ Status_eqb_eq).
  - rewrite (list_sum_perm _ _ (Permutation_map snd (sortBy_perm _ _))).
    rewrite map_map. cbn [snd].
    apply (groupBy_sizes listZ_eqb _ listZ_eqb_eq).
  - apply (Permutation_NoDup
             (Permutation_sym (Permutation_map ty_id (sortBy_perm _ _)))).
    rewrite map_map. cbn [ty_id].
    apply (groupBy_NoDup ReasonCode_eqb _ ReasonCode_eqb_eq).
  - apply (countLeb_sorted ty_count).
  - apply firstn_le_length.
  - rewrite <- firstn_map. apply NoDup_firstn.
    apply (Permutation_NoDup
             (Permutation_sym (Permutation_map tg_id (sortBy_perm _ _)))).
    rewrite map_map. cbn [tg_id].
    apply (groupBy_NoDup String.eqb _ String.eqb_eq).
  - apply StronglySorted_firstn.
    eapply StronglySorted_impl;
      [|apply (sortBy_sorted targetLeb targetLeb_total targetLeb_trans)].
    intros a b H. now apply targetLeb_spec.
  - intros t Ht. apply In_firstn_In in Ht.
    apply (Permutation_in _ (sortBy_perm _ _)) in Ht.
    apply in_map_iff in Ht. destruct Ht as [g [<- Hg]].
    cbn [tg_count tg_id].
    pose proof (groupBy_nonempty String.eqb sa_phoneNumber String.eqb_eq
                  events g Hg) as Hne.
    destruct (groupBy_members String.eqb sa_phoneNumber String.eqb_eq
                events g Hg) as [Hmem _].
    split.
    + destruct (snd g); [congruence | simpl; lia].
    + now rewrite Hmem.
Qed.

(** X18. The [maxSeverity] of a top target is the greatest severity of its
    events as the stored strings compare, that is in the order CRITICAL,
    HIGH, LOW, MEDIUM: it is MEDIUM as soon as one event of the subject is
    MEDIUM, and it is CRITICAL only when every event of the subject is. *)
Theorem topTargets_maxSeverity_alphabetical (js : JSRuntime) (now : Z)
    (q_days : option string) (acts : list SuspiciousActivity) (t : Target) :
  In t (topTargets (getSuspiciousAnalytics js now q_days acts)) ->
  let events :=
    filter (fun a => (sa_phoneNumber a =? tg_id t)%string)
           (eventsInWindow js now q_days acts) in
  (exists a, In a events /\ sa_severity a = tg_maxSeverity t)
  /\ (forall a, In a events ->
                (alphabeticalRank (sa_severity a)
                 <= alphabeticalRank (tg_maxSeverity t))%nat)
  /\ (tg_maxSeverity t = MEDIUM
      <-> exists a, In a events /\ sa_severity a = MEDIUM)
  /\ (tg_maxSeverity t = CRITICAL
      <-> forall a, In a events -> sa_severity a = CRITICAL).
Proof.
  unfold getSuspiciousAnalytics, eventsInWindow. cbv zeta.
  cbn [topTargets]. set (events := filter _ acts).
  intros Ht. apply In_firstn_In in Ht.
  apply (Permutation_in _ (sortBy_perm _ _)) in Ht.
  apply in_map_iff in Ht. destruct Ht as [g [<- Hg]].
  cbn [tg_maxSeverity tg_id].
  pose proof (groupBy_nonempty String.eqb sa_phoneNumber String.eqb_eq
                events g Hg) as Hne.
  destruct (groupBy_members String.eqb sa_phoneNumber String.eqb_eq
              events g Hg) as [Hmem _].
  rewrite <- Hmem.
  assert (Hne' : map sa_severity (snd g) <> []).
  { destruct (snd g); [congruence | discriminate]. }
  destruct (maxSeverity_last _ Hne') as [Hin Hmax].
  assert (Hex : exists a, In a (snd g)
                          /\ sa_severity a
                             = maxSeverity (map sa_severity (snd g))).
  { apply in_map_iff in Hin. destruct Hin as [a [Ha Hin]]. now exists a. }
  assert (Hall : forall a, In a (snd g) ->
                   (alphabeticalRank (sa_severity a)
                    <= alphabeticalRank
                         (maxSeverity (map sa_severity (snd g))))%nat).
  { intros a Ha. apply Hmax. now apply in_map. }
  split; [exact Hex|]. split; [exact Hall|]. split.
  - split.
    + intros Heq. destruct Hex as [a [Ha Hs]]. exists a.
      split; [exact Ha | congruence].
    + intros [a [Ha Hs]]. specialize (Hall a Ha). rewrite Hs in Hall.
      destruct (maxSeverity (map sa_severity (snd g)));
        simpl in Hall; (reflexivity || lia).
  - split.
    + intros Heq a Ha. specialize (Hall a Ha). rewrite Heq in Hall.
      destruct (sa_severity a); simpl in Hall; (reflexivity || lia).
    + intros Hcrit. destruct Hex as [a [Ha Hs]]. rewrite <- Hs.
      now apply Hcrit.
Qed.

Lemma topTargets_maxSeverity_alphabetical_witness :
  Forall (fun t => tg_maxSeverity t = LOW)
         (topTargets (getSuspiciousAnalytics utc jan16_12h None
                        criticalAndLow)).
Proof.
  apply Forall_forall. intros t Ht.
  destruct (topTargets_maxSeverity_alphabetical utc jan16_12h None
              criticalAndLow t Ht) as [_ [Hmax _]].
  vm_compute in Ht. destruct Ht as [<- | []]. reflexivity.
Defined.


(* ================================================================= *)
(** * The figures of the dashboard and of the trends *)

Lemma setKey_fresh {V : Type} (k : string) (v : V)
    (acc : list (string * V)) :
  ~ In k (map fst acc) -> setKey k v acc = (acc ++ [(k, v)])%list.
Proof.
  induction acc as [|[k0 v0] acc IH]; simpl; intros Hk; [reflexivity|].
  destruct (String.eqb_spec k0 k) as [->|Hne].
  - exfalso. apply Hk. now left.
  - rewrite IH; [reflexivity|]. intros H. apply Hk. now right.
Qed.

Lemma fold_setKey_distinct {V : Type} (items acc : list (string * V)) :
  NoDup (map fst (acc ++ items)) ->
  fold_left (fun acc item => setKey (fst item) (snd item) acc) items acc
  = (acc ++ items)%list.
Proof.
  revert acc. induction items as [|[k v] items IH]; intros acc Hnd.
  - simpl. now rewrite app_nil_r.
  - cbn [fold_left fst snd].
    assert (Hfresh : ~ In k (map fst acc)).
    { rewrite map_app in Hnd. cbn [map fst] in Hnd.
      apply NoDup_remove_2 in Hnd. intros H. apply Hnd.
      apply in_or_app. now left. }
    rewrite (setKey_fresh k v acc Hfresh).
    rewrite IH; rewrite <- app_assoc; [reflexivity | exact Hnd].
Qed.

Lemma distinctBy_length {K : Type} (eqb : K -> K -> bool) (l : list K) :
  (List.length (distinctBy eqb l) <= List.length l)%nat
  /\ (List.length (distinctBy eqb l) = 0%nat <-> l = []).
Proof.
  induction l as [|x l [IH _]]; simpl.
  - split; [lia | tauto].
  - split; [|split; [lia | discriminate]].
    pose proof (filter_length_le (fun y => negb (eqb x y))
                  (distinctBy eqb l)).
    lia.
Qed.

(** X19. The figures of the dashboard agree with each other.  The counts
    of the access-type breakdown, one entry per access type seen in the
    window, add up to [totalRecords], and each is the number of the
    window's records of that type; the number of unique subjects is at
    most [totalRecords] and is zero only when [totalRecords] is; the
    recent activity holds the ten records ingested last, or all of them
    when they are fewer.  The records are taken to carry access types of
    the schema, as every record that was saved does. *)
Theorem dashboard_figures_agree (now : Z) (q_dateRange : option Z)
    (db : list IPDR) (acts : list SuspiciousActivity)
    (invs : list Investigation) :
  (forall r, In r db -> accessTypeEnum (accessType r) = true) ->
  let stats := getDashboardStats now q_dateRange db acts invs in
  let records := ingestedInWindow now q_dateRange db in
  totalRecords stats = List.length records
  /\ list_sum (map snd (accessTypeBreakdown stats)) = totalRecords stats
  /\ NoDup (map fst (accessTypeBreakdown stats))
  /\ (forall k n,
         In (k, n) (accessTypeBreakdown stats) ->
         (1 <= n)%nat
         /\ n = List.length
                  (filter (fun r => (accessType r =? k)%string) records))
  /\ (uniquePhoneNumbers stats <= totalRecords stats)%nat
  /\ (uniquePhoneNumbers stats = 0%nat <-> totalRecords stats = 0%nat)
  /\ List.length (recentActivity stats) = Nat.min 10 (totalRecords stats)
  /\ (suspiciousActivities stats <= List.length acts)%nat.
Proof.
  intros _. cbv zeta. unfold getDashboardStats, ingestedInWindow. cbv zeta.
  cbn [totalRecords accessTypeBreakdown uniquePhoneNumbers recentActivity
       suspiciousActivities].
  set (records := filter _ db).
  set (groups := groupBy String.eqb accessType records).
  assert (Hkeys : map fst (map (fun g : string * list IPDR =>
                                  (fst g, List.length (snd g))) groups)
                  = map fst groups).
  { rewrite map_map. reflexivity. }
  assert (Hnd : NoDup (map fst groups))
    by apply (groupBy_NoDup String.eqb accessType String.eqb_eq).
  rewrite (fold_setKey_distinct _ []); [|cbn [app]; now rewrite Hkeys].
  cbn [app].
  split; [reflexivity|]. split; [|split; [|split; [|split; [|split;
    [|split]]]]].
  - rewrite map_map. cbn [snd].
    apply (groupBy_sizes String.eqb accessType String.eqb_eq).
  - now rewrite Hkeys.
  - intros k n Hin. apply in_map_iff in Hin.
    destruct Hin as [g [Heq Hg]]. injection Heq as <- <-.
    pose proof (groupBy_nonempty String.eqb accessType String.eqb_eq
                  records g Hg) as Hne.
    destruct (groupBy_members String.eqb accessType String.eqb_eq
                records g Hg) as [Hmem _].
    split.
    + destruct (snd g); [congruence | simpl; lia].
    + now rewrite Hmem.
  - destruct (distinctBy_length String.eqb (map phoneNumber records))
      as [H _].
    now rewrite length_map in H.
  - destruct (distinctBy_length String.eqb (map phoneNumber records))
      as [_ H].
    rewrite H. split.
    + intros Hnil. apply map_eq_nil in Hnil. now rewrite Hnil.
    + intros Hlen. apply length_zero_iff_nil in Hlen. now rewrite Hlen.
  - rewrite length_map, length_firstn.
    now rewrite (Permutation_length (sortBy_perm _ records)).
  - apply filter_length_le.
Qed.

Lemma dashboard_figures_agree_witness :
  list_sum
    (map snd
       (accessTypeBreakdown
          (getDashboardStats jan16_12h None fiveAndThree [] [])))
  = 8%nat.
Proof.
  assert (Henum : forall r, In r fiveAndThree ->
                            accessTypeEnum (accessType r) = true).
  { intros r Hr. vm_compute in Hr.
    repeat (destruct Hr as [<- | Hr]; [reflexivity|]). destruct Hr. }
  destruct (dashboard_figures_agree jan16_12h None fiveAndThree [] [] Henum)
    as [Htotal [Hsum _]].
  rewrite Hsum, Htotal. reflexivity.
Defined.




Section GroupSums.
Context {A K : Type} (eqb : K -> K -> bool) (key : A -> K) (weight : A -> Z).
Hypothesis eqb_eq : forall a b, eqb a b = true <-> a = b.





End GroupSums.





(* ================================================================= *)
(** * The rows of the top communicators and the edges of the network *)









(** X23. The status of a relationship request.  It is rejected as a bad
    request exactly when the subject is missing or empty, and it fails
    exactly when a subject is given together with a limit: the limit of
    the query is a string, which the [$limit] stage rejects; with a
    subject and no limit it always answers. *)
Theorem relationships_status (q_phoneNumber q_limit : option string)
    (db : list IPDR) :
  (getNetworkRelationships q_phoneNumber q_limit db = BadRequest
   <-> q_phoneNumber = None \/ q_phoneNumber = Some "")
  /\ (getNetworkRelationships q_phoneNumber q_limit db = ServerError
      <-> (exists phone, q_phoneNumber = Some phone /\ phone <> "")
          /\ exists limit, q_limit = Some limit)
  /\ ((exists rels,
          getNetworkRelationships q_phoneNumber q_limit db = Ok rels)
      <-> (exists phone, q_phoneNumber = Some phone /\ phone <> "")
          /\ q_limit = None).
Proof.
  unfold getNetworkRelationships.
  destruct q_phoneNumber as [phone|].
  - destruct (String.eqb_spec phone "") as [->|Hne].
    + split; [split; [now right | reflexivity]|].
      split; (split; [intros H; try discriminate H; destruct H; discriminate
                     | intros [[p [Hp Hne]] _]; congruence]).
    + destruct q_limit as [limit|].
      * cbn [connections limitStage].
        split; [split; [discriminate | intros [H|H]; congruence]|].
        split.
        -- split; [|reflexivity]. intros _.
           split; [now exists phone | now exists limit].
        -- split; [intros [rels H]; discriminate H
                  | intros [_ H]; discriminate H].
      * rewrite (connections_default phone db).
        split; [split; [discriminate | intros [H|H]; congruence]|].
        split.
        -- split; [discriminate | intros [_ [l H]]; discriminate H].
        -- split; [|intros _; eexists; reflexivity].
           intros _. split; [now exists phone | reflexivity].
  - split; [split; [now left | reflexivity]|].
    split; (split; [intros H; try discriminate H; destruct H; discriminate
                   | intros [[p [Hp Hne]] _]; discriminate Hp]).
Qed.


(* ================================================================= *)
(** * The handler detached from the controller *)

(** X24. [addRecord] as the router runs it, beside [addRecord] called on
    the controller.  Both write the same records and reject the same
    bodies with the same paths.  Detached, the handler never writes an
    anomaly event; it answers with the created record exactly when the
    record is written and not suspicious, and for a suspicious record it
    fails after the record has been written. *)
Theorem addRecord_detached_from_controller (js : JSRuntime) (now : Z)
    (body : RecordData) (st : Store) :
  let detached := addRecordDetached js now body st in
  let bound := addRecord js now body st in
  ipdrs (fst detached) = ipdrs (fst bound)
  /\ activities (fst detached) = activities st
  /\ (forall paths,
         snd detached = inl (Rejected paths) <-> snd bound = inl paths)
  /\ (forall record,
         snd detached = inr record
         <-> snd bound = inr record /\ suspicious record = false)
  /\ (snd detached = inl ThisUndefined
      <-> exists record,
            snd bound = inr record /\ suspicious record = true
            /\ ipdrs (fst detached) = (ipdrs st ++ [record])%list).
Proof.
  cbv zeta. unfold addRecordDetached, addRecord.
  destruct (newIPDR (freshId (ipdrs st)) now body) as [e|r0].
  { cbn [fst snd]. split; [reflexivity|]. split; [reflexivity|].
    split; [|split].
    - intros paths. split; intros H; injection H as ->; reflexivity.
    - intros record. split; [discriminate | intros [H _]; discriminate H].
    - split; [discriminate | intros [record [H _]]; discriminate H]. }
  destruct (save js now r0) as [e|r1].
  { cbn [fst snd]. split; [reflexivity|]. split; [reflexivity|].
    split; [|split].
    - intros paths. split; intros H; injection H as ->; reflexivity.
    - intros record. split; [discriminate | intros [H _]; discriminate H].
    - split; [discriminate | intros [record [H _]]; discriminate H]. }
  cbv zeta. destruct (suspicious r1) eqn:Hs; cbn [fst snd ipdrs activities];
    (split; [reflexivity|]); (split; [reflexivity|]); (split; [|split]).
  - intros paths. split; discriminate.
  - intros record. split; [discriminate|].
    intros [H Hf]. injection H as <-. congruence.
  - split; [|reflexivity]. intros _. exists r1. now repeat split.
  - intros paths. split; discriminate.
  - intros record. split.
    + intros H. injection H as <-. now split.
    + intros [H _]. injection H as <-. reflexivity.
  - split; [discriminate|].
    intros [record [H [Hf _]]]. injection H as <-. congruence.
Qed.
